(** * f1news: a shallow embedding of [src/f1news/__main__.py]

    The program reads a Reddit Atom feed, visits every submission page with
    a crawler, keeps the submissions flaired as news, and writes the feed
    back with every kept entry pointing at the outbound article.

    Layout of this development:
    - [Py]: the fragments of Python the source relies on (exceptions, a
      state-and-exception monad, [str.split], substring tests);
    - [Soup]: the parsed page as the handler sees it through [select_one];
    - [Handler]: [default_handler], statement by statement;
    - [Crawler]: the crawl scheduler the source configures and runs;
    - [Etree]: the XML tree and the feed-filter loop of [main];
    - [App]: [scrape] and [main];
    - [Sample]: a small site and feed to run the definitions on;
    - [Views]: the notions the properties are stated with;
    - [HandlerFacts], [CrawlerFacts], [AppFacts], [EtreeFacts]: the
      lemmas about each part;
    - the claims, one theorem each. *)

From Stdlib Require Import Ascii String.
From stdpp Require Import gmap strings list fin_maps.

Local Open Scope string_scope.
Local Open Scope nat_scope.
Local Open Scope list_scope.

(** ** Python fragments *)
Module Py.

(** The exceptions the source can meet.  [HTTPStatusError] carries the
    status that [raise_for_status] rejected, [SystemExit] the exit code
    of [sys.exit]. *)
Inductive exn :=
| TypeError
| ValueError
| KeyError
| IndexError
| AttributeError
| TransportError
| HTTPStatusError (status : nat)
| XMLSyntaxError
| SystemExit (code : nat).

#[global] Instance exn_eq_dec : EqDecision exn.
Proof. solve_decision. Defined.

(** A computation over a mutable state [S] that returns or raises.  The
    state reached before a raise is kept: effects already performed are
    not rolled back by an exception. *)
Inductive result (A : Type) :=
| Ok (a : A)
| Raise (e : exn).
Arguments Ok {A} a.
Arguments Raise {A} e.

Definition M (S A : Type) : Type := S → result A * S.

Definition ret {S A} (a : A) : M S A := λ s, (Ok a, s).

Definition bind {S A B} (c : M S A) (k : A → M S B) : M S B :=
  λ s, match c s with
       | (Ok a, s') => k a s'
       | (Raise e, s') => (Raise e, s')
       end.

Definition raise {S A} (e : exn) : M S A := λ s, (Raise e, s).

Definition modify {S} (f : S → S) : M S unit := λ s, (Ok tt, f s).

Definition gets {S A} (f : S → A) : M S A := λ s, (Ok (f s), s).

(** [try: c except e: h] *)
Definition try_except {S A} (c : M S A) (e : exn) (h : M S A) : M S A :=
  λ s, match c s with
       | (Raise e', s') => if decide (e' = e) then h s' else (Raise e', s')
       | r => r
       end.

#[global] Instance M_ret {S} : MRet (M S) := λ A, ret.
#[global] Instance M_bind {S} : MBind (M S) := λ A B k c, bind c k.

(** [for x in l: body(x)] *)
Fixpoint for_each {S A} (l : list A) (body : A → M S unit) : M S unit :=
  match l with
  | [] => ret tt
  | x :: l' => bind (body x) (λ _, for_each l' body)
  end.

(** Run [c] on a state of its own, starting from [init]; an exception
    of [c] propagates. *)
Definition with_local {S S' A} (init : S') (c : M S' A) : M S (A * S') :=
  λ s, match c init with
       | (Ok a, s') => (Ok (a, s'), s)
       | (Raise e, _) => (Raise e, s)
       end.

(** A pure computation that may raise. *)
Definition lift {S A} (r : result A) : M S A := λ s, (r, s).

(** [s.split(sep)] for a one-character separator: every occurrence
    splits, so the result has one more part than there are separators. *)
Fixpoint split (sep : ascii) (s : string) : list string :=
  match s with
  | EmptyString => [EmptyString]
  | String c s' =>
      if Ascii.eqb c sep then EmptyString :: split sep s'
      else match split sep s' with
           | [] => [String c EmptyString]
           | p :: ps => String c p :: ps
           end
  end.

(** [needle in s] *)
Fixpoint contains (needle s : string) : bool :=
  String.prefix needle s ||
  match s with
  | EmptyString => false
  | String _ s' => contains needle s'
  end.

(** [a, b = parts]: unpacking into exactly two names. *)
Definition unpack2 {S A} (parts : list A) : M S (A * A) :=
  match parts with
  | [a; b] => ret (a, b)
  | _ => raise ValueError
  end.

(** [d[k]] on a dict. *)
Definition dict_getitem {S A} (d : gmap string A) (k : string) : M S A :=
  match d !! k with
  | Some v => ret v
  | None => raise KeyError
  end.

(** [l[i]] on a list. *)
Definition list_getitem {S A} (l : list A) (i : nat) : M S A :=
  match l !! i with
  | Some v => ret v
  | None => raise IndexError
  end.

(** The double-quote character, which the flair sentinel contains. *)
Definition dquote : string := String (ascii_of_nat 34) EmptyString.

End Py.
Export Py.

(** ** The parsed page *)
Module Soup.

(** A tag as BeautifulSoup holds it: its name and its attribute dict.  A
    multi-valued attribute ([rel], [class]) is held as the text its
    tokens give when joined by one space, which is what an attribute
    selector is matched against. *)
Record Tag := { name : string; attrs : list (string * string) }.

(** The page: its tags in document order, the order [select_one] scans. *)
Definition soup := list Tag.

(** [tag.get(key)] *)
Fixpoint get (key : string) (l : list (string * string)) : option string :=
  match l with
  | [] => None
  | (k, v) :: l' => if String.eqb k key then Some v else get key l'
  end.

(** [tag[key]]: [TypeError] when [select_one] gave [None], [KeyError]
    when the tag lacks the attribute. *)
Definition getitem {S} (tag : option Tag) (key : string) : M S string :=
  match tag with
  | None => raise TypeError
  | Some t => match get key (attrs t) with
              | Some v => ret v
              | None => raise KeyError
              end
  end.

(** [[attr]], [[attr="v"]] and [[attr*="v"]]. *)
Definition has_attr (key : string) (t : Tag) : bool :=
  bool_decide (is_Some (get key (attrs t))).

Definition attr_equals (key v : string) (t : Tag) : bool :=
  match get key (attrs t) with
  | Some x => String.eqb x v
  | None => false
  end.

Definition attr_contains (key v : string) (t : Tag) : bool :=
  match get key (attrs t) with
  | Some x => contains v x
  | None => false
  end.

(** [soup.select_one(sel)]: the first tag in document order that the
    selector matches, [None] when there is none. *)
Definition select_one (sel : Tag → bool) (page : soup) : option Tag :=
  List.find sel page.

(** ['a[href*="/r/formula1/?f=flair_name"]'] *)
Definition flair_selector (t : Tag) : bool :=
  String.eqb (name t) "a" && attr_contains "href" "/r/formula1/?f=flair_name" t.

(** ['a[aria-label][target="_blank"][rel*="nofollow"][rel*="noopener"]'] *)
Definition article_selector (t : Tag) : bool :=
  String.eqb (name t) "a" && has_attr "aria-label" t
  && attr_equals "target" "_blank" t
  && attr_contains "rel" "nofollow" t && attr_contains "rel" "noopener" t.

End Soup.

(** ** The request handler *)
Module Handler.

(** One item of the dataset, the dict [default_handler] pushes. *)
Record Article := { reddit_url : string; article_url : string }.

#[global] Instance Article_eq_dec : EqDecision Article.
Proof. solve_decision. Defined.

(** What the handler writes to its log. *)
Inductive LogRecord :=
| Scraping (url : string) (proxy_info : option string)
| NotNewsLog (url : string)
| Saving (data : Article).

(** The crawling context handed to the handler: the request, the proxy
    the page came through, and the parsed page. *)
Record Context := {
  request_url : string;
  proxy_info : option string;
  soup : Soup.soup;
}.

(** The state the handler acts on: its log and the crawler's dataset. *)
Record Store := { log : list LogRecord; dataset : list Article }.

Definition log_info (r : LogRecord) : M Store unit :=
  modify (λ st, {| log := log st ++ [r]; dataset := dataset st |}).

Definition push_data (data : Article) : M Store unit :=
  modify (λ st, {| log := log st; dataset := dataset st ++ [data] |}).

(** ['flair_name:":post-news: News"'] *)
Definition news_flair : string :=
  "flair_name:" +:+ dquote +:+ ":post-news: News" +:+ dquote.

Section WithParseQs.

(** [urllib.parse.parse_qs], from Python's standard library: the names
    of a query string with the list of values of each. *)
Variable parse_qs : string → gmap string (list string).

(** Lines 109-111: the value of the [f] parameter of the flair link. *)
Definition f_param_value (context : Context) : M Store string :=
  let flair_link := Soup.select_one Soup.flair_selector (soup context) in
  href ← Soup.getitem flair_link "href";
  '(_, query_string) ← unpack2 (split "?" href);
  values ← dict_getitem (parse_qs query_string) "f";
  list_getitem values 0.

(** Lines 105-123. *)
Definition default_handler (context : Context) : M Store unit :=
  log_info (Scraping (request_url context) (proxy_info context));;
  f ← f_param_value context;
  if negb (String.eqb f news_flair) then
    log_info (NotNewsLog (request_url context));;
    mret tt
  else
    let article_link := Soup.select_one Soup.article_selector (soup context) in
    article_url ← Soup.getitem article_link "href";
    let data := {| reddit_url := request_url context; article_url := article_url |} in
    log_info (Saving data);;
    push_data data.

End WithParseQs.

End Handler.

(** ** The crawl scheduler

    The scheduler is [BeautifulSoupCrawler] of the crawlee library.  The
    source constructs it (lines 87-94), registers [default_handler] with
    it and awaits its [run]; the scheduler's own code is not part of the
    source, so its behaviour is taken from the spec's Page Fetcher and
    Crawl Scheduler. *)
Module Crawler.
Import Handler.

(** Modelled from the spec: SubmissionTask, one unit of crawl work,
    with the number of fetch attempts made so far. *)
Record Task := { url : string; attempt_count : nat }.

(** Modelled from the spec: FetchOutcome, what one page fetch gives. *)
Inductive FetchOutcome :=
| NetworkFailure
| Response (status : nat) (page : Soup.soup).

(** Why a cycle failed in a way that is retried. *)
Inductive Failure :=
| FetchFailed (outcome : option nat)
| HandlerRaised (e : exn).

(** How a task ended. *)
Inductive Terminal :=
| Handled (pushed : list Article)
| DroppedFatal (status : nat)
| RetryExhausted (last : Failure).

(** What one cycle decides for its task. *)
Inductive Verdict :=
| Retry (why : Failure)
| End (t : Terminal).

(** The keyword arguments of [BeautifulSoupCrawler(...)], lines 87-94. *)
Record Settings := {
  request_handler : Context → M Store unit;
  proxy_configuration : option (nat → string);
  max_concurrency : nat;
  max_request_retries : nat;
  additional_http_error_status_codes : list nat;
  debug_log : bool;
}.

(** The scheduler's state: the work queue, the handler's store (the
    dataset is the shared ResultRecord store), the number of fetches
    issued so far, the URLs fetched in order, and the tasks that have
    reached a terminal state. *)
Record State := {
  queue : list Task;
  store : Store;
  clock : nat;
  fetched : list string;
  finished : list (Task * Terminal);
}.

Section Run.

(** The outside world of one run: what the site answers to the [n]-th
    fetch of the run when it asks for [u], and which queued task the
    pool serves next. *)
Variable web : nat → string → FetchOutcome.
Variable schedule : nat → nat.
Variable cfg : Settings.

(** Modelled from the spec: the Page Fetcher's success, HTTP 2xx. *)
Definition is_success (status : nat) : bool :=
  (200 <=? status) && (status <? 300).

(** Modelled from the spec: the Page Fetcher's retryable statuses, the
    ones of the non-fatal set ([additional_http_error_status_codes],
    which the source sets to 403 and 429) and 5xx. *)
Definition is_retryable (status : nat) : bool :=
  bool_decide (status ∈ additional_http_error_status_codes cfg)
  || ((500 <=? status) && (status <? 600)).

Definition finish (task : Task) (t : Terminal) (s : State) : State :=
  {| queue := queue s; store := store s; clock := clock s;
     fetched := fetched s; finished := finished s ++ [(task, t)] |}.

Definition enqueue (task : Task) (s : State) : State :=
  {| queue := queue s ++ [task]; store := store s; clock := clock s;
     fetched := fetched s; finished := finished s |}.

(** Modelled from the spec: after a retryable failure, re-enqueue if
    [attempt_count < max_retries], else drop. *)
Definition retry_or_drop (task : Task) (why : Failure) (s : State) : State :=
  if attempt_count task <? max_request_retries cfg
  then enqueue task s
  else finish task (RetryExhausted why) s.

(** Modelled from the spec: one fetch and what it leads to, the heart of
    the crawl scheduler, which is [BeautifulSoupCrawler.run] of the
    crawlee library; the source configures and calls it but does not
    contain it.  Following the spec's Page Fetcher and Crawl Scheduler:
    a network error, a status of the non-fatal set or a 5xx status is a
    retryable failure; any other status that is not a success is fatal;
    on a success the handler runs.  The source's handler is an ordinary
    procedure that returns or raises: when it raises, the cycle has
    failed and is retried like a failed fetch (the spec's "implicit
    retry-via-exception-reraise"). *)
Definition attempt (n : nat) (task : Task) (st : Store) : Verdict * Store :=
  match web n (url task) with
  | NetworkFailure => (Retry (FetchFailed None), st)
  | Response status page =>
      if is_retryable status then (Retry (FetchFailed (Some status)), st)
      else if is_success status then
        let context := {| request_url := url task;
                          proxy_info := (λ p, p n) <$> proxy_configuration cfg;
                          soup := page |} in
        match request_handler cfg context st with
        | (Ok _, st') => (End (Handled (drop (length (dataset st)) (dataset st'))), st')
        | (Raise e, st') => (Retry (HandlerRaised e), st')
        end
      else (End (DroppedFatal status), st)
  end.

(** Modelled from the spec: one fetch-extract cycle of the crawl
    scheduler (see [attempt]) on the [i]-th queued task.  Pop the task,
    fetch, and count the attempt ([attempt_count] is the number of fetch
    attempts made so far); a retryable failure re-enqueues the task
    while [attempt_count < max_retries] and else drops it; any other
    outcome is terminal. *)
Definition cycle (i : nat) (s : State) : State :=
  match queue s !! i with
  | None => s
  | Some task =>
      let task' := {| url := url task; attempt_count := S (attempt_count task) |} in
      let '(verdict, st) := attempt (clock s) task (store s) in
      let s1 := {| queue := delete i (queue s); store := st;
                   clock := S (clock s);
                   fetched := fetched s ++ [url task];
                   finished := finished s |} in
      match verdict with
      | Retry why => retry_or_drop task' why s1
      | End t => finish task' t s1
      end
  end.

(** Modelled from the spec: the run of the scheduler.  The pool serves
    queued tasks, one cycle at a time in the order [schedule] picks,
    until the queue is empty.  With [max_concurrency]
    above one the cycles of a real run overlap; a cycle touches the
    shared store only through its handler, so the run is one of the
    orders [schedule] ranges over. *)
Fixpoint run_cycles (fuel : nat) (s : State) : State :=
  match fuel with
  | 0 => s
  | S fuel' =>
      match queue s with
      | [] => s
      | _ :: _ => run_cycles fuel' (cycle (schedule (clock s) `mod` length (queue s)) s)
      end
  end.

(** Modelled from the spec: the work queue initialised with all input
    tasks, none attempted yet, and an empty store. *)
Definition initial (links : list string) : State :=
  {| queue := (λ u, {| url := u; attempt_count := 0 |}) <$> links;
     store := {| log := []; dataset := [] |};
     clock := 0; fetched := []; finished := [] |}.

(** A task is fetched at most [max 1 max_request_retries] times, which
    bounds the cycles of a run. *)
Definition budget : nat := max 1 (max_request_retries cfg).

(** Modelled from the spec: [await crawler.run(links)], the run to its
    end ([budget] cycles per link are enough to empty the queue). *)
Definition run (links : list string) : State :=
  run_cycles (length links * budget) (initial links).

(** [await crawler.get_dataset()] followed by [dataset.iterate_items()]. *)
Definition get_dataset (s : State) : list Article := dataset (store s).

End Run.

End Crawler.

(** ** The feed document

    The document is an lxml element tree.  [main] parses it, takes the
    list of its entries with [xpath], and then edits the tree in place
    while it walks that list. *)
Module Etree.

(** An XML element as lxml exposes it: tag (in Clark notation,
    [{namespace}local]), attributes, text, children, and the tail text
    that follows the element inside its parent. *)
#[local] Unset Elimination Schemes.
Inductive Element :=
| Node (tag : string) (attrib : list (string * string)) (text : string)
       (children : list Element) (tail : string).

(** The same element as a live object during the loop of [main].
    [parent.remove(child)] unlinks the child (with its tail) from the
    document, but the child object and everything below it stay alive
    and are still reached through the references [xpath] returned
    earlier.  The object therefore stays in place with [attached]
    cleared, and only attached objects are part of the document. *)
Inductive Obj :=
| MkObj (attached : bool) (tag : string) (attrib : list (string * string))
        (text : string) (children : list Obj) (tail : string).

#[local] Set Elimination Schemes.

Definition attached (o : Obj) : bool := let 'MkObj b _ _ _ _ _ := o in b.
Definition tag (o : Obj) : string := let 'MkObj _ t _ _ _ _ := o in t.
Definition attrib (o : Obj) : list (string * string) := let 'MkObj _ _ a _ _ _ := o in a.
Definition children (o : Obj) : list Obj := let 'MkObj _ _ _ _ cs _ := o in cs.

Definition with_children (cs : list Obj) (o : Obj) : Obj :=
  let 'MkObj b t a x _ tl := o in MkObj b t a x cs tl.

(** The objects of a freshly parsed document: all attached. *)
Fixpoint load (e : Element) : Obj :=
  let 'Node t a x cs tl := e in
  MkObj true t a x
        ((fix go (cs : list Element) : list Obj :=
            match cs with [] => [] | c :: cs' => load c :: go cs' end) cs)
        tl.

(** The document reachable from an object: its attached descendants. *)
Fixpoint dump (o : Obj) : Element :=
  let 'MkObj _ t a x cs tl := o in
  Node t a x
       ((fix go (cs : list Obj) : list Element :=
           match cs with
           | [] => []
           | c :: cs' => if attached c then dump c :: go cs' else go cs'
           end) cs)
       tl.

(** A reference to an object: the child indices from the root. *)
Definition ref := list nat.

Fixpoint deref (r : ref) (o : Obj) : option Obj :=
  match r with
  | [] => Some o
  | i :: r' => children o !! i ≫= deref r'
  end.

(** Apply [f] to the object a reference points to. *)
Fixpoint update (r : ref) (f : Obj → Obj) (o : Obj) : Obj :=
  match r with
  | [] => f o
  | i :: r' => with_children (alter (update r' f) i (children o)) o
  end.

Definition atom (local : string) : string :=
  "{http://www.w3.org/2005/Atom}" +:+ local.

(** [xml.xpath("//atom:entry")]: references to every [atom:entry]
    element of the document, in document order.  It is evaluated once,
    before the loop, when every object is still attached. *)
Fixpoint xpath_entries (o : Obj) : list ref :=
  (if String.eqb (tag o) (atom "entry") then [[]] else []) ++
  (fix go (i : nat) (cs : list Obj) : list ref :=
     match cs with
     | [] => []
     | c :: cs' => (cons i <$> xpath_entries c) ++ go (S i) cs'
     end) 0 (children o).

(** Index of the first attached child with the given tag. *)
Fixpoint find_child (t : string) (i : nat) (cs : list Obj) : option nat :=
  match cs with
  | [] => None
  | c :: cs' =>
      if attached c && String.eqb (tag c) t then Some i
      else find_child t (S i) cs'
  end.

(** [entry.find("./atom:link")]: the first [atom:link] child, or [None]. *)
Definition find (entry : ref) (t : string) : M Obj (option ref) :=
  λ root, (Ok (match deref entry root with
               | Some o => (λ i, entry ++ [i]) <$> find_child t 0 (children o)
               | None => None
               end), root).

(** [link.get(key)]; [AttributeError] when [link] is [None]. *)
Definition get (link : option ref) (key : string) : M Obj (option string) :=
  match link with
  | None => raise AttributeError
  | Some r => gets (λ root, deref r root ≫= λ o, Soup.get key (attrib o))
  end.

(** Assignment in an attribute dict: an existing key keeps its place. *)
Fixpoint set_attr (key v : string) (l : list (string * string)) : list (string * string) :=
  match l with
  | [] => [(key, v)]
  | (k, x) :: l' => if String.eqb k key then (k, v) :: l' else (k, x) :: set_attr key v l'
  end.

Definition set_attrib (key v : string) (o : Obj) : Obj :=
  let 'MkObj b t a x cs tl := o in MkObj b t (set_attr key v a) x cs tl.

(** [link.set(key, v)]; [AttributeError] when [link] is [None]. *)
Definition set (link : option ref) (key v : string) : M Obj unit :=
  match link with
  | None => raise AttributeError
  | Some r => modify (update r (set_attrib key v))
  end.

(** [url_mapping[key]], where the key may be [None]. *)
Definition lookup_url {S} (url_mapping : gmap string string) (key : option string) : M S string :=
  match key ≫= (url_mapping !!.) with
  | Some v => ret v
  | None => raise KeyError
  end.

(** [entry.getparent()]: [None] for the root. *)
Definition getparent (entry : ref) : option ref :=
  match entry with
  | [] => None
  | _ :: _ => Some (removelast entry)
  end.

Definition detach (o : Obj) : Obj :=
  let 'MkObj _ t a x cs tl := o in MkObj false t a x cs tl.

(** [parent.remove(entry)]; [AttributeError] when [parent] is [None]. *)
Definition remove (parent : option ref) (entry : ref) : M Obj unit :=
  match parent with
  | None => raise AttributeError
  | Some _ => modify (update entry detach)
  end.

(** The body of the loop, lines 53-59 (the two log lines, which do not
    touch the document, are left out). *)
Definition visit (url_mapping : gmap string string) (entry : ref) : M Obj unit :=
  link ← find entry (atom "link");
  try_except
    (href ← get link "href";
     target ← lookup_url url_mapping href;
     set link "href" target)
    KeyError
    (remove (getparent entry) entry).

(** Lines 52-59. *)
Definition filter_entries (url_mapping : gmap string string) : M Obj unit :=
  entries ← gets xpath_entries;
  for_each entries (visit url_mapping).

(** The feed filter on documents: from the parsed feed to the document
    that is serialised, or the exception that ends the run. *)
Definition feed_filter (url_mapping : gmap string string) (doc : Element) : result Element :=
  match filter_entries url_mapping (load doc) with
  | (Ok _, xml) => Ok (dump xml)
  | (Raise e, _) => Raise e
  end.

End Etree.

(** ** The application *)
Module App.
Import Handler.

(** The libraries and the outside world of one run.  None of them is
    part of the source; each is taken as it is used. *)
Record Env := {
  (** [urllib.parse.parse_qs] *)
  parse_qs : string → gmap string (list string);
  (** [httpx]: the answer to the GET of the feed, [None] when the
      request itself fails, else status and content *)
  feed_response : string → option (nat * string);
  (** [feedparser.parse(rss).entries], each with its [link] if it has one *)
  feed_entries : string → list (option string);
  (** [Actor.create_proxy_configuration()] *)
  create_proxy_configuration : result (option (nat → string));
  (** [Actor.is_at_home()] *)
  is_at_home : bool;
  (** whether the Actor ends the process when its block is left:
      Apify's [Actor] calls [sys.exit] then, unless it runs where it is
      told or finds that it must not (IPython, pytest, Scrapy) *)
  exit_process : bool;
  (** the site, and the order in which the pool serves the queue *)
  web : nat → string → Crawler.FetchOutcome;
  schedule : nat → nat;
  (** [etree.fromstring] and [etree.tostring] *)
  fromstring : string → result Etree.Element;
  tostring : Etree.Element → string;
}.

(** What a run leaves behind: the files written and the HTTP requests
    issued, in order. *)
Record World := {
  files : gmap string string;
  requests : list string;
}.

Section WithEnv.
Variable env : Env.

(** [await client.get(feed_url)] *)
Definition client_get (url : string) : M World (nat * string) :=
  λ w, let w' := {| files := files w; requests := requests w ++ [url] |} in
       match feed_response env url with
       | Some response => (Ok response, w')
       | None => (Raise TransportError, w')
       end.

(** [response.raise_for_status()]: httpx returns on a 2xx status and
    raises on any other. *)
Definition raise_for_status (response : nat * string) : M World unit :=
  if (200 <=? response.1) && (response.1 <? 300)
  then mret tt
  else raise (HTTPStatusError response.1).

(** [[entry.link for entry in feed.entries]]: an entry without a link
    has no such attribute. *)
Fixpoint entry_links (entries : list (option string)) : result (list string) :=
  match entries with
  | [] => Ok []
  | None :: _ => Raise AttributeError
  | Some l :: es => match entry_links es with
                    | Ok ls => Ok (l :: ls)
                    | Raise e => Raise e
                    end
  end.

(** Lines 75-79. *)
Definition proxy_configuration : result (option (nat → string)) :=
  match create_proxy_configuration env with
  | Raise ValueError => Ok None
  | r => r
  end.

(** Lines 81 and 84. *)
Definition max_concurrency : nat := if is_at_home env then 1 else 5.
Definition max_request_retries : nat := if is_at_home env then 50 else 3.

(** Lines 87-94. *)
Definition crawler (proxy : option (nat → string)) (debug : bool) : Crawler.Settings :=
  {| Crawler.request_handler := default_handler (parse_qs env);
     Crawler.proxy_configuration := proxy;
     Crawler.max_concurrency := max_concurrency;
     Crawler.max_request_retries := max_request_retries;
     Crawler.additional_http_error_status_codes := [403; 429];
     Crawler.debug_log := debug |}.

(** [await crawler.run(links)]: the page fetches join the requests of
    the run. *)
Definition crawler_run (cfg : Crawler.Settings) (links : list string) : M World Crawler.State :=
  λ w, let final := Crawler.run (web env) (schedule env) cfg links in
       (Ok final, {| files := files w;
                     requests := requests w ++ Crawler.fetched final |}).

(** [async with Actor: body], line 74.  Leaving the block ends the
    Actor: with [Actor.exit] when the body has returned, with
    [Actor.fail] and exit code 91 when an exception crosses the block.
    Either ends the process with [sys.exit] when [exit_process] is set;
    when it is not, the body's result or exception goes on. *)
Definition async_with_Actor {A} (body : M World A) : M World A :=
  λ w, match body w with
       | (Ok a, w') =>
           if exit_process env then (Raise (SystemExit 0), w') else (Ok a, w')
       | (Raise e, w') =>
           if exit_process env then (Raise (SystemExit 91), w') else (Raise e, w')
       end.

(** Lines 98-100. *)
Definition collect (dataset : list Article) : gmap string string :=
  foldl (λ url_mapping article,
           <[reddit_url article := article_url article]> url_mapping)
        ∅ dataset.

(** Lines 65-102. *)
Definition scrape (feed_url : string) (debug : bool) : M World (string * gmap string string) :=
  response ← client_get feed_url;
  raise_for_status response;;
  let rss := response.2 in
  links ← lift (entry_links (feed_entries env rss));
  final ← async_with_Actor
             (proxy ← lift proxy_configuration;
              crawler_run (crawler proxy debug) links);
  let dataset := Crawler.get_dataset final in
  mret (rss, collect dataset).

(** [Path(output_path).write_bytes(data)] *)
Definition write_bytes (output_path data : string) : M World unit :=
  modify (λ w, {| files := <[output_path := data]> (files w);
                  requests := requests w |}).

(** Lines 46-62. *)
Definition main (feed_url output_path : string) (debug : bool) : M World unit :=
  '(rss, url_mapping) ← scrape feed_url debug;
  doc ← lift (fromstring env rss);
  '(_, xml) ← with_local (Etree.load doc) (Etree.filter_entries url_mapping);
  write_bytes output_path (tostring env (Etree.dump xml)).

End WithEnv.

End App.

(** ** A concrete site, feed and run, for the examples *)
Module Sample.
Import Handler.

(** A query-string parser for the examples: pairs separated by [&],
    name and value separated by the first [=], pairs with no [=] or an
    empty value skipped, [+] read as a space and [%XX] as the character
    with that code, values of one name collected in order. *)
Definition hex_digit (c : ascii) : option nat :=
  let n := nat_of_ascii c in
  if (48 <=? n) && (n <=? 57) then Some (n - 48)
  else if (65 <=? n) && (n <=? 70) then Some (n - 55)
  else if (97 <=? n) && (n <=? 102) then Some (n - 87)
  else None.

Fixpoint unquote_plus (s : string) : string :=
  match s with
  | EmptyString => EmptyString
  | String c s' =>
      if Ascii.eqb c "+" then String " " (unquote_plus s')
      else
        match s' with
        | String h (String l s'') =>
            match (if Ascii.eqb c "%" then hex_digit h else None), hex_digit l with
            | Some a, Some b => String (ascii_of_nat (16 * a + b)) (unquote_plus s'')
            | _, _ => String c (unquote_plus s')
            end
        | _ => String c (unquote_plus s')
        end
  end.

Fixpoint name_value (s : string) : option (string * string) :=
  match s with
  | EmptyString => None
  | String c s' =>
      if Ascii.eqb c "=" then Some (EmptyString, s')
      else (λ nv, (String c nv.1, nv.2)) <$> name_value s'
  end.

Definition parse_qs (qs : string) : gmap string (list string) :=
  foldl (λ d pair,
           match name_value pair with
           | Some (_, EmptyString) | None => d
           | Some (n, v) =>
               partial_alter (λ o, Some (default [] o ++ [unquote_plus v]))
                             (unquote_plus n) d
           end)
        ∅ (split "&" qs).

Definition a (attrs : list (string * string)) : Soup.Tag :=
  {| Soup.name := "a"; Soup.attrs := attrs |}.

Definition flair_a (flair : string) : Soup.Tag :=
  a [("href", "/r/formula1/?f=flair_name%3A%22" +:+ flair +:+ "%22")].

Definition article_a (href : string) : Soup.Tag :=
  a [("aria-label", "Read the article"); ("href", href);
     ("rel", "noopener nofollow ugc"); ("target", "_blank")].

(** Submission A: news flair, outbound link X.  B: another flair.
    D: news flair, but no outbound link.  E: no flair link at all. *)
Definition page_A : Soup.soup :=
  [a [("href", "/r/formula1/")]; flair_a "%3Apost-news%3A+News"; article_a "https://x.example/story"].
Definition page_B : Soup.soup :=
  [flair_a "%3Apost-discussion%3A+Discussion"; article_a "https://y.example/talk"].
Definition page_D : Soup.soup :=
  [flair_a "%3Apost-news%3A+News"; a [("href", "/r/formula1/new/")]].
Definition page_E : Soup.soup :=
  [a [("href", "/r/formula1/")]].

(** The site: A, B, D and E are served, C is gone (404), F is blocked
    (403) and anything else is a server error. *)
Definition web (n : nat) (u : string) : Crawler.FetchOutcome :=
  if String.eqb u "A" then Crawler.Response 200 page_A
  else if String.eqb u "B" then Crawler.Response 200 page_B
  else if String.eqb u "C" then Crawler.Response 404 []
  else if String.eqb u "D" then Crawler.Response 200 page_D
  else if String.eqb u "E" then Crawler.Response 200 page_E
  else if String.eqb u "F" then Crawler.Response 403 []
  else Crawler.Response 503 [].

Definition entry (href body : string) : Etree.Element :=
  Etree.Node (Etree.atom "entry") [] EmptyString
    [Etree.Node (Etree.atom "title") [] body [] EmptyString;
     Etree.Node (Etree.atom "link") [("href", href)] EmptyString [] EmptyString]
    EmptyString.

(** An entry that carries its content but no link, and an entry that
    holds another entry. *)
Definition entry_without_link (body : string) : Etree.Element :=
  Etree.Node (Etree.atom "entry") [] EmptyString
    [Etree.Node (Etree.atom "content") [] body [] EmptyString]
    EmptyString.

Definition entry_holding (href : string) (inner : Etree.Element) : Etree.Element :=
  Etree.Node (Etree.atom "entry") [] EmptyString
    [Etree.Node (Etree.atom "link") [("href", href)] EmptyString [] EmptyString;
     inner]
    EmptyString.

Definition feed_of (entries : list Etree.Element) : Etree.Element :=
  Etree.Node (Etree.atom "feed") [] EmptyString
    (Etree.Node (Etree.atom "title") [] "formula1" [] EmptyString :: entries)
    EmptyString.

(** The feed is named by the links of its entries, one character each. *)
Definition links_of (rss : string) : list string :=
  (λ c, String c EmptyString) <$> list_ascii_of_string rss.

(** The environment of the examples; its process is one the Actor
    leaves running. *)
Definition env (at_home : bool) : App.Env :=
  {| App.parse_qs := parse_qs;
     App.feed_response := λ url, if String.eqb url "down" then None
                                 else if String.eqb url "gone" then Some (404, "ABC")
                                 else Some (200, url);
     App.feed_entries := λ rss, Some <$> links_of rss;
     App.create_proxy_configuration := Raise ValueError;
     App.is_at_home := at_home;
     App.exit_process := false;
     App.web := web;
     App.schedule := λ n, n;
     App.fromstring := λ rss, Ok (feed_of ((λ l, entry l "post") <$> links_of rss));
     App.tostring := λ doc, "serialised";
  |}.

Definition world0 : App.World := {| App.files := ∅; App.requests := [] |}.

End Sample.

(** ** Notions used to state the properties *)
Module Views.
Import Handler.

(** What the page alone determines: the flair value and the article
    link, each as the handler computes it, on a blank context. *)
Definition blank (page : Soup.soup) : Context :=
  {| request_url := EmptyString; proxy_info := None; soup := page |}.

Definition flair_of (pq : string → gmap string (list string)) (page : Soup.soup) : result string :=
  (f_param_value pq (blank page) {| log := []; dataset := [] |}).1.

Definition article_of (page : Soup.soup) : result string :=
  (Soup.getitem (S := Store) (Soup.select_one Soup.article_selector page) "href"
                {| log := []; dataset := [] |}).1.

(** What a run of the handler comes to: how it ended and what it
    added to the dataset. *)
Definition outcome (pq : string → gmap string (list string)) (context : Context) (st : Store)
  : result unit * list Article :=
  let r := default_handler pq context st in
  (r.1, drop (length (dataset st)) (dataset r.2)).

(** What a finished task added to the dataset, and the fetches a task
    has cost so far. *)
Definition pushed_by (ft : Crawler.Task * Crawler.Terminal) : list Article :=
  match ft.2 with
  | Crawler.Handled items => items
  | _ => []
  end.

Definition fetches_of (task : Crawler.Task) : list string :=
  replicate (Crawler.attempt_count task) (Crawler.url task).

(** One cycle from the point of view of its task alone: the task goes
    back to the queue, or ends. *)
Definition advance (web : nat → string → Crawler.FetchOutcome) (cfg : Crawler.Settings)
    (n : nat) (task : Crawler.Task) (st : Store)
  : (Crawler.Task + Crawler.Task * Crawler.Terminal) * Store :=
  let task' := {| Crawler.url := Crawler.url task;
                  Crawler.attempt_count := S (Crawler.attempt_count task) |} in
  let r := Crawler.attempt web cfg n task st in
  (match r.1 with
   | Crawler.End t => inr (task', t)
   | Crawler.Retry why =>
       if S (Crawler.attempt_count task) <? Crawler.max_request_retries cfg
       then inl task'
       else inr (task', Crawler.RetryExhausted why)
   end, r.2).

(** The fetches a queue can still cost. *)
Definition potential (budget : nat) (q : list Crawler.Task) : nat :=
  sum_list_with (λ t, budget - Crawler.attempt_count t) q.

(** Every task of a run, queued or finished. *)
Definition tasks (s : Crawler.State) : list Crawler.Task :=
  Crawler.queue s ++ (Crawler.finished s).*1.

(** A handler that only appends to the dataset: nothing when it raises,
    and else articles filed under the URL of its request. *)
Definition appends_own (handler : Context → M Store unit) : Prop :=
  ∀ context st,
    match handler context st with
    | (Ok _, st') =>
        ∃ items, dataset st' = dataset st ++ items ∧
                 Forall (λ a, reddit_url a = request_url context) items
    | (Raise _, st') => dataset st' = dataset st
    end.

(** The outbound-article link and the flair link, as the spec's
    Extractor looks for them. *)
Definition lacks_expected_element (page : Soup.soup) : Prop :=
  Soup.select_one Soup.flair_selector page = None ∨
  Soup.select_one Soup.article_selector page = None.

(** The reading of "a malformed page does not trigger a retry": a task
    whose every fetch succeeds with a page that lacks an expected
    element ends after a single attempt. *)
Definition malformed_page_not_retried : Prop :=
  ∀ (env : App.Env) proxy debug links u,
    u ∈ links →
    (∀ n, ∃ status page,
        App.web env n u = Crawler.Response status page ∧
        200 ≤ status < 300 ∧ lacks_expected_element page) →
    ∀ task τ,
      (task, τ) ∈ Crawler.finished
        (Crawler.run (App.web env) (App.schedule env) (App.crawler env proxy debug) links) →
      Crawler.url task = u →
      Crawler.attempt_count task = 1.

(** What stands behind a handled task: a page served for its URL with
    a success status; and behind an article it pushed: the news flair
    and the article link on that page. *)
Definition accepted_page (env : App.Env) (k v : string) : Prop :=
  ∃ n status page,
    App.web env n k = Crawler.Response status page ∧
    200 ≤ status < 300 ∧
    flair_of (App.parse_qs env) page = Ok news_flair ∧
    article_of page = Ok v.

(** *** The feed filter in the words of the spec *)

Definition e_tag (e : Etree.Element) : string := let 'Etree.Node t _ _ _ _ := e in t.
Definition e_attrib (e : Etree.Element) : list (string * string) :=
  let 'Etree.Node _ a _ _ _ := e in a.
Definition e_text (e : Etree.Element) : string := let 'Etree.Node _ _ x _ _ := e in x.
Definition e_children (e : Etree.Element) : list Etree.Element :=
  let 'Etree.Node _ _ _ cs _ := e in cs.
Definition e_tail (e : Etree.Element) : string := let 'Etree.Node _ _ _ _ tl := e in tl.

Definition is_entry (e : Etree.Element) : bool := String.eqb (e_tag e) (Etree.atom "entry").
Definition is_link (e : Etree.Element) : bool := String.eqb (e_tag e) (Etree.atom "link").

(** The entry's link: its first [atom:link] child. *)
Definition entry_link (e : Etree.Element) : option Etree.Element :=
  List.find is_link (e_children e).

(** The href the entry's link carries, if any. *)
Definition entry_href (e : Etree.Element) : option string :=
  entry_link e ≫= λ l, Soup.get "href" (e_attrib l).

(** The element with the href of its attributes set. *)
Definition with_href (target : string) (l : Etree.Element) : Etree.Element :=
  let 'Etree.Node t a x cs tl := l in Etree.Node t (Etree.set_attr "href" target a) x cs tl.

Fixpoint rewrite_first_link (target : string) (cs : list Etree.Element) : list Etree.Element :=
  match cs with
  | [] => []
  | c :: cs' => if is_link c then with_href target c :: cs'
                else c :: rewrite_first_link target cs'
  end.

(** The entry with its link pointing at [target]. *)
Definition rewrite_entry (target : string) (e : Etree.Element) : Etree.Element :=
  let 'Etree.Node t a x cs tl := e in Etree.Node t a x (rewrite_first_link target cs) tl.

(** The feed filter as the spec words it: walk the entries in feed
    order; an entry whose link is a key of the mapping stays, with its
    link rewritten to the mapped URL; any other entry is removed
    entirely.  Whatever is not an entry stays as it is. *)
Fixpoint spec_filter (url_mapping : gmap string string) (e : Etree.Element) : Etree.Element :=
  let 'Etree.Node t a x cs tl := e in
  Etree.Node t a x
    ((fix walk (cs : list Etree.Element) : list Etree.Element :=
        match cs with
        | [] => []
        | c :: cs' =>
            if is_entry c then
              match entry_href c ≫= (url_mapping !!.) with
              | Some target => rewrite_entry target (spec_filter url_mapping c) :: walk cs'
              | None => walk cs'
              end
            else spec_filter url_mapping c :: walk cs'
        end) cs)
    tl.

(** Every entry of the document, at any depth, has a link. *)
Fixpoint entries_have_links (e : Etree.Element) : bool :=
  let 'Etree.Node t _ _ cs _ := e in
  (negb (String.eqb t (Etree.atom "entry")) || bool_decide (is_Some (List.find is_link cs)))
  && (fix all (cs : list Etree.Element) : bool :=
        match cs with
        | [] => true
        | c :: cs' => entries_have_links c && all cs'
        end) cs.

(** The reading of "for every feed document the filter rewrites or
    removes each entry": on every document whose root is not itself an
    entry, the filter returns what the spec's walk gives. *)
Definition filter_walks_every_feed : Prop :=
  ∀ (url_mapping : gmap string string) (doc : Etree.Element),
    is_entry doc = false →
    Etree.feed_filter url_mapping doc = Ok (spec_filter url_mapping doc).

(** *** The loop of [main], seen from one element *)

(** The local recursions of [load], [dump], [xpath_entries],
    [spec_filter] and [entries_have_links], by name. *)
Definition dump_children (cs : list Etree.Obj) : list Etree.Element :=
  (fix go (cs : list Etree.Obj) : list Etree.Element :=
     match cs with
     | [] => []
     | c :: cs' => if Etree.attached c then Etree.dump c :: go cs' else go cs'
     end) cs.

Definition child_entries (i : nat) (cs : list Etree.Obj) : list Etree.ref :=
  (fix go (i : nat) (cs : list Etree.Obj) : list Etree.ref :=
     match cs with
     | [] => []
     | c :: cs' => (cons i <$> Etree.xpath_entries c) ++ go (S i) cs'
     end) i cs.

Definition spec_children (url_mapping : gmap string string) (cs : list Etree.Element)
  : list Etree.Element :=
  (fix walk (cs : list Etree.Element) : list Etree.Element :=
     match cs with
     | [] => []
     | c :: cs' =>
         if is_entry c then
           match entry_href c ≫= (url_mapping !!.) with
           | Some target => rewrite_entry target (spec_filter url_mapping c) :: walk cs'
           | None => walk cs'
           end
         else spec_filter url_mapping c :: walk cs'
     end) cs.

Definition all_have_links (cs : list Etree.Element) : bool :=
  (fix all (cs : list Etree.Element) : bool :=
     match cs with
     | [] => true
     | c :: cs' => entries_have_links c && all cs'
     end) cs.

(** [visit] for an entry of a subtree: [has_parent] tells that the
    subtree hangs below some element, so that its root has a parent. *)
Definition visit_from (has_parent : bool) (url_mapping : gmap string string)
    (entry : Etree.ref) : M Etree.Obj unit :=
  link ← Etree.find entry (Etree.atom "link");
  try_except
    (href ← Etree.get link "href";
     target ← Etree.lookup_url url_mapping href;
     Etree.set link "href" target)
    KeyError
    (Etree.remove (if has_parent then Some [] else Etree.getparent entry) entry).

(** Run a computation on the [i]-th child. *)
Definition zoom {A} (i : nat) (c : M Etree.Obj A) : M Etree.Obj A :=
  λ root, match Etree.children root !! i with
          | Some o => let r := c o in
                      (r.1, Etree.with_children (alter (λ _, r.2) i (Etree.children root)) root)
          | None => c root
          end.

(** What one visit does to the entry it visits. *)
Definition act (has_parent : bool) (url_mapping : gmap string string) (o : Etree.Obj)
  : result Etree.Obj :=
  match Etree.find_child (Etree.atom "link") 0 (Etree.children o) with
  | None => Raise AttributeError
  | Some i =>
      match (Etree.children o !! i ≫= λ l, Soup.get "href" (Etree.attrib l))
            ≫= (url_mapping !!.) with
      | Some target =>
          Ok (Etree.with_children
                (alter (Etree.set_attrib "href" target) i (Etree.children o)) o)
      | None => if has_parent then Ok (Etree.detach o) else Raise AttributeError
      end
  end.

(** The object once the loop has visited it and every entry below it,
    when no visit raises. *)
Fixpoint after (url_mapping : gmap string string) (o : Etree.Obj) : Etree.Obj :=
  let 'Etree.MkObj b t a x cs tl := o in
  let cs' := (fix go (cs : list Etree.Obj) : list Etree.Obj :=
                match cs with [] => [] | c :: cs' => after url_mapping c :: go cs' end) cs in
  if String.eqb t (Etree.atom "entry") then
    match Etree.find_child (Etree.atom "link") 0 cs with
    | Some i =>
        match (cs !! i ≫= λ l, Soup.get "href" (Etree.attrib l)) ≫= (url_mapping !!.) with
        | Some target => Etree.MkObj b t a x (alter (Etree.set_attrib "href" target) i cs') tl
        | None => Etree.MkObj false t a x cs' tl
        end
    | None => o
    end
  else Etree.MkObj b t a x cs' tl.

(** Every entry among the objects has an attached link child. *)
Fixpoint linked (o : Etree.Obj) : bool :=
  let 'Etree.MkObj _ t _ _ cs _ := o in
  (negb (String.eqb t (Etree.atom "entry"))
   || bool_decide (is_Some (Etree.find_child (Etree.atom "link") 0 cs)))
  && (fix all (cs : list Etree.Obj) : bool :=
        match cs with
        | [] => true
        | c :: cs' => linked c && all cs'
        end) cs.

(** The loop on one object, for a subtree that hangs under a parent. *)
Definition loop_gives_after (m : gmap string string) (o : Etree.Obj) : Prop :=
  linked o = true →
  for_each (Etree.xpath_entries o) (visit_from true m) o = (Ok tt, after m o).

(** How the loop leaves the object of a document element: an entry
    with a mapped link attached and rewritten, any other entry unlinked,
    anything else attached, and all of them filtered below. *)
Definition left_as (m : gmap string string) (e : Etree.Element) (o : Etree.Obj) : Prop :=
  if is_entry e then
    match entry_href e ≫= (m !!.) with
    | Some target =>
        Etree.attached o = true ∧ Etree.dump o = rewrite_entry target (spec_filter m e)
    | None => Etree.attached o = false
    end
  else Etree.attached o = true ∧ Etree.dump o = spec_filter m e.

(** The loop on one object raises when an entry in it lacks a link. *)
Definition loop_raises (m : gmap string string) (o : Etree.Obj) : Prop :=
  linked o = false →
  (for_each (Etree.xpath_entries o) (visit_from true m) o).1 = Raise AttributeError.

(** *** Entries, and what a kept entry keeps *)

(** The entries of a document, at any depth, in document order. *)
Fixpoint entries_of (e : Etree.Element) : list Etree.Element :=
  (if is_entry e then [e] else []) ++
  (let 'Etree.Node _ _ _ cs _ := e in
   (fix go (cs : list Etree.Element) : list Etree.Element :=
      match cs with
      | [] => []
      | c :: cs' => entries_of c ++ go cs'
      end) cs).

Definition entries_of_list (cs : list Etree.Element) : list Etree.Element :=
  (fix go (cs : list Etree.Element) : list Etree.Element :=
     match cs with
     | [] => []
     | c :: cs' => entries_of c ++ go cs'
     end) cs.

(** The element is, or holds, an entry. *)
Fixpoint has_entry (e : Etree.Element) : bool :=
  let 'Etree.Node t _ _ cs _ := e in
  String.eqb t (Etree.atom "entry") || existsb has_entry cs.

(** No entry of the document lies inside another entry. *)
Fixpoint entries_not_nested (e : Etree.Element) : bool :=
  let 'Etree.Node t _ _ cs _ := e in
  (negb (String.eqb t (Etree.atom "entry")) || negb (existsb has_entry cs))
  && forallb entries_not_nested cs.

(** The same element but for the value of its href attribute. *)
Definition same_but_href (l l' : Etree.Element) : Prop :=
  e_tag l = e_tag l' ∧ e_text l = e_text l' ∧
  e_children l = e_children l' ∧ e_tail l = e_tail l' ∧
  ∀ key, key ≠ "href" → Soup.get key (e_attrib l) = Soup.get key (e_attrib l').

(** The same entry but for the href of its link: same tag, attributes,
    text and tail, and the same children in the same places, the link
    alone differing, and only in its href. *)
Definition same_but_link_href (e e' : Etree.Element) : Prop :=
  e_tag e = e_tag e' ∧ e_attrib e = e_attrib e' ∧
  e_text e = e_text e' ∧ e_tail e = e_tail e' ∧
  ∃ pre l l' post,
    e_children e = pre ++ l :: post ∧
    e_children e' = pre ++ l' :: post ∧
    entry_link e = Some l ∧
    same_but_href l l'.

(** An entry the filter keeps, as the spec's walk leaves it. *)
Definition keep (m : gmap string string) (e : Etree.Element) : option Etree.Element :=
  (λ target, rewrite_entry target e) <$> (entry_href e ≫= (m !!.)).

(** The reading of "a kept entry is unchanged but for its link href,
    and kept entries keep their order": the entries of the output are,
    one for one and in order, entries of the input, each the same but
    for the href of its link. *)
Definition kept_entries_are_untouched : Prop :=
  ∀ (m : gmap string string) (doc out : Etree.Element),
    is_entry doc = false →
    Etree.feed_filter m doc = Ok out →
    ∃ kept, kept `sublist_of` entries_of doc ∧
            Forall2 same_but_link_href kept (entries_of out).

(*VIEWS-END*)
End Views.

(** ** Pages, environments and documents at the edges *)
Module More.
Import Handler Views.

(** How often a character occurs in a string. *)
Fixpoint occurrences (c : ascii) (s : string) : nat :=
  match s with
  | EmptyString => 0
  | String c' s' => (if Ascii.eqb c' c then 1 else 0) + occurrences c s'
  end.

(** A submission whose flair link carries a second question mark, and
    one whose article anchor has no href. *)
Definition page_two_marks : Soup.soup :=
  [Sample.a [("href", "/r/formula1/?f=flair_name%3A%22%3Apost-news%3A+News%22&q=why?")];
   Sample.article_a "https://x.example/story"].

Definition page_bare_anchor : Soup.soup :=
  [Sample.flair_a "%3Apost-news%3A+News";
   Sample.a [("aria-label", "Read the article"); ("rel", "noopener nofollow ugc");
             ("target", "_blank")]].

(** An environment with one of its parts replaced. *)
Definition with_proxy (r : result (option (nat → string))) (env : App.Env) : App.Env :=
  {| App.parse_qs := App.parse_qs env;
     App.feed_response := App.feed_response env;
     App.feed_entries := App.feed_entries env;
     App.create_proxy_configuration := r;
     App.is_at_home := App.is_at_home env;
     App.exit_process := App.exit_process env;
     App.web := App.web env;
     App.schedule := App.schedule env;
     App.fromstring := App.fromstring env;
     App.tostring := App.tostring env |}.

Definition with_feed_response (f : string → option (nat * string)) (env : App.Env) : App.Env :=
  {| App.parse_qs := App.parse_qs env;
     App.feed_response := f;
     App.feed_entries := App.feed_entries env;
     App.create_proxy_configuration := App.create_proxy_configuration env;
     App.is_at_home := App.is_at_home env;
     App.exit_process := App.exit_process env;
     App.web := App.web env;
     App.schedule := App.schedule env;
     App.fromstring := App.fromstring env;
     App.tostring := App.tostring env |}.

Definition with_feed_entries (f : string → list (option string)) (env : App.Env) : App.Env :=
  {| App.parse_qs := App.parse_qs env;
     App.feed_response := App.feed_response env;
     App.feed_entries := f;
     App.create_proxy_configuration := App.create_proxy_configuration env;
     App.is_at_home := App.is_at_home env;
     App.exit_process := App.exit_process env;
     App.web := App.web env;
     App.schedule := App.schedule env;
     App.fromstring := App.fromstring env;
     App.tostring := App.tostring env |}.

Definition with_fromstring (f : string → result Etree.Element) (env : App.Env) : App.Env :=
  {| App.parse_qs := App.parse_qs env;
     App.feed_response := App.feed_response env;
     App.feed_entries := App.feed_entries env;
     App.create_proxy_configuration := App.create_proxy_configuration env;
     App.is_at_home := App.is_at_home env;
     App.exit_process := App.exit_process env;
     App.web := App.web env;
     App.schedule := App.schedule env;
     App.fromstring := f;
     App.tostring := App.tostring env |}.

Definition with_web (f : nat → string → Crawler.FetchOutcome) (env : App.Env) : App.Env :=
  {| App.parse_qs := App.parse_qs env;
     App.feed_response := App.feed_response env;
     App.feed_entries := App.feed_entries env;
     App.create_proxy_configuration := App.create_proxy_configuration env;
     App.is_at_home := App.is_at_home env;
     App.exit_process := App.exit_process env;
     App.web := f;
     App.schedule := App.schedule env;
     App.fromstring := App.fromstring env;
     App.tostring := App.tostring env |}.

Definition with_tostring (f : Etree.Element → string) (env : App.Env) : App.Env :=
  {| App.parse_qs := App.parse_qs env;
     App.feed_response := App.feed_response env;
     App.feed_entries := App.feed_entries env;
     App.create_proxy_configuration := App.create_proxy_configuration env;
     App.is_at_home := App.is_at_home env;
     App.exit_process := App.exit_process env;
     App.web := App.web env;
     App.schedule := App.schedule env;
     App.fromstring := App.fromstring env;
     App.tostring := f |}.

Definition with_exit_process (b : bool) (env : App.Env) : App.Env :=
  {| App.parse_qs := App.parse_qs env;
     App.feed_response := App.feed_response env;
     App.feed_entries := App.feed_entries env;
     App.create_proxy_configuration := App.create_proxy_configuration env;
     App.is_at_home := App.is_at_home env;
     App.exit_process := b;
     App.web := App.web env;
     App.schedule := App.schedule env;
     App.fromstring := App.fromstring env;
     App.tostring := App.tostring env |}.

(** The site of the examples when the first fetch of the run is
    answered 503. *)
Definition flaky_web (n : nat) (u : string) : Crawler.FetchOutcome :=
  if n =? 0 then Crawler.Response 503 [] else Sample.web n u.

(** A serialiser for the examples that shows the entries: the hrefs of
    their links, each followed by a semicolon. *)
Definition render (doc : Etree.Element) : string :=
  foldr (λ href rest, href +:+ ";" +:+ rest) EmptyString (omap entry_href (entries_of doc)).

(** A world that already holds files. *)
Definition world1 : App.World :=
  {| App.files := {["feed.xml" := "old"; "notes.txt" := "mine"]}; App.requests := [] |}.

(** When the loop of [main] runs to its end: every entry has a link,
    and the root, if it is an entry, has a link that is a key of the
    mapping. *)
Definition filter_succeeds (m : gmap string string) (doc : Etree.Element) : bool :=
  entries_have_links doc
  && (negb (is_entry doc) || bool_decide (is_Some (entry_href doc ≫= (m !!.)))).

(** The entry's link points at a value of the mapping. *)
Definition points_into (m : gmap string string) (e : Etree.Element) : Prop :=
  ∃ k target, m !! k = Some target ∧ entry_href e = Some target.

End More.

(** * Properties *)

#[local] Arguments Nat.leb : simpl never.
#[local] Arguments Nat.ltb : simpl never.

(** ** The handler *)
Module HandlerFacts.
Import Handler Views.

Ltac run_monad :=
  repeat (cbn [mbind mret M_bind M_ret bind ret raise modify gets lift fst snd] in *;
          unfold mbind, mret, M_bind, M_ret, bind, ret, raise, modify, gets, lift in *).

Lemma getitem_pure {S} (tag : option Soup.Tag) key (st : S) :
  Soup.getitem tag key st =
  ((Soup.getitem (S := Store) tag key {| log := []; dataset := [] |}).1, st).
Proof.
  unfold Soup.getitem. destruct tag as [t|]; [|done].
  by destruct (Soup.get key (Soup.attrs t)).
Qed.

Lemma f_param_value_pure pq context st :
  f_param_value pq context st = (flair_of pq (soup context), st).
Proof.
  unfold flair_of, f_param_value. run_monad. cbn [soup blank].
  rewrite (getitem_pure _ _ st).
  destruct (Soup.getitem _ _ _) as [[href|e] ?]; cbn; [|done].
  unfold unpack2. destruct (split "?" href) as [|a [|b [|? ?]]]; run_monad; try done.
  unfold dict_getitem. destruct (pq b !! "f") as [values|]; run_monad; [|done].
  unfold list_getitem. by destruct (values !! 0).
Qed.

(** The handler in normal form: one log line, then the verdict the page
    determines. *)
Lemma default_handler_eq pq context st :
  default_handler pq context st =
  let u := request_url context in
  let lg := log st ++ [Scraping u (proxy_info context)] in
  match flair_of pq (soup context) with
  | Raise e => (Raise e, {| log := lg; dataset := dataset st |})
  | Ok f =>
      if negb (String.eqb f news_flair)
      then (Ok tt, {| log := lg ++ [NotNewsLog u]; dataset := dataset st |})
      else match article_of (soup context) with
           | Raise e => (Raise e, {| log := lg; dataset := dataset st |})
           | Ok v =>
               let data := {| reddit_url := u; article_url := v |} in
               (Ok tt, {| log := lg ++ [Saving data]; dataset := dataset st ++ [data] |})
           end
  end.
Proof.
  unfold default_handler, log_info, push_data. run_monad.
  rewrite f_param_value_pure.
  destruct (flair_of pq (soup context)) as [f|e]; cbn; [|done].
  destruct (negb (String.eqb f news_flair)); cbn; [done|].
  unfold article_of. rewrite getitem_pure.
  by destruct (Soup.getitem _ _ _) as [[v|e] ?].
Qed.

(** The handler only ever appends to the dataset: nothing when it
    raises, at most one article, filed under the request's URL. *)
Lemma default_handler_dataset pq context st :
  match default_handler pq context st with
  | (Ok _, st') =>
      ∃ items, dataset st' = dataset st ++ items ∧
               Forall (λ a, reddit_url a = request_url context) items
  | (Raise _, st') => dataset st' = dataset st
  end.
Proof.
  rewrite default_handler_eq. cbn zeta.
  destruct (flair_of pq (soup context)) as [f|e]; [|done].
  destruct (negb (String.eqb f news_flair)).
  { exists []. by rewrite app_nil_r. }
  destruct (article_of (soup context)) as [v|e]; [|done].
  eexists [_]. split; [done|]. by constructor.
Qed.

End HandlerFacts.

(** ** The crawl scheduler *)
Module CrawlerFacts.
Import Handler Views Crawler.

Section Run.
Variable web : nat → string → FetchOutcome.
Variable schedule : nat → nat.
Variable cfg : Settings.

Abbreviation cycle := (cycle web cfg).
Abbreviation run_cycles := (run_cycles web schedule cfg).
Abbreviation advance := (advance web cfg).
Abbreviation budget := (budget cfg).

(** A cycle on a queued task is that task's [advance], with the
    bookkeeping around it. *)
Lemma cycle_eq i s task :
  queue s !! i = Some task →
  cycle i s =
  let r := advance (clock s) task (store s) in
  {| queue := delete i (queue s) ++ match r.1 with inl t => [t] | inr _ => [] end;
     store := r.2;
     clock := S (clock s);
     fetched := fetched s ++ [url task];
     finished := finished s ++ match r.1 with inl _ => [] | inr ft => [ft] end |}.
Proof.
  intros Hi. unfold Crawler.cycle, Views.advance. rewrite Hi. cbn zeta.
  destruct (attempt web cfg (clock s) task (store s)) as [[why|t] st];
    unfold retry_or_drop, enqueue, finish; cbn -[Nat.ltb].
  - destruct (S (attempt_count task) <? max_request_retries cfg);
      cbn; by rewrite ?app_nil_r.
  - by rewrite app_nil_r.
Qed.

(** Every state of a run is reached from the initial one by cycles on
    queued tasks. *)
Lemma run_cycles_ind (I : State → Prop) s0 :
  I s0 →
  (∀ s i task, I s → queue s !! i = Some task → I (cycle i s)) →
  ∀ fuel, I (run_cycles fuel s0).
Proof.
  intros H0 Hstep fuel. revert s0 H0.
  induction fuel as [|fuel IH]; intros s H0; [done|]. cbn.
  destruct (queue s) as [|t q] eqn:Hq; [done|].
  apply IH.
  destruct (lookup_lt_is_Some_2 (queue s) (schedule (clock s) `mod` length (t :: q)))
    as [task Htask].
  { rewrite Hq. apply Nat.mod_upper_bound. done. }
  rewrite <- Hq at 1. eapply Hstep; [done|]. rewrite Hq in Htask |- *. done.
Qed.

(** Tasks evolve one by one: a property of queued tasks that [advance]
    keeps, and a property of finished tasks that it establishes, hold
    throughout a run. *)
Lemma task_invariant (Pq : Task → Prop) (Pf : Task * Terminal → Prop) links :
  (∀ u, u ∈ links → Pq {| url := u; attempt_count := 0 |}) →
  (∀ n task st, Pq task →
     match (advance n task st).1 with inl t => Pq t | inr ft => Pf ft end) →
  ∀ fuel, let s := run_cycles fuel (initial links) in
          Forall Pq (queue s) ∧ Forall Pf (finished s).
Proof.
  intros H0 Hstep fuel.
  apply (run_cycles_ind (λ s, Forall Pq (queue s) ∧ Forall Pf (finished s))).
  - split; [|by constructor]. cbn. apply Forall_fmap, Forall_forall.
    intros u Hu. by apply H0.
  - intros s i task [Hq Hf] Hi. rewrite (cycle_eq _ _ _ Hi).
    assert (Pq task) as Ht by (eapply Forall_lookup_1; eauto).
    specialize (Hstep (clock s) task (store s) Ht).
    assert (Forall Pq (delete i (queue s))) as Hd by by apply Forall_delete.
    destruct (advance (clock s) task (store s)) as [[t|ft] st]; cbn in *;
      rewrite ?app_nil_r; split; try done.
    + apply Forall_app; split; [done|]. by constructor.
    + apply Forall_app; split; [done|]. by constructor.
Qed.

(** What [advance] does to the task itself: one more attempt, same URL;
    back to the queue only below the retry limit. *)
Lemma advance_task n task st :
  match (advance n task st).1 with
  | inl t => url t = url task ∧ attempt_count t = S (attempt_count task)
             ∧ attempt_count t < max_request_retries cfg
  | inr (t, _) => url t = url task ∧ attempt_count t = S (attempt_count task)
  end.
Proof.
  unfold Views.advance. cbn -[Nat.ltb].
  destruct (attempt web cfg n task st).1 as [why|t]; [|done].
  destruct (Nat.ltb_spec (S (attempt_count task)) (max_request_retries cfg)); done.
Qed.

Lemma cycle_tasks i s task :
  queue s !! i = Some task →
  ∃ t, url t = url task ∧ attempt_count t = S (attempt_count task) ∧
       tasks (cycle i s) ≡ₚ t :: delete i (queue s) ++ (finished s).*1.
Proof.
  intros Hi. rewrite (cycle_eq _ _ _ Hi). unfold tasks.
  pose proof (advance_task (clock s) task (store s)) as Ha.
  destruct (advance (clock s) task (store s)) as [[t|[t τ]] st]; cbn in *;
    exists t; (split; [|split]); try tauto.
  - rewrite app_nil_r, <- app_assoc. by rewrite Permutation_middle.
  - rewrite app_nil_r, fmap_app. cbn. rewrite app_assoc.
    by rewrite <- Permutation_cons_append.
Qed.

Lemma tasks_lookup i s task :
  queue s !! i = Some task →
  tasks s ≡ₚ task :: delete i (queue s) ++ (finished s).*1.
Proof.
  intros Hi. unfold tasks. by rewrite (delete_Permutation _ _ _ Hi) at 1.
Qed.

(** The tasks of a run are the links it was given, one task per
    occurrence. *)
Lemma run_tasks links fuel :
  url <$> tasks (run_cycles fuel (initial links)) ≡ₚ links.
Proof.
  apply (run_cycles_ind (λ s, url <$> tasks s ≡ₚ links)).
  - unfold tasks. cbn. rewrite app_nil_r.
    induction links as [|u l IH]; [done|]. cbn. by rewrite IH.
  - intros s i task IH Hi.
    destruct (cycle_tasks _ _ _ Hi) as (t & Hu & _ & Hp).
    rewrite Hp, <- IH, (tasks_lookup _ _ _ Hi). cbn. by rewrite Hu.
Qed.

(** Every fetch of a run is an attempt of one of its tasks. *)
Lemma run_fetched links fuel :
  let s := run_cycles fuel (initial links) in
  fetched s ≡ₚ mjoin (fetches_of <$> tasks s).
Proof.
  apply (run_cycles_ind (λ s, fetched s ≡ₚ mjoin (fetches_of <$> tasks s))).
  - unfold tasks. cbn. rewrite app_nil_r.
    induction links as [|u l IH]; [done|]. cbn. by rewrite <- IH.
  - intros s i task IH Hi.
    destruct (cycle_tasks _ _ _ Hi) as (t & Hu & Hc & Hp).
    rewrite Hp. rewrite (tasks_lookup _ _ _ Hi) in IH. cbn in *.
    rewrite (cycle_eq _ _ _ Hi). cbn.
    unfold fetches_of at 1. rewrite Hu, Hc. cbn.
    rewrite <- Permutation_cons_append. f_equiv. apply IH.
Qed.

(** The attempts of a task stay within the budget. *)
Lemma run_attempts links fuel :
  let s := run_cycles fuel (initial links) in
  Forall (λ t, attempt_count t < budget) (queue s) ∧
  Forall (λ ft, 1 ≤ attempt_count ft.1 ≤ budget) (finished s).
Proof.
  apply task_invariant.
  - intros u _. cbn. unfold Crawler.budget. lia.
  - intros n task st Hlt.
    pose proof (advance_task n task st) as Ha.
    destruct (advance n task st).1 as [t|[t τ]]; cbn;
      unfold Crawler.budget in *; lia.
Qed.

(** A cycle on a queued task uses up some of the queue's potential. *)
Lemma cycle_potential i s task :
  queue s !! i = Some task →
  attempt_count task < budget →
  potential budget (queue (cycle i s)) < potential budget (queue s).
Proof.
  intros Hi Hlt. rewrite (cycle_eq _ _ _ Hi). unfold potential.
  rewrite (delete_Permutation _ _ _ Hi) at 2.
  pose proof (advance_task (clock s) task (store s)) as Ha.
  destruct (advance (clock s) task (store s)) as [[t|[t τ]] st]; cbn in *.
  - rewrite sum_list_with_app. cbn. lia.
  - rewrite app_nil_r. lia.
Qed.

Lemma run_cycles_queue fuel s :
  Forall (λ t, attempt_count t < budget) (queue s) →
  potential budget (queue s) ≤ fuel →
  queue (run_cycles fuel s) = [].
Proof.
  revert s. induction fuel as [|fuel IH]; intros s Hq Hp.
  - cbn. destruct (queue s) as [|t q]; [done|].
    apply Forall_cons in Hq as [Ht _]. unfold potential in Hp. cbn in Hp. lia.
  - cbn. destruct (queue s) as [|t q] eqn:Eq; [done|].
    destruct (lookup_lt_is_Some_2 (queue s) (schedule (clock s) `mod` length (t :: q)))
      as [task Hi].
    { rewrite Eq. by apply Nat.mod_upper_bound. }
    assert (attempt_count task < budget) as Hlt.
    { rewrite <- Eq in Hq. eapply (Forall_lookup_1 _ _ _ _ Hq Hi). }
    rewrite <- Eq in Hq, Hp.
    pose proof (cycle_potential _ _ _ Hi Hlt) as Hdec.
    apply IH; [|lia].
    rewrite (cycle_eq _ _ _ Hi).
    pose proof (advance_task (clock s) task (store s)) as Ha.
    destruct (advance (clock s) task (store s)) as [[t'|ft] st]; cbn in *.
    + apply Forall_app; split; [by apply Forall_delete|].
      constructor; [|done]. unfold Crawler.budget. lia.
    + rewrite app_nil_r. by apply Forall_delete.
Qed.

(** A run ends with its queue empty: every task reaches a terminal
    state. *)
Lemma run_queue links : queue (run web schedule cfg links) = [].
Proof.
  apply run_cycles_queue.
  - cbn. apply Forall_fmap, Forall_forall. intros u _. cbn.
    unfold Crawler.budget. lia.
  - unfold potential. cbn. induction links as [|u l IH]; [done|]. cbn in *. lia.
Qed.

(** *** The dataset *)

Hypothesis handler_appends : appends_own (request_handler cfg).

Lemma attempt_dataset n task st :
  let r := attempt web cfg n task st in
  match r.1 with
  | End (Handled items) =>
      dataset r.2 = dataset st ++ items ∧
      Forall (λ a, reddit_url a = url task) items
  | _ => dataset r.2 = dataset st
  end.
Proof.
  unfold attempt. destruct (web n (url task)) as [|status page]; [done|].
  destruct (is_retryable cfg status); [done|].
  destruct (is_success status); [|done].
  match goal with |- context [request_handler cfg ?c st] =>
    pose proof (handler_appends c st) as Hh;
    destruct (request_handler cfg c st) as [[[]|e] st'] end; cbn in *; [|done].
  destruct Hh as (items & -> & Hitems). by rewrite drop_app_length.
Qed.

Lemma advance_dataset n task st :
  let r := advance n task st in
  dataset r.2 = dataset st ++ match r.1 with inr ft => pushed_by ft | inl _ => [] end ∧
  match r.1 with
  | inr ft => Forall (λ a, reddit_url a = url task) (pushed_by ft)
  | inl _ => True
  end.
Proof.
  pose proof (attempt_dataset n task st) as Ha.
  unfold Views.advance. cbn -[Nat.ltb] in *.
  destruct (attempt web cfg n task st) as [[why|[items|status|last]] st'];
    cbn -[Nat.ltb] in *.
  - destruct (S (attempt_count task) <? max_request_retries cfg); cbn;
      by rewrite Ha, app_nil_r.
  - done.
  - by rewrite Ha, app_nil_r.
  - by rewrite Ha, app_nil_r.
Qed.

(** The dataset holds exactly what the handled tasks pushed, and every
    article is filed under the URL of the task that pushed it. *)
Lemma run_dataset links fuel :
  let s := run_cycles fuel (initial links) in
  dataset (store s) = mjoin (pushed_by <$> finished s) ∧
  Forall (λ ft, Forall (λ a, reddit_url a = url ft.1) (pushed_by ft)) (finished s).
Proof.
  apply (run_cycles_ind (λ s,
    dataset (store s) = mjoin (pushed_by <$> finished s) ∧
    Forall (λ ft, Forall (λ a, reddit_url a = url ft.1) (pushed_by ft)) (finished s))).
  - by split.
  - intros s i task [Hd Hf] Hi. rewrite (cycle_eq _ _ _ Hi).
    pose proof (advance_dataset (clock s) task (store s)) as [Ha Hb].
    pose proof (advance_task (clock s) task (store s)) as Ht.
    destruct (advance (clock s) task (store s)) as [[t|[t τ]] st]; cbn in *.
    + rewrite !app_nil_r in *. split; [congruence|done].
    + rewrite fmap_app, join_app. cbn. rewrite app_nil_r. split; [congruence|].
      apply Forall_app; split; [done|]. constructor; [|done]. cbn.
      destruct Ht as [-> _]. done.
Qed.

(** *** One URL at a time *)

(** If every attempt on [u] is a failure of kind [R], every task for [u]
    ends with its retries exhausted, by a failure of kind [R], having
    used all the attempts it is allowed. *)
Lemma url_always_retry u (R : Failure → Prop) links fuel :
  (∀ n task st, url task = u →
     ∃ why, (attempt web cfg n task st).1 = Retry why ∧ R why) →
  Forall (λ ft, url ft.1 = u →
            attempt_count ft.1 = budget ∧
            ∃ why, ft.2 = RetryExhausted why ∧ R why)
         (finished (run_cycles fuel (initial links))).
Proof.
  intros Hweb.
  apply (task_invariant (λ t, attempt_count t < budget)).
  - intros ? _. cbn. unfold Crawler.budget. lia.
  - intros n task st Hlt.
    pose proof (Hweb n task st) as Hu.
    unfold Views.advance. cbn -[Nat.ltb].
    destruct (attempt web cfg n task st).1 as [why|τ].
    + destruct (Nat.ltb_spec (S (attempt_count task)) (max_request_retries cfg));
        cbn; unfold Crawler.budget in *; [lia|].
      intros Heq. destruct (Hu Heq) as (why' & [= <-] & HR).
      split; [lia|]. eauto.
    + cbn. intros Heq. by destruct (Hu Heq) as (why' & ? & _).
Qed.

(** If every attempt on [u] is terminal, of kind [T], every task for
    [u] ends after exactly one attempt, in a state of kind [T]. *)
Lemma url_always_end u (T : Terminal → Prop) links fuel :
  (∀ n task st, url task = u →
     ∃ τ, (attempt web cfg n task st).1 = End τ ∧ T τ) →
  Forall (λ ft, url ft.1 = u → attempt_count ft.1 = 1 ∧ T ft.2)
         (finished (run_cycles fuel (initial links))).
Proof.
  intros Hweb.
  apply (task_invariant (λ t, url t = u → attempt_count t = 0)).
  - done.
  - intros n task st Hq.
    pose proof (Hweb n task st) as Hu.
    unfold Views.advance. cbn -[Nat.ltb].
    destruct (attempt web cfg n task st).1 as [why|τ].
    + assert (url task = u → False) as Hno.
      { intros Heq. by destruct (Hu Heq) as (? & ? & _). }
      destruct (S (attempt_count task) <? max_request_retries cfg); cbn; tauto.
    + cbn. intros Heq. destruct (Hu Heq) as (τ' & [= <-] & HT).
      rewrite (Hq Heq). done.
Qed.

(** If no attempt on [u] pushes anything, no article of the dataset is
    filed under [u]. *)
Lemma url_no_push u links fuel :
  (∀ n task st items, url task = u →
     (attempt web cfg n task st).1 = End (Handled items) → items = []) →
  u ∉ reddit_url <$> dataset (store (run_cycles fuel (initial links))).
Proof.
  intros Hweb.
  pose proof (run_dataset links fuel) as [Hd Hown]. cbn zeta in *.
  assert (Forall (λ ft, url ft.1 = u → pushed_by ft = [])
                 (finished (run_cycles fuel (initial links)))) as Hnone.
  { apply (task_invariant (λ _, True)); [done|].
    intros n task st _. pose proof (Hweb n task st) as Hu.
    unfold Views.advance. cbn -[Nat.ltb].
    destruct (attempt web cfg n task st).1 as [why|[items|status|last]];
      cbn -[Nat.ltb]; try done.
    - by destruct (S (attempt_count task) <? max_request_retries cfg).
    - intros Heq. unfold pushed_by. cbn. eauto. }
  rewrite Hd. intros Hin.
  apply list_elem_of_fmap in Hin as (a & -> & Ha).
  apply list_elem_of_join in Ha as (items & Ha & Hitems).
  apply list_elem_of_fmap in Hitems as (ft & -> & Hft).
  rewrite Forall_forall in Hnone, Hown.
  specialize (Hown ft Hft). rewrite Forall_forall in Hown.
  rewrite (Hnone ft Hft) in Ha; [by apply elem_of_nil in Ha|].
  symmetry. by apply Hown.
Qed.

End Run.
End CrawlerFacts.

(** ** The application *)
Module AppFacts.
Import Handler Views Crawler App HandlerFacts CrawlerFacts.

(** [collect] keeps, for every key, an article of the dataset. *)
Lemma collect_lookup ds k v :
  collect ds !! k = Some v → {| reddit_url := k; article_url := v |} ∈ ds.
Proof.
  unfold collect.
  assert (∀ m : gmap string string,
            foldl (λ m a, <[reddit_url a := article_url a]> m) m ds !! k = Some v →
            m !! k = Some v ∨ {| reddit_url := k; article_url := v |} ∈ ds) as H.
  { induction ds as [|a ds IH]; intros m Hm; cbn in *; [by left|].
    destruct (IH _ Hm) as [Hk|Hin]; [|right; by constructor].
    destruct (decide (reddit_url a = k)) as [<-|Hne].
    - rewrite lookup_insert_eq in Hk. injection Hk as <-.
      right. destruct a. by constructor.
    - rewrite lookup_insert_ne in Hk by done. by left. }
  intros Hm. destruct (H ∅ Hm) as [Hk|?]; [|done].
  by rewrite lookup_empty in Hk.
Qed.

Lemma collect_none ds k : k ∉ reddit_url <$> ds → collect ds !! k = None.
Proof.
  intros Hk. destruct (collect ds !! k) as [v|] eqn:E; [|done].
  apply collect_lookup in E. destruct Hk.
  apply list_elem_of_fmap. by eexists {| reddit_url := k; article_url := v |}.
Qed.

Section WithEnv.
Variable env : Env.
Variable proxy : option (nat → string).
Variable debug : bool.

Abbreviation cfg := (crawler env proxy debug).

Lemma crawler_appends : appends_own (request_handler cfg).
Proof. intros context st. apply default_handler_dataset. Qed.

Lemma crawler_budget : budget cfg = max_request_retries env.
Proof.
  unfold budget, App.max_request_retries. cbn.
  unfold App.max_request_retries. by destruct (is_at_home env).
Qed.

(** The statuses the crawler of [scrape] retries: 403, 429 and 5xx. *)
Lemma crawler_is_retryable status :
  is_retryable cfg status = true ↔
  status = 403 ∨ status = 429 ∨ 500 ≤ status < 600.
Proof.
  unfold is_retryable.
  change (additional_http_error_status_codes cfg) with [403; 429].
  rewrite orb_true_iff, bool_decide_eq_true, andb_true_iff,
    Nat.leb_le, Nat.ltb_lt.
  rewrite !elem_of_cons, elem_of_nil. tauto.
Qed.

(** What an attempt comes to, by what the site answers. *)
Lemma attempt_retryable n task st status page :
  web env n (url task) = Response status page →
  status = 403 ∨ status = 429 ∨ 500 ≤ status < 600 →
  attempt (web env) cfg n task st = (Retry (FetchFailed (Some status)), st).
Proof.
  intros Hw Hs. unfold attempt. rewrite Hw.
  apply crawler_is_retryable in Hs. by rewrite Hs.
Qed.

Lemma attempt_fatal n task st status page :
  web env n (url task) = Response status page →
  ¬ (status = 403 ∨ status = 429 ∨ 500 ≤ status < 600) →
  ¬ (200 ≤ status < 300) →
  attempt (web env) cfg n task st = (End (DroppedFatal status), st).
Proof.
  intros Hw Hs Hok. unfold attempt. rewrite Hw.
  rewrite <- crawler_is_retryable in Hs.
  destruct (is_retryable cfg status); [done|].
  unfold is_success.
  destruct (Nat.leb_spec 200 status), (Nat.ltb_spec status 300); cbn; try done. lia.
Qed.

Lemma attempt_success n task st status page :
  web env n (url task) = Response status page →
  200 ≤ status < 300 →
  attempt (web env) cfg n task st =
  match default_handler (parse_qs env)
          {| request_url := url task;
             proxy_info := (λ p, p n) <$> proxy;
             soup := page |} st with
  | (Ok _, st') => (End (Handled (drop (length (dataset st)) (dataset st'))), st')
  | (Raise e, st') => (Retry (HandlerRaised e), st')
  end.
Proof.
  intros Hw Hs. unfold attempt. rewrite Hw.
  assert (is_retryable cfg status = false) as ->.
  { apply not_true_is_false. rewrite crawler_is_retryable. lia. }
  unfold is_success.
  destruct (Nat.leb_spec 200 status), (Nat.ltb_spec status 300); cbn; try lia. done.
Qed.

(** An attempt ends handled only on a page that was served with a
    success status; it then pushed nothing, or the page has the news
    flair and an article link, and it pushed that one article. *)
Lemma attempt_handled n task st items :
  (attempt (web env) cfg n task st).1 = End (Handled items) →
  ∃ status page,
    web env n (url task) = Response status page ∧
    200 ≤ status < 300 ∧
    (items = [] ∨
     flair_of (parse_qs env) page = Ok news_flair ∧
     ∃ v, article_of page = Ok v ∧
          items = [{| reddit_url := url task; article_url := v |}]).
Proof.
  unfold attempt. destruct (web env n (url task)) as [|status page]; [done|].
  destruct (is_retryable cfg status); [done|].
  unfold is_success.
  destruct (Nat.leb_spec 200 status), (Nat.ltb_spec status 300); cbn; try done.
  rewrite default_handler_eq. cbn [request_url proxy_info soup]. cbn zeta.
  intros Hh. exists status, page. split; [done|]. split; [lia|]. revert Hh.
  destruct (flair_of (parse_qs env) page) as [f|e]; cbn; [|done].
  destruct (String.eqb_spec f news_flair) as [->|Hne]; cbn.
  - destruct (article_of page) as [v|e]; cbn; [|done].
    intros [= <-]. right. split; [done|]. exists v. split; [done|].
    by rewrite drop_app_length.
  - intros [= <-]. left. by rewrite drop_ge.
Qed.

(** When the handler raises on every page served for a URL, every
    attempt on it is a failure. *)
Lemma attempt_handler_raises n task st status page e :
  web env n (url task) = Response status page →
  200 ≤ status < 300 →
  (default_handler (parse_qs env)
     {| request_url := url task; proxy_info := (λ p, p n) <$> proxy; soup := page |}
     st).1 = Raise e →
  (attempt (web env) cfg n task st).1 = Retry (HandlerRaised e).
Proof.
  intros Hw Hs Hr. rewrite (attempt_success _ _ _ _ _ Hw Hs).
  destruct (default_handler _ _ _) as [[[]|e'] st']; cbn in *; congruence.
Qed.

End WithEnv.

(** [scrape] either raises, or returns the feed with what [collect]
    makes of the crawler's dataset. *)
Lemma scrape_cases env feed_url debug w :
  let w1 := {| files := files w; requests := requests w ++ [feed_url] |} in
  (∃ e w', scrape env feed_url debug w = (Raise e, w')) ∨
  (∃ status rss links proxy,
     feed_response env feed_url = Some (status, rss) ∧
     200 ≤ status < 300 ∧
     entry_links (feed_entries env rss) = Ok links ∧
     proxy_configuration env = Ok proxy ∧
     let final := run (web env) (schedule env) (crawler env proxy debug) links in
     scrape env feed_url debug w =
     (Ok (rss, collect (get_dataset final)),
      {| files := files w; requests := requests w1 ++ fetched final |})).
Proof.
  cbn zeta.
  unfold scrape, async_with_Actor, client_get, raise_for_status, crawler_run. run_monad.
  destruct (feed_response env feed_url) as [[status rss]|]; [|left; eauto].
  cbn. destruct (Nat.leb_spec 200 status), (Nat.ltb_spec status 300); cbn;
    try (left; by eauto).
  all: destruct (entry_links (feed_entries env rss)) as [links|e] eqn:El;
    cbn; [|left; by eauto].
  all: destruct (proxy_configuration env) as [px|e] eqn:Ep; cbn;
    destruct (exit_process env); cbn; try (left; by eauto).
  all: right; exists status, rss, links, px; repeat split; try done; lia.
Qed.

(** What [main] does once [scrape] has returned and the feed is parsed:
    it writes the filtered document, or raises what the filter raises. *)
Lemma main_after_scrape env feed_url output_path debug w rss m w' doc :
  scrape env feed_url debug w = (Ok (rss, m), w') →
  fromstring env rss = Ok doc →
  main env feed_url output_path debug w =
  match Etree.feed_filter m doc with
  | Ok out => (Ok tt, {| files := <[output_path := tostring env out]> (files w');
                         requests := requests w' |})
  | Raise e => (Raise e, w')
  end.
Proof.
  intros Hs Hd. unfold main, Etree.feed_filter, with_local, write_bytes.
  run_monad. rewrite Hs, Hd.
  by destruct (Etree.filter_entries m (Etree.load doc)) as [[[]|e] xml].
Qed.

End AppFacts.

(** ** The feed filter *)
Module EtreeFacts.
Import Views Etree.

(** Induction on elements and objects, with the children at hand. *)
Lemma Element_ind (P : Element → Prop) :
  (∀ t a x cs tl, Forall P cs → P (Node t a x cs tl)) → ∀ e, P e.
Proof.
  intros H. fix IH 1. intros [t a x cs tl]. apply H.
  induction cs as [|c cs IHcs]; constructor; [apply IH|apply IHcs].
Qed.

Lemma Obj_ind (P : Obj → Prop) :
  (∀ b t a x cs tl, Forall P cs → P (MkObj b t a x cs tl)) → ∀ o, P o.
Proof.
  intros H. fix IH 1. intros [b t a x cs tl]. apply H.
  induction cs as [|c cs IHcs]; constructor; [apply IH|apply IHcs].
Qed.

(** The defining equations, with the local recursions named. *)
Lemma load_eq t a x cs tl :
  load (Node t a x cs tl) = MkObj true t a x (load <$> cs) tl.
Proof. done. Qed.

Lemma dump_eq b t a x cs tl :
  dump (MkObj b t a x cs tl) = Node t a x (dump_children cs) tl.
Proof. done. Qed.

Lemma xpath_entries_eq o :
  xpath_entries o =
  (if String.eqb (tag o) (atom "entry") then [[]] else []) ++ child_entries 0 (children o).
Proof. by destruct o. Qed.

Lemma child_entries_cons i c cs :
  child_entries i (c :: cs) = (cons i <$> xpath_entries c) ++ child_entries (S i) cs.
Proof. done. Qed.

Lemma spec_filter_eq m t a x cs tl :
  spec_filter m (Node t a x cs tl) = Node t a x (spec_children m cs) tl.
Proof. done. Qed.

Lemma entries_have_links_eq t a x cs tl :
  entries_have_links (Node t a x cs tl) =
  (negb (String.eqb t (atom "entry")) || bool_decide (is_Some (List.find is_link cs)))
  && all_have_links cs.
Proof. done. Qed.

Lemma after_eq m b t a x cs tl :
  after m (MkObj b t a x cs tl) =
  if String.eqb t (atom "entry") then
    match find_child (atom "link") 0 cs with
    | Some i =>
        match (cs !! i ≫= λ l, Soup.get "href" (attrib l)) ≫= (m !!.) with
        | Some target => MkObj b t a x (alter (set_attrib "href" target) i (after m <$> cs)) tl
        | None => MkObj false t a x (after m <$> cs) tl
        end
    | None => MkObj b t a x cs tl
    end
  else MkObj b t a x (after m <$> cs) tl.
Proof.
  done.
Qed.

Lemma linked_eq b t a x cs tl :
  linked (MkObj b t a x cs tl) =
  (negb (String.eqb t (atom "entry"))
   || bool_decide (is_Some (find_child (atom "link") 0 cs)))
  && forallb linked cs.
Proof.
  done.
Qed.

(** *** References *)

Lemma with_children_id o : with_children (children o) o = o.
Proof. by destruct o. Qed.

Lemma children_with_children cs o : children (with_children cs o) = cs.
Proof. by destruct o. Qed.

Lemma with_children_twice cs cs' o :
  with_children cs (with_children cs' o) = with_children cs o.
Proof. by destruct o. Qed.

Lemma deref_app r r' root : deref (r ++ r') root = deref r root ≫= deref r'.
Proof.
  revert root. induction r as [|i r IH]; intros root; [done|]. cbn.
  destruct (children root !! i) as [c|]; [apply IH|done].
Qed.

Lemma update_app r r' f root : update (r ++ r') f root = update r (update r' f) root.
Proof.
  revert root. induction r as [|i r IH]; intros root; [done|]. cbn.
  f_equal. by apply list_alter_ext.
Qed.

Lemma update_deref r f root o :
  deref r root = Some o → update r f root = update r (λ _, f o) root.
Proof.
  revert root. induction r as [|i r IH]; intros root H; cbn in *; [congruence|].
  f_equal. apply list_alter_ext; [|done].
  intros c Hc. rewrite Hc in H. by apply IH.
Qed.

(** *** One visit *)

Lemma visit_from_eq hp m r root :
  visit_from hp m r root =
  match deref r root with
  | None => (Raise AttributeError, root)
  | Some o =>
      match act (hp || negb (bool_decide (r = []))) m o with
      | Ok o' => (Ok tt, update r (λ _, o') root)
      | Raise e => (Raise e, root)
      end
  end.
Proof.
  unfold visit_from, find, act. HandlerFacts.run_monad. unfold try_except.
  destruct (deref r root) as [o|] eqn:Ho; [|done].
  destruct (find_child (atom "link") 0 (children o)) as [i|]; [|done].
  cbn [fmap option_fmap option_map get set].
  HandlerFacts.run_monad.
  rewrite deref_app, Ho. cbn [mbind option_bind].
  assert (deref [i] o = children o !! i) as ->.
  { cbn. by destruct (children o !! i). }
  unfold lookup_url.
  assert (∀ v : option string,
            (let (r0, s') :=
               let (r0, s') :=
                 match v with
                 | Some x => λ s : Obj, (Ok x, s)
                 | None => λ s : Obj, (Raise KeyError, s)
                 end root in
               match r0 with
               | Ok a => (Ok (), update (r ++ [i]) (set_attrib "href" a) s')
               | Raise e => (Raise e, s')
               end in
             match r0 with
             | Ok a => (Ok a, s')
             | Raise e' =>
                 if decide (e' = KeyError) is left _
                 then remove (if hp then Some [] else getparent r) r s'
                 else (Raise e', s')
             end) =
            match
              match v with
              | Some target =>
                  Ok (with_children (alter (set_attrib "href" target) i (children o)) o)
              | None =>
                  if hp || negb (bool_decide (r = []))
                  then Ok (detach o) else Raise AttributeError
              end
            with
            | Ok o' => (Ok (), update r (λ _ : Obj, o') root)
            | Raise e => (Raise e, root)
            end) as Hv.
  { intros [target|].
    - rewrite update_app. by rewrite (update_deref _ _ _ _ Ho).
    - destruct (decide (KeyError = KeyError)); [|done].
      unfold remove, getparent.
      destruct hp; cbn [orb]; HandlerFacts.run_monad.
      + by rewrite (update_deref _ _ _ _ Ho).
      + destruct r as [|j r]; [done|].
        rewrite bool_decide_eq_false_2 by done.
        by rewrite (update_deref _ _ _ _ Ho). }
  apply Hv.
Qed.

Lemma visit_is_visit_from m r : visit m r = visit_from false m r.
Proof. done. Qed.

(** A visit below the [i]-th child is a visit inside that child. *)
Lemma visit_from_cons hp m i r root c :
  children root !! i = Some c →
  visit_from hp m (i :: r) root = zoom i (visit_from true m r) root.
Proof.
  intros Hc. unfold zoom. rewrite Hc, !visit_from_eq. cbn [deref].
  rewrite Hc. cbn [mbind option_bind].
  destruct (deref r c) as [o|]; cbn [orb].
  - rewrite bool_decide_eq_false_2 by done. rewrite orb_true_r. cbn [negb].
    destruct (act true m o) as [o'|e]; cbn [fst snd update].
    + f_equal. f_equal. apply list_alter_ext; [|done]. congruence.
    + f_equal. rewrite <- list_insert_alter, list_insert_id by done.
      by rewrite with_children_id.
  - f_equal. rewrite <- list_insert_alter, list_insert_id by done.
    by rewrite with_children_id.
Qed.

(** *** The loop *)

Lemma for_each_app {S A} (l1 l2 : list A) (body : A → M S unit) s :
  for_each (l1 ++ l2) body s =
  match for_each l1 body s with
  | (Ok _, s') => for_each l2 body s'
  | (Raise e, s') => (Raise e, s')
  end.
Proof.
  revert s. induction l1 as [|x l1 IH]; intros s; [done|]. cbn. unfold bind.
  destruct (body x s) as [[[]|e] s']; [apply IH|done].
Qed.

(** The visits below the [i]-th child are a loop inside that child. *)
Lemma for_each_zoom hp m i refs root c :
  children root !! i = Some c →
  for_each (cons i <$> refs) (visit_from hp m) root =
  zoom i (for_each refs (visit_from true m)) root.
Proof.
  revert root c. induction refs as [|r refs IH]; intros root c Hc.
  - unfold zoom. rewrite Hc. cbn.
    by rewrite <- list_insert_alter, list_insert_id, with_children_id.
  - rewrite fmap_cons. cbn [for_each]. unfold bind.
    rewrite (visit_from_cons _ _ _ _ _ _ Hc). unfold zoom at 1. rewrite Hc.
    cbn zeta.
    destruct (visit_from true m r c) as [[[]|e] c'] eqn:Hv; cbn [fst snd].
    + erewrite IH; last first.
      { rewrite children_with_children, list_lookup_alter_eq, Hc. done. }
      unfold zoom. rewrite Hc, children_with_children, list_lookup_alter_eq, Hc.
      cbn [fmap option_fmap option_map for_each]. unfold bind. rewrite Hv.
      cbn zeta. f_equal.
      rewrite with_children_twice. f_equal.
      rewrite list_alter_alter_eq. by apply list_alter_ext.
    + unfold zoom. rewrite Hc. cbn [for_each]. unfold bind. by rewrite Hv.
Qed.

(** What a subtree's visits read is untouched by a change of
    attributes at its top. *)
Lemma xpath_entries_set_attrib k v o :
  xpath_entries (set_attrib k v o) = xpath_entries o.
Proof. by destruct o. Qed.

Lemma linked_set_attrib k v o : linked (set_attrib k v o) = linked o.
Proof. by destruct o. Qed.

Lemma after_set_attrib m k v o :
  after m (set_attrib k v o) = set_attrib k v (after m o).
Proof.
  destruct o as [b t a x cs tl]. cbn [set_attrib]. rewrite !after_eq.
  destruct (String.eqb t (atom "entry")); [|done].
  destruct (find_child (atom "link") 0 cs) as [i|]; [|done].
  by destruct ((cs !! i ≫= λ l, Soup.get "href" (attrib l)) ≫= (m !!.)).
Qed.

Lemma child_entries_alter_set_attrib k v i n cs :
  child_entries n (alter (set_attrib k v) i cs) = child_entries n cs.
Proof.
  revert i n. induction cs as [|c cs IH]; intros i n; [done|].
  destruct i as [|i]; cbn [alter list_alter]; rewrite !child_entries_cons.
  - by rewrite xpath_entries_set_attrib.
  - by rewrite IH.
Qed.

Lemma loop_children hp m b t a x tl pre cs :
  Forall (loop_gives_after m) cs →
  forallb linked cs = true →
  for_each (child_entries (length pre) cs) (visit_from hp m)
           (MkObj b t a x (pre ++ cs) tl) =
  (Ok tt, MkObj b t a x (pre ++ (after m <$> cs)) tl).
Proof.
  intros Hall. revert pre. induction Hall as [|c cs Hc _ IH]; intros pre Hl.
  - by rewrite !app_nil_r.
  - cbn [forallb] in Hl. apply andb_true_iff in Hl as [Hlc Hlcs].
    rewrite child_entries_cons, for_each_app.
    assert (children (MkObj b t a x (pre ++ c :: cs) tl) !! length pre = Some c) as Hi
      by apply list_lookup_middle, eq_refl.
    rewrite (for_each_zoom _ _ _ _ _ _ Hi). unfold zoom. rewrite Hi.
    rewrite (Hc Hlc). cbn [fst snd children with_children].
    assert (alter (λ _, after m c) (length pre) (pre ++ c :: cs)
            = (pre ++ [after m c]) ++ cs) as ->.
    { rewrite alter_app_r_alt by lia. rewrite Nat.sub_diag. cbn.
      by rewrite <- app_assoc. }
    specialize (IH (pre ++ [after m c]) Hlcs).
    rewrite length_app, Nat.add_1_r in IH. cbn [length] in IH.
    rewrite IH. by rewrite <- app_assoc.
Qed.

Lemma forallb_linked_alter_set_attrib k v i cs :
  forallb linked (alter (set_attrib k v) i cs) = forallb linked cs.
Proof.
  revert i. induction cs as [|c cs IH]; intros i; [done|].
  destruct i as [|i]; cbn [alter list_alter forallb].
  - by rewrite linked_set_attrib.
  - by rewrite IH.
Qed.

Lemma loop_children_0 hp m b t a x tl cs :
  Forall (loop_gives_after m) cs →
  forallb linked cs = true →
  for_each (child_entries 0 cs) (visit_from hp m) (MkObj b t a x cs tl) =
  (Ok tt, MkObj b t a x (after m <$> cs) tl).
Proof. apply (loop_children hp m b t a x tl []). Qed.

Lemma find_child_lookup t n cs i :
  find_child t n cs = Some i →
  n ≤ i ∧ ∃ c, cs !! (i - n) = Some c ∧ attached c = true ∧ tag c = t.
Proof.
  revert n. induction cs as [|c cs IH]; intros n H; [done|]. cbn in H.
  destruct (attached c && String.eqb (tag c) t) eqn:E.
  - injection H as <-. split; [done|]. rewrite Nat.sub_diag. exists c.
    apply andb_true_iff in E as [? E]. by apply String.eqb_eq in E.
  - destruct (IH _ H) as (Hle & c' & Hc & Ha). split; [lia|].
    exists c'. split; [|done]. by replace (i - n) with (S (i - S n)) by lia.
Qed.

(** The loop leaves every object as [after] says, whatever flag and
    attributes the object has at its top when the loop reaches it. *)
Lemma loop_obj m o :
  ∀ b a x tl, loop_gives_after m (MkObj b (tag o) a x (children o) tl).
Proof.
  induction o as [b0 t a0 x0 cs tl0 IH] using Obj_ind. cbn [tag children].
  intros b a x tl Hl. rewrite linked_eq in Hl.
  apply andb_true_iff in Hl as [Hlink Hlcs].
  assert (Forall (loop_gives_after m) cs) as Hcs.
  { eapply Forall_impl; [exact IH|]. intros [cb ct ca cx ccs ctl] Hc. apply Hc. }
  rewrite xpath_entries_eq, after_eq. cbn [tag children].
  destruct (String.eqb t (atom "entry")) eqn:Et; cbn [app].
  - cbn [negb orb] in Hlink. apply bool_decide_eq_true in Hlink as [i Hi].
    cbn [for_each]. unfold bind. rewrite visit_from_eq. cbn [deref].
    unfold act. cbn [children orb]. rewrite Hi.
    destruct ((cs !! i ≫= λ l, Soup.get "href" (attrib l)) ≫= (m !!.))
      as [target|] eqn:Etarget.
    + cbn [update with_children].
      rewrite <- (child_entries_alter_set_attrib "href" target i 0 cs).
      rewrite loop_children_0.
      * f_equal. f_equal. apply list_fmap_alter, Forall_forall.
        intros c _. apply after_set_attrib.
      * apply Forall_alter; [done|].
        intros [cb ct ca cx ccs ctl] Hc _ Hlc. cbn [set_attrib] in *.
        eapply Forall_lookup_1 in IH; [|exact Hc].
        by apply (IH cb (set_attr "href" target ca) cx ctl).
      * by rewrite forallb_linked_alter_set_attrib.
    + cbn [update detach].
      by rewrite (loop_children_0 true m false t a x tl cs Hcs Hlcs).
  - by rewrite (loop_children_0 true m b t a x tl cs Hcs Hlcs).
Qed.

(** The loop of [main] on a document whose root is not an entry and
    whose entries all have links. *)
Lemma filter_entries_after m b t a x cs tl :
  String.eqb t (atom "entry") = false →
  forallb linked cs = true →
  filter_entries m (MkObj b t a x cs tl) =
  (Ok tt, MkObj b t a x (after m <$> cs) tl).
Proof.
  intros Ht Hl. unfold filter_entries. HandlerFacts.run_monad.
  rewrite xpath_entries_eq. cbn [tag children]. rewrite Ht. cbn [app].
  change (visit m) with (visit_from false m).
  apply loop_children_0; [|done].
  apply Forall_forall. intros [cb ct ca cx ccs ctl] _.
  apply (loop_obj m (MkObj cb ct ca cx ccs ctl)).
Qed.

(** *** An entry without a link *)

Lemma loop_children_raises hp m b t a x tl pre cs :
  Forall (loop_gives_after m) cs →
  Forall (loop_raises m) cs →
  forallb linked cs = false →
  (for_each (child_entries (length pre) cs) (visit_from hp m)
            (MkObj b t a x (pre ++ cs) tl)).1 = Raise AttributeError.
Proof.
  intros Hok Hall. revert pre Hok.
  induction Hall as [|c cs Hc _ IH]; intros pre Hok Hl; [done|].
  apply Forall_cons in Hok as [Hokc Hokcs].
  rewrite child_entries_cons, for_each_app.
  assert (children (MkObj b t a x (pre ++ c :: cs) tl) !! length pre = Some c) as Hi
    by apply list_lookup_middle, eq_refl.
  rewrite (for_each_zoom _ _ _ _ _ _ Hi). unfold zoom. rewrite Hi.
  cbn [forallb] in Hl. destruct (linked c) eqn:Hlc.
  - rewrite (Hokc Hlc). cbn [fst snd children with_children].
    assert (alter (λ _, after m c) (length pre) (pre ++ c :: cs)
            = (pre ++ [after m c]) ++ cs) as ->.
    { rewrite alter_app_r_alt by lia. rewrite Nat.sub_diag. cbn.
      by rewrite <- app_assoc. }
    specialize (IH (pre ++ [after m c]) Hokcs Hl).
    rewrite length_app, Nat.add_1_r in IH. apply IH.
  - specialize (Hc Hlc).
    destruct (for_each (xpath_entries c) (visit_from true m) c) as [[[]|e] c'];
      cbn in *; congruence.
Qed.

Lemma loop_obj_raises m o :
  ∀ b a x tl, loop_raises m (MkObj b (tag o) a x (children o) tl).
Proof.
  induction o as [b0 t a0 x0 cs tl0 IH] using Obj_ind. cbn [tag children].
  intros b a x tl Hl. rewrite linked_eq in Hl.
  assert (Forall (loop_gives_after m) cs) as Hok.
  { apply Forall_forall. intros [cb ct ca cx ccs ctl] _.
    apply (loop_obj m (MkObj cb ct ca cx ccs ctl)). }
  assert (Forall (loop_raises m) cs) as Hcs.
  { eapply Forall_impl; [exact IH|]. intros [cb ct ca cx ccs ctl] Hc. apply Hc. }
  rewrite xpath_entries_eq. cbn [tag children].
  destruct (String.eqb t (atom "entry")) eqn:Et; cbn [app negb orb] in *.
  - cbn [for_each]. unfold bind. rewrite visit_from_eq. cbn [deref].
    unfold act. cbn [children orb].
    destruct (find_child (atom "link") 0 cs) as [i|] eqn:Hi; [|done].
    rewrite bool_decide_eq_true_2 in Hl by eauto. cbn [andb] in Hl.
    destruct ((cs !! i ≫= λ l, Soup.get "href" (attrib l)) ≫= (m !!.))
      as [target|].
    + cbn [update with_children].
      rewrite <- (child_entries_alter_set_attrib "href" target i 0 cs).
      apply (loop_children_raises true m b t a x tl []).
      * apply Forall_forall. intros [cb ct ca cx ccs ctl] _.
        apply (loop_obj m (MkObj cb ct ca cx ccs ctl)).
      * apply Forall_alter; [done|].
        intros [cb ct ca cx ccs ctl] Hc _. cbn [set_attrib].
        eapply Forall_lookup_1 in IH; [|exact Hc].
        apply (IH cb (set_attr "href" target ca) cx ctl).
      * by rewrite forallb_linked_alter_set_attrib.
    + cbn [update detach].
      by apply (loop_children_raises true m false t a x tl []).
  - by apply (loop_children_raises true m b t a x tl []).
Qed.

(** *** From objects back to documents *)

Lemma tag_load e : tag (load e) = e_tag e.
Proof. by destruct e. Qed.

Lemma attrib_load e : attrib (load e) = e_attrib e.
Proof. by destruct e. Qed.

Lemma attached_load e : attached (load e) = true.
Proof. by destruct e. Qed.

Lemma tag_after m o : tag (after m o) = tag o.
Proof.
  destruct o as [b t a x cs tl]. rewrite after_eq. cbn [tag].
  destruct (String.eqb t (atom "entry")); [|done].
  destruct (find_child (atom "link") 0 cs) as [i|]; [|done].
  by destruct ((cs !! i ≫= λ l, Soup.get "href" (attrib l)) ≫= (m !!.)).
Qed.

Lemma attached_after_other m o :
  String.eqb (tag o) (atom "entry") = false → attached (after m o) = attached o.
Proof.
  destruct o as [b t a x cs tl]. rewrite after_eq. cbn [tag]. by intros ->.
Qed.

Lemma atom_link_not_entry : String.eqb (atom "link") (atom "entry") = false.
Proof. reflexivity. Qed.

(** The loop leaves the link a visit finds where it was. *)
Lemma find_child_after m n cs :
  find_child (atom "link") n (after m <$> cs) = find_child (atom "link") n cs.
Proof.
  revert n. induction cs as [|c cs IH]; intros n; [done|].
  rewrite fmap_cons. cbn [find_child]. rewrite tag_after, IH.
  destruct (String.eqb_spec (tag c) (atom "link")) as [Ht|Ht].
  - rewrite attached_after_other; [done|]. rewrite Ht. apply atom_link_not_entry.
  - by rewrite !andb_false_r.
Qed.

(** The first link among freshly loaded children is the first link
    child of the element. *)
Lemma find_child_load n (cs : list Element) :
  match find_child (atom "link") n (load <$> cs) with
  | Some i => n ≤ i ∧ ∃ l, List.find is_link cs = Some l ∧
                           (load <$> cs) !! (i - n) = Some (load l)
  | None => List.find is_link cs = None
  end.
Proof.
  revert n. induction cs as [|c cs IH]; intros n; [done|].
  rewrite fmap_cons. cbn [find_child List.find].
  rewrite attached_load, tag_load. cbn [andb]. unfold is_link at 1 3.
  destruct (String.eqb (e_tag c) (atom "link")).
  - split; [done|]. exists c. by rewrite Nat.sub_diag.
  - specialize (IH (S n)).
    destruct (find_child (atom "link") (S n) (load <$> cs)) as [i|]; [|done].
    destruct IH as (Hle & l & Hl & Hi). split; [lia|]. exists l. split; [done|].
    by replace (i - n) with (S (i - S n)) by lia.
Qed.

Lemma linked_load e : linked (load e) = entries_have_links e.
Proof.
  induction e as [t a x cs tl IH] using Element_ind.
  rewrite load_eq, linked_eq, entries_have_links_eq. f_equal.
  - f_equal. pose proof (find_child_load 0 cs) as H.
    destruct (find_child (atom "link") 0 (load <$> cs)) as [i|].
    + destruct H as (_ & l & -> & _).
      rewrite !bool_decide_eq_true_2; [done|by eexists|by eexists].
    + rewrite H. rewrite !bool_decide_eq_false_2; [done| |]; by intros [? ?].
  - induction IH as [|c cs Hc _ IHcs]; [done|].
    rewrite fmap_cons. cbn [forallb]. by rewrite Hc, IHcs.
Qed.

Lemma dump_set_attrib target o :
  dump (set_attrib "href" target o) = with_href target (dump o).
Proof. by destruct o. Qed.

Lemma e_tag_dump o : e_tag (dump o) = tag o.
Proof. by destruct o. Qed.

Lemma attached_set_attrib k v o : attached (set_attrib k v o) = attached o.
Proof. by destruct o. Qed.

(** Rewriting the link the visit found is rewriting the first link of
    the document's children. *)
Lemma dump_children_alter target n i os :
  find_child (atom "link") n os = Some i →
  dump_children (alter (set_attrib "href" target) (i - n) os) =
  rewrite_first_link target (dump_children os).
Proof.
  revert n. induction os as [|c os IH]; intros n H; [done|]. cbn [find_child] in H.
  destruct (attached c && String.eqb (tag c) (atom "link")) eqn:E.
  - injection H as <-. rewrite Nat.sub_diag. cbn [alter list_alter].
    apply andb_true_iff in E as [Ha Ht].
    change (dump_children (?c :: ?os)) with
      (if attached c then dump c :: dump_children os else dump_children os).
    rewrite attached_set_attrib, Ha. cbn [rewrite_first_link].
    unfold is_link. by rewrite e_tag_dump, Ht, dump_set_attrib.
  - pose proof (find_child_lookup _ _ _ _ H) as [Hle _].
    replace (i - n) with (S (i - S n)) by lia. cbn [alter list_alter].
    change (dump_children (?c :: ?os)) with
      (if attached c then dump c :: dump_children os else dump_children os).
    rewrite (IH _ H).
    destruct (attached c); [|done]. cbn [andb] in E. cbn [rewrite_first_link].
    unfold is_link. by rewrite e_tag_dump, E.
Qed.

Lemma dump_children_after m (cs : list Element) :
  Forall (λ c, entries_have_links c = true → left_as m c (after m (load c))) cs →
  all_have_links cs = true →
  dump_children (after m <$> (load <$> cs)) = spec_children m cs.
Proof.
  induction 1 as [|c cs Hc _ IH]; intros Hl; [done|].
  change (all_have_links (c :: cs)) with (entries_have_links c && all_have_links cs) in Hl.
  apply andb_true_iff in Hl as [Hlc Hlcs].
  rewrite !fmap_cons.
  change (dump_children (?c :: ?os)) with
    (if attached c then dump c :: dump_children os else dump_children os).
  change (spec_children m (c :: cs)) with
    (if is_entry c then
       match entry_href c ≫= (m !!.) with
       | Some target => rewrite_entry target (spec_filter m c) :: spec_children m cs
       | None => spec_children m cs
       end
     else spec_filter m c :: spec_children m cs).
  specialize (Hc Hlc). unfold left_as in Hc. rewrite (IH Hlcs).
  destruct (is_entry c).
  - destruct (entry_href c ≫= (m !!.)) as [target|].
    + destruct Hc as [-> ->]. done.
    + by rewrite Hc.
  - by destruct Hc as [-> ->].
Qed.

(** Every element of a document whose entries have links is left by
    the loop as the spec's walk says. *)
Lemma after_load m e :
  entries_have_links e = true → left_as m e (after m (load e)).
Proof.
  induction e as [t a x cs tl IH] using Element_ind. intros Hl.
  pose proof Hl as Hl'. rewrite entries_have_links_eq in Hl'.
  apply andb_true_iff in Hl' as [Hlink Hlcs].
  pose proof (dump_children_after m cs IH Hlcs) as Hd.
  unfold left_as, is_entry. cbn [e_tag].
  rewrite load_eq, after_eq, spec_filter_eq.
  destruct (String.eqb t (atom "entry")) eqn:Et.
  - cbn [negb orb] in Hlink. apply bool_decide_eq_true in Hlink as [l Hfind].
    pose proof (find_child_load 0 cs) as Hf.
    destruct (find_child (atom "link") 0 (load <$> cs)) as [i|] eqn:Ei;
      [|congruence].
    destruct Hf as (_ & l' & Hl' & Hi). rewrite Nat.sub_0_r in Hi.
    assert (l' = l) as -> by congruence.
    unfold entry_href, entry_link. cbn [e_children]. rewrite Hfind, Hi.
    cbn [mbind option_bind]. rewrite attrib_load.
    destruct (Soup.get "href" (e_attrib l) ≫= (m !!.)) as [target|]; [|done].
    split; [done|]. rewrite dump_eq. cbn [rewrite_entry]. f_equal.
    rewrite <- Hd.
    rewrite <- (find_child_after m) in Ei.
    pose proof (dump_children_alter target 0 i _ Ei) as Ha.
    by rewrite Nat.sub_0_r in Ha.
  - split; [done|]. rewrite dump_eq. by rewrite Hd.
Qed.

(** On a document whose root is not an entry and whose entries all
    have links, the loop of [main] returns the spec's walk. *)
Lemma feed_filter_spec_filter m doc :
  is_entry doc = false →
  entries_have_links doc = true →
  feed_filter m doc = Ok (spec_filter m doc).
Proof.
  destruct doc as [t a x cs tl]. unfold is_entry. cbn [e_tag]. intros Ht Hl.
  rewrite entries_have_links_eq in Hl. apply andb_true_iff in Hl as [_ Hlcs].
  unfold feed_filter. rewrite load_eq, filter_entries_after; [|done|].
  - rewrite dump_eq, spec_filter_eq. f_equal. f_equal.
    apply dump_children_after; [|done].
    apply Forall_forall. intros c _. apply after_load.
  - clear -Hlcs. induction cs as [|c cs IH]; [done|].
    change (all_have_links (c :: cs)) with (entries_have_links c && all_have_links cs) in Hlcs.
    apply andb_true_iff in Hlcs as [Hc Hcs].
    rewrite fmap_cons. cbn [forallb]. by rewrite linked_load, Hc, IH.
Qed.

Lemma forallb_linked_load cs :
  forallb linked (load <$> cs) = all_have_links cs.
Proof.
  induction cs as [|c cs IH]; [done|].
  change (all_have_links (c :: cs)) with (entries_have_links c && all_have_links cs).
  rewrite fmap_cons. cbn [forallb]. by rewrite linked_load, IH.
Qed.

(** On a document whose root is not an entry and in which some entry
    has no link, the loop of [main] raises [AttributeError]. *)
Lemma feed_filter_raises m doc :
  is_entry doc = false →
  entries_have_links doc = false →
  feed_filter m doc = Raise AttributeError.
Proof.
  destruct doc as [t a x cs tl]. unfold is_entry. cbn [e_tag]. intros Ht Hl.
  rewrite entries_have_links_eq, Ht in Hl. cbn [negb orb andb] in Hl.
  unfold feed_filter, filter_entries. HandlerFacts.run_monad.
  rewrite load_eq, xpath_entries_eq. cbn [tag children]. rewrite Ht. cbn [app].
  change (visit m) with (visit_from false m).
  pose proof (loop_children_raises false m true t a x tl [] (load <$> cs)) as H.
  cbn [length app] in H.
  assert (Forall (loop_gives_after m) (load <$> cs)) as H1.
  { apply Forall_forall. intros [cb ct ca cx ccs ctl] _.
    apply (loop_obj m (MkObj cb ct ca cx ccs ctl)). }
  assert (Forall (loop_raises m) (load <$> cs)) as H2.
  { apply Forall_forall. intros [cb ct ca cx ccs ctl] _.
    apply (loop_obj_raises m (MkObj cb ct ca cx ccs ctl)). }
  assert (forallb linked (load <$> cs) = false) as H3
    by by rewrite forallb_linked_load.
  specialize (H H1 H2 H3).
  destruct (for_each _ _ _) as [[[]|e] o]; cbn in H; [done|]. congruence.
Qed.

(** The feed filter on a document whose root is not an entry. *)
Lemma feed_filter_eq m doc :
  is_entry doc = false →
  feed_filter m doc =
  if entries_have_links doc then Ok (spec_filter m doc) else Raise AttributeError.
Proof.
  intros Ht. destruct (entries_have_links doc) eqn:Hl.
  - by apply feed_filter_spec_filter.
  - by apply feed_filter_raises.
Qed.

(** *** Entries that are not nested *)

Lemma entries_of_eq t a x cs tl :
  entries_of (Node t a x cs tl) =
  (if String.eqb t (atom "entry") then [Node t a x cs tl] else []) ++ entries_of_list cs.
Proof. done. Qed.

Lemma entries_of_list_cons c cs :
  entries_of_list (c :: cs) = entries_of c ++ entries_of_list cs.
Proof. done. Qed.

Lemma spec_children_cons m c cs :
  spec_children m (c :: cs) =
  if is_entry c then
    match entry_href c ≫= (m !!.) with
    | Some target => rewrite_entry target (spec_filter m c) :: spec_children m cs
    | None => spec_children m cs
    end
  else spec_filter m c :: spec_children m cs.
Proof. done. Qed.

(** Where there is no entry the walk changes nothing and finds
    nothing. *)
Lemma has_entry_is_entry e : has_entry e = false → is_entry e = false.
Proof.
  destruct e as [t a x cs tl]. cbn [has_entry]. intros H.
  by apply orb_false_iff in H as [? _].
Qed.

Lemma no_entry e :
  has_entry e = false → ∀ m, spec_filter m e = e ∧ entries_of e = [].
Proof.
  induction e as [t a x cs tl IH] using Element_ind. cbn [has_entry].
  intros H m. apply orb_false_iff in H as [Ht Hcs].
  rewrite spec_filter_eq, entries_of_eq, Ht. cbn [app].
  enough (spec_children m cs = cs ∧ entries_of_list cs = []) as [-> ->] by done.
  induction IH as [|c cs Hc _ IHcs]; [done|].
  cbn [existsb] in Hcs. apply orb_false_iff in Hcs as [Hhc Hhcs].
  destruct (Hc Hhc m) as [Hs He]. destruct (IHcs Hhcs) as [Hs' He'].
  rewrite spec_children_cons, entries_of_list_cons, Hs, He, Hs', He'.
  by rewrite (has_entry_is_entry _ Hhc).
Qed.

Lemma no_entries cs :
  existsb has_entry cs = false →
  ∀ m, spec_children m cs = cs ∧ entries_of_list cs = [].
Proof.
  induction cs as [|c cs IH]; intros H m; [done|].
  cbn [existsb] in H. apply orb_false_iff in H as [Hc Hcs].
  destruct (no_entry c Hc m) as [Hs He]. destruct (IH Hcs m) as [Hs' He'].
  rewrite spec_children_cons, entries_of_list_cons, Hs, He, Hs', He'.
  by rewrite (has_entry_is_entry _ Hc).
Qed.

Lemma has_entry_with_href target l : has_entry (with_href target l) = has_entry l.
Proof. by destruct l. Qed.

Lemma existsb_has_entry_rewrite target cs :
  existsb has_entry (rewrite_first_link target cs) = existsb has_entry cs.
Proof.
  induction cs as [|c cs IH]; [done|]. cbn [rewrite_first_link].
  destruct (is_link c); cbn [existsb].
  - by rewrite has_entry_with_href.
  - by rewrite IH.
Qed.

(** A kept entry that holds no entry is, in the output, one entry. *)
Lemma entries_of_rewrite_entry target e :
  is_entry e = true →
  existsb has_entry (e_children e) = false →
  entries_of (rewrite_entry target e) = [rewrite_entry target e].
Proof.
  destruct e as [t a x cs tl]. unfold is_entry. cbn [e_tag e_children rewrite_entry].
  intros Ht Hcs. rewrite entries_of_eq, Ht.
  rewrite <- (existsb_has_entry_rewrite target) in Hcs.
  destruct (no_entries _ Hcs ∅) as [_ ->]. done.
Qed.

Lemma entries_spec_children m cs :
  Forall (λ c, entries_not_nested c = true → is_entry c = false →
               entries_of (spec_filter m c) = omap (keep m) (entries_of c)) cs →
  forallb entries_not_nested cs = true →
  entries_of_list (spec_children m cs) = omap (keep m) (entries_of_list cs).
Proof.
  induction 1 as [|c cs Hc _ IH]; intros Hn; [done|].
  cbn [forallb] in Hn. apply andb_true_iff in Hn as [Hnc Hncs].
  rewrite spec_children_cons, entries_of_list_cons, omap_app, <- (IH Hncs).
  destruct (is_entry c) eqn:Ec.
  - destruct c as [t a x ccs tl]. unfold is_entry in Ec. cbn [e_tag] in Ec.
    cbn [entries_not_nested] in Hnc. rewrite Ec in Hnc. cbn [negb orb] in Hnc.
    apply andb_true_iff in Hnc as [Hno _]. apply negb_true_iff in Hno.
    destruct (no_entries _ Hno m) as [Hs He].
    rewrite spec_filter_eq, Hs, entries_of_eq, Ec, He. cbn [app omap list_omap].
    unfold keep at 1.
    destruct (entry_href (Node t a x ccs tl) ≫= (m !!.)) as [target|];
      cbn [fmap option_fmap option_map]; [|done].
    rewrite entries_of_list_cons, entries_of_rewrite_entry; [done| |done].
    unfold is_entry. by cbn [e_tag].
  - rewrite entries_of_list_cons. by rewrite (Hc Hnc eq_refl).
Qed.

(** With no entry inside another, the entries of the filtered
    document are the kept entries of the input, in their order. *)
Lemma entries_spec_filter m e :
  entries_not_nested e = true →
  is_entry e = false →
  entries_of (spec_filter m e) = omap (keep m) (entries_of e).
Proof.
  induction e as [t a x cs tl IH] using Element_ind.
  unfold is_entry. cbn [e_tag entries_not_nested]. intros Hn Ht.
  apply andb_true_iff in Hn as [_ Hn].
  rewrite spec_filter_eq, !entries_of_eq, Ht. cbn [app].
  by apply entries_spec_children.
Qed.

(** *** The frame of a rewritten entry *)

Lemma get_set_attr_ne key k v a :
  key ≠ k → Soup.get key (set_attr k v a) = Soup.get key a.
Proof.
  intros Hne. induction a as [|[k' v'] a IH]; cbn.
  - destruct (String.eqb_spec k key); [congruence|done].
  - destruct (String.eqb_spec k' k) as [->|Hk]; cbn.
    + destruct (String.eqb_spec k key); [congruence|done].
    + by rewrite IH.
Qed.

Lemma same_but_href_with_href target l : same_but_href l (with_href target l).
Proof.
  destruct l as [t a x cs tl]. repeat split; try done.
  intros key Hk. cbn. by rewrite get_set_attr_ne.
Qed.

Lemma rewrite_first_link_find target cs l :
  List.find is_link cs = Some l →
  ∃ pre post, cs = pre ++ l :: post ∧
              rewrite_first_link target cs = pre ++ with_href target l :: post.
Proof.
  induction cs as [|c cs IH]; intros H; [done|]. cbn in H |- *.
  destruct (is_link c).
  - injection H as ->. by exists [], cs.
  - destruct (IH H) as (pre & post & -> & ->). by exists (c :: pre), post.
Qed.

Lemma same_but_link_href_rewrite target e l :
  entry_link e = Some l → same_but_link_href e (rewrite_entry target e).
Proof.
  destruct e as [t a x cs tl]. unfold entry_link. cbn [e_children]. intros Hl.
  destruct (rewrite_first_link_find target cs l Hl) as (pre & post & Hcs & Hrw).
  repeat split; try done.
  exists pre, l, (with_href target l), post. cbn [e_children rewrite_entry].
  split; [done|]. split; [done|]. split; [done|]. apply same_but_href_with_href.
Qed.

(** The kept entries, against what the walk makes of them. *)
Lemma kept_entries_framed m (l : list Element) :
  Forall2 same_but_link_href
          (filter (λ e, is_Some (entry_href e ≫= (m !!.))) l)
          (omap (keep m) l).
Proof.
  induction l as [|e l IH]; [constructor|].
  rewrite filter_cons. cbn [omap list_omap]. unfold keep at 1.
  destruct (entry_href e ≫= (m !!.)) as [target|] eqn:Et;
    cbn [fmap option_fmap option_map].
  - rewrite decide_True by eauto. constructor; [|done].
    unfold entry_href in Et.
    destruct (entry_link e) as [lk|] eqn:El; [|done].
    by eapply same_but_link_href_rewrite.
  - rewrite decide_False; [done|]. by intros [? ?].
Qed.

End EtreeFacts.

(** * The claims *)

Import Handler Views Crawler App HandlerFacts CrawlerFacts AppFacts.

(** Membership in a list that is written out. *)
Ltac solve_elem :=
  repeat first [ apply list_elem_of_here | apply list_elem_of_further ].

(** The fetches of [u] in a run: [k] for each task for [u], when every
    such task made [k] attempts. *)
Lemma filter_replicate_eq (u : string) k :
  filter (.= u) (replicate k u) = replicate k u.
Proof.
  induction k as [|k IH]; [done|].
  rewrite replicate_S, filter_cons_True by done. by rewrite IH.
Qed.

Lemma filter_replicate_ne (u v : string) k :
  v ≠ u → filter (.= u) (replicate k v) = [].
Proof.
  intros Hne. induction k as [|k IH]; [done|].
  by rewrite replicate_S, filter_cons_False.
Qed.

Lemma fetches_count u k (ts : list Task) :
  Forall (λ t, url t = u → attempt_count t = k) ts →
  length (filter (.= u) (mjoin (fetches_of <$> ts))) =
  k * length (filter (.= u) (url <$> ts)).
Proof.
  induction 1 as [|t ts Ht _ IH]; [cbn; lia|].
  rewrite !fmap_cons.
  change (mjoin (fetches_of t :: (fetches_of <$> ts)))
    with (fetches_of t ++ mjoin (fetches_of <$> ts)).
  rewrite filter_app, length_app, IH.
  unfold fetches_of at 1.
  destruct (decide (url t = u)) as [Hu|Hu].
  - rewrite filter_cons_True by done. rewrite (Ht Hu), Hu.
    rewrite filter_replicate_eq, length_replicate. cbn. lia.
  - rewrite filter_cons_False by done. rewrite filter_replicate_ne by done.
    cbn. lia.
Qed.

(** At the end of a run the tasks are the finished ones. *)
Lemma run_tasks_finished web schedule cfg links :
  let final := run web schedule cfg links in
  tasks final = (finished final).*1.
Proof. cbn zeta. unfold tasks. by rewrite run_queue. Qed.

Lemma run_handled (env : Env) proxy debug links fuel :
  Forall (λ ft : Task * Terminal,
            ∀ items, ft.2 = Handled items →
              items = [] ∨
              ∃ v, items = [{| reddit_url := url ft.1; article_url := v |}] ∧
                   accepted_page env (url ft.1) v)
         (finished (run_cycles (web env) (schedule env) (crawler env proxy debug)
                               fuel (initial links))).
Proof.
  apply (task_invariant _ _ _ (λ _, True)); [done|].
  intros n task st _. unfold Views.advance. cbn -[Nat.ltb].
  destruct (attempt (web env) (crawler env proxy debug) n task st).1
    as [why|τ] eqn:Ha.
  - destruct (S (attempt_count task) <? _); [done|]. by intros items [=].
  - cbn. intros items ->.
    apply attempt_handled in Ha as (status & page & Hw & Hs & [->|(Hf & v & Hv & ->)]);
      [by left|].
    right. exists v. split; [done|]. by exists n, status, page.
Qed.

(** Every pair of the mapping comes from a page that was served with a
    success status and accepted by the handler. *)
Lemma collect_accepted (env : Env) proxy debug links k v :
  collect (get_dataset (run (web env) (schedule env) (crawler env proxy debug) links)) !! k
    = Some v →
  accepted_page env k v.
Proof.
  intros Hk. apply collect_lookup in Hk. unfold get_dataset in Hk.
  pose proof (run_dataset (web env) (schedule env) _ (crawler_appends env proxy debug)
                links (length links * budget (crawler env proxy debug))) as [Hd _].
  pose proof (run_handled env proxy debug links
                (length links * budget (crawler env proxy debug))) as Hh.
  cbn zeta in Hd.
  fold (run (web env) (schedule env) (crawler env proxy debug) links) in Hd, Hh.
  rewrite Hd in Hk.
  apply list_elem_of_join in Hk as (items & Hk & Hitems).
  apply list_elem_of_fmap in Hitems as ([task τ] & -> & Hft).
  rewrite Forall_forall in Hh. pose proof (Hh _ Hft) as Ho. cbn in Ho.
  unfold pushed_by in Hk. cbn in Hk.
  destruct τ as [items|?|?]; try by apply elem_of_nil in Hk.
  destruct (Ho items eq_refl) as [->|(v' & -> & Hacc)]; [by apply elem_of_nil in Hk|].
  apply list_elem_of_singleton in Hk. by injection Hk as -> ->.
Qed.

(** C1.  Every key of the mapping [scrape] returns is one of the links
    parsed from the feed, and every entry of the mapping is the one
    article pushed by a task for that link that was handled on a page
    served with a success status, bearing the news flair and that
    article link.  A task that was dropped (fatal status, retries
    exhausted) or handled without a push puts nothing in the mapping. *)
Theorem C1_mapping_keys_come_from_accepted_links
    (env : Env) feed_url debug w rss (url_mapping : gmap string string) w' :
  scrape env feed_url debug w = (Ok (rss, url_mapping), w') →
  ∃ links proxy,
    entry_links (feed_entries env rss) = Ok links ∧
    proxy_configuration env = Ok proxy ∧
    let final := run (web env) (schedule env) (crawler env proxy debug) links in
    ∀ k v, url_mapping !! k = Some v →
      k ∈ links ∧
      accepted_page env k v ∧
      ∃ task,
        url task = k ∧
        (task, Handled [{| reddit_url := k; article_url := v |}]) ∈ finished final.
Proof.
  intros Hs.
  destruct (scrape_cases env feed_url debug w) as [(e & w0 & He)|H]; [congruence|].
  destruct H as (status & rss' & links & proxy & _ & _ & Hl & Hp & He).
  cbn zeta in He. rewrite He in Hs. injection Hs as <- <- <-.
  exists links, proxy. split; [done|]. split; [done|]. intros final k v Hk.
  subst final.
  apply collect_lookup in Hk. unfold get_dataset in Hk.
  pose proof (run_dataset (web env) (schedule env) _ (crawler_appends env proxy debug)
                links (length links * budget (crawler env proxy debug))) as [Hd _].
  pose proof (run_handled env proxy debug links
                (length links * budget (crawler env proxy debug))) as Hh.
  cbn zeta in Hd.
  fold (run (web env) (schedule env) (crawler env proxy debug) links) in Hd, Hh.
  rewrite Hd in Hk.
  apply list_elem_of_join in Hk as (items & Hk & Hitems).
  apply list_elem_of_fmap in Hitems as ([task τ] & -> & Hft).
  rewrite Forall_forall in Hh. pose proof (Hh _ Hft) as Ho. cbn in Ho.
  unfold pushed_by in Hk. cbn in Hk.
  destruct τ as [items|?|?]; try by apply elem_of_nil in Hk.
  destruct (Ho items eq_refl) as [->|(v' & -> & Hacc)]; [by apply elem_of_nil in Hk|].
  apply list_elem_of_singleton in Hk. injection Hk as -> ->.
  assert (url task ∈ links) as Hin.
  { rewrite <- (run_tasks (web env) (schedule env) (crawler env proxy debug) links
                  (length links * budget (crawler env proxy debug))).
    fold (run (web env) (schedule env) (crawler env proxy debug) links).
    rewrite run_tasks_finished. apply list_elem_of_fmap. exists task. split; [done|].
    apply list_elem_of_fmap. by eexists (task, _). }
  split; [done|]. split; [done|]. by exists task.
Qed.

Lemma C1_witness :
  scrape (Sample.env false) "ABC" false Sample.world0 =
  (Ok ("ABC", {["A" := "https://x.example/story"]}),
   {| files := ∅; requests := ["ABC"; "A"; "C"; "B"] |}) ∧
  ∃ links proxy,
    entry_links (feed_entries (Sample.env false) "ABC") = Ok links ∧
    proxy_configuration (Sample.env false) = Ok proxy ∧
    let final := run (web (Sample.env false)) (schedule (Sample.env false))
                     (crawler (Sample.env false) proxy false) links in
    ∀ k v, ({["A" := "https://x.example/story"]} : gmap string string) !! k = Some v →
      k ∈ links ∧
      accepted_page (Sample.env false) k v ∧
      ∃ task,
        url task = k ∧
        (task, Handled [{| reddit_url := k; article_url := v |}]) ∈ finished final.
Proof.
  assert (scrape (Sample.env false) "ABC" false Sample.world0 =
          (Ok ("ABC", {["A" := "https://x.example/story"]}),
           {| files := ∅; requests := ["ABC"; "A"; "C"; "B"] |})) as H
    by (vm_compute; reflexivity).
  split; [exact H|].
  exact (C1_mapping_keys_come_from_accepted_links _ _ _ _ _ _ _ H).
Defined.

(** C9.  Extraction is a function of the page and the source URL alone:
    two runs of the handler on the same page for the same URL end the
    same way and push the same articles, whatever proxy the page came
    through and whatever the log and the dataset held before. *)
Theorem C9_extraction_is_deterministic
    (pq : string → gmap string (list string)) (c1 c2 : Context) (st1 st2 : Store) :
  soup c1 = soup c2 →
  request_url c1 = request_url c2 →
  outcome pq c1 st1 = outcome pq c2 st2.
Proof.
  intros Hsoup Hurl. unfold outcome. rewrite !default_handler_eq. cbn zeta.
  rewrite Hsoup, Hurl.
  destruct (flair_of pq (soup c2)) as [f|e]; cbn.
  - destruct (negb (String.eqb f news_flair)); cbn.
    + by rewrite !drop_ge.
    + destruct (article_of (soup c2)) as [v|e]; cbn.
      * by rewrite !drop_app_length.
      * by rewrite !drop_ge.
  - by rewrite !drop_ge.
Qed.

Lemma C9_witness :
  let c1 := {| request_url := "A"; proxy_info := None; soup := Sample.page_A |} in
  let c2 := {| request_url := "A"; proxy_info := Some "proxy-7"; soup := Sample.page_A |} in
  let st1 := {| log := []; dataset := [] |} in
  let st2 := {| log := [NotNewsLog "B"];
                dataset := [{| reddit_url := "Z"; article_url := "z" |}] |} in
  soup c1 = soup c2 ∧ request_url c1 = request_url c2 ∧
  outcome Sample.parse_qs c1 st1 = outcome Sample.parse_qs c2 st2.
Proof.
  cbn zeta. split; [reflexivity|]. split; [reflexivity|].
  apply C9_extraction_is_deterministic; reflexivity.
Defined.

(** C7.  When the GET of the feed fails, by a transport error or by an
    error status, [main] raises that error, the only request of the run
    is the one for the feed, and no file is written. *)
Theorem C7_feed_fetch_failure_aborts_the_run
    (env : Env) feed_url output_path debug (w : World) :
  (feed_response env feed_url = None ∨
   ∃ status content,
     feed_response env feed_url = Some (status, content) ∧ 400 ≤ status < 600) →
  main env feed_url output_path debug w =
  (Raise match feed_response env feed_url with
         | None => TransportError
         | Some (status, _) => HTTPStatusError status
         end,
   {| files := files w; requests := requests w ++ [feed_url] |}).
Proof.
  intros H. unfold main, scrape, client_get, raise_for_status. run_monad.
  destruct H as [->|(status & content & -> & Hs)]; [done|]. cbn.
  destruct (Nat.leb_spec 200 status), (Nat.ltb_spec status 300); cbn; try lia.
  all: done.
Qed.

Lemma C7_witness :
  (feed_response (Sample.env false) "gone" = None ∨
   ∃ status content,
     feed_response (Sample.env false) "gone" = Some (status, content) ∧
     400 ≤ status < 600) ∧
  main (Sample.env false) "gone" "feed.xml" false Sample.world0 =
  (Raise (HTTPStatusError 404), {| files := ∅; requests := ["gone"] |}).
Proof.
  assert (feed_response (Sample.env false) "gone" = None ∨
          ∃ status content,
            feed_response (Sample.env false) "gone" = Some (status, content) ∧
            400 ≤ status < 600) as H.
  { right. exists 404, "ABC". split; [reflexivity|lia]. }
  split; [exact H|].
  exact (C7_feed_fetch_failure_aborts_the_run (Sample.env false) "gone" "feed.xml"
           false Sample.world0 H).
Defined.

Section Tasks.
Variable env : Env.
Variable proxy : option (nat → string).
Variable debug : bool.
Variable links : list string.

Abbreviation the_crawler := (crawler env proxy debug).
Abbreviation final := (run (web env) (schedule env) (crawler env proxy debug) links).
Abbreviation state_after fuel :=
  (run_cycles (web env) (schedule env) (crawler env proxy debug) fuel (initial links)).

(** The fetches of [u] in the whole run, when every task for [u] made
    [k] attempts. *)
Lemma final_fetches u k :
  Forall (λ ft : Task * Terminal, url ft.1 = u → attempt_count ft.1 = k) (finished final) →
  length (filter (.= u) (fetched final)) = k * length (filter (.= u) links).
Proof.
  intros Hk.
  pose proof (run_fetched (web env) (schedule env) the_crawler links
                (length links * budget the_crawler)) as Hf.
  pose proof (run_tasks (web env) (schedule env) the_crawler links
                (length links * budget the_crawler)) as Ht.
  cbn zeta in Hf. fold final in Hf, Ht.
  assert (length (filter (.= u) (fetched final)) =
          length (filter (.= u) (mjoin (fetches_of <$> tasks final)))) as ->
    by (by rewrite Hf).
  assert (length (filter (.= u) links) =
          length (filter (.= u) (url <$> tasks final))) as ->
    by (by rewrite Ht).
  rewrite run_tasks_finished.
  apply fetches_count. by apply Forall_fmap.
Qed.

(** A link of the run has a finished task. *)
Lemma final_task u :
  u ∈ links → ∃ task τ, (task, τ) ∈ finished final ∧ url task = u.
Proof.
  intros Hu.
  rewrite <- (run_tasks (web env) (schedule env) the_crawler links
                (length links * budget the_crawler)) in Hu.
  fold final in Hu. rewrite run_tasks_finished in Hu.
  apply list_elem_of_fmap in Hu as (task & -> & Ht).
  apply list_elem_of_fmap in Ht as ([task' τ] & -> & Hft). eauto.
Qed.

(** C4.  A task whose every fetch is answered 403, 429 or 5xx is
    fetched [max_request_retries] times and then dropped: at no point
    of the run has it made more attempts than that, it ends with its
    retries exhausted after exactly that many, and its URL is not in
    the mapping. *)
Theorem C4_retryable_status_exhausts_the_retries u :
  u ∈ links →
  (∀ n, ∃ status page,
      web env n u = Response status page ∧
      (status = 403 ∨ status = 429 ∨ 500 ≤ status < 600)) →
  (∀ fuel task, task ∈ tasks (state_after fuel) →
     attempt_count task ≤ max_request_retries env) ∧
  (∃ task τ, (task, τ) ∈ finished final ∧ url task = u) ∧
  (∀ task τ, (task, τ) ∈ finished final → url task = u →
     attempt_count task = max_request_retries env ∧
     ∃ status, τ = RetryExhausted (FetchFailed (Some status))) ∧
  length (filter (.= u) (fetched final)) =
    max_request_retries env * length (filter (.= u) links) ∧
  collect (get_dataset final) !! u = None.
Proof.
  intros Hu Hweb.
  assert (∀ n task st, url task = u →
            ∃ why, (attempt (web env) the_crawler n task st).1 = Retry why ∧
                   ∃ status, why = FetchFailed (Some status)) as Hretry.
  { intros n task st <-. destruct (Hweb n) as (status & page & Hw & Hs).
    rewrite (attempt_retryable _ _ _ _ _ _ _ _ Hw Hs). cbn. eauto. }
  pose proof (url_always_retry (web env) (schedule env) the_crawler u _ links
                (length links * budget the_crawler) Hretry) as Hfin.
  fold final in Hfin. rewrite crawler_budget in Hfin.
  split; [|split; [|split; [|split]]].
  - intros fuel task Hin.
    pose proof (run_attempts (web env) (schedule env) the_crawler links fuel) as [Hq Hf].
    rewrite crawler_budget in Hq, Hf. unfold tasks in Hin.
    apply elem_of_app in Hin as [Hin|Hin].
    + rewrite Forall_forall in Hq. specialize (Hq _ Hin). cbn in Hq. lia.
    + apply list_elem_of_fmap in Hin as (ft & -> & Hin).
      rewrite Forall_forall in Hf. specialize (Hf _ Hin). cbn in Hf. lia.
  - by apply final_task.
  - intros task τ Hin Hurl. rewrite Forall_forall in Hfin.
    destruct (Hfin _ Hin Hurl) as (Hc & why & Hτ & status & ->). cbn in *. eauto.
  - apply final_fetches. eapply Forall_impl; [exact Hfin|].
    intros ft Hft Hurl. by destruct (Hft Hurl).
  - apply collect_none. unfold get_dataset.
    apply (url_no_push (web env) (schedule env) the_crawler (crawler_appends _ _ _)).
    intros n task st items Hurl Ha.
    destruct (Hretry n task st Hurl) as (why & Hw & _). congruence.
Qed.

(** C5.  A task whose fetch is answered with a fatal status (one that
    is neither a success nor retried) is fetched exactly once and
    dropped, and its URL is not in the mapping. *)
Theorem C5_fatal_status_drops_after_one_attempt u :
  u ∈ links →
  (∀ n, ∃ status page,
      web env n u = Response status page ∧
      ¬ (200 ≤ status < 300) ∧
      ¬ (status = 403 ∨ status = 429 ∨ 500 ≤ status < 600)) →
  (∃ task τ, (task, τ) ∈ finished final ∧ url task = u) ∧
  (∀ task τ, (task, τ) ∈ finished final → url task = u →
     attempt_count task = 1 ∧ ∃ status, τ = DroppedFatal status) ∧
  length (filter (.= u) (fetched final)) = length (filter (.= u) links) ∧
  collect (get_dataset final) !! u = None.
Proof.
  intros Hu Hweb.
  assert (∀ n task st, url task = u →
            ∃ τ, (attempt (web env) the_crawler n task st).1 = End τ ∧
                 ∃ status, τ = DroppedFatal status) as Hend.
  { intros n task st <-. destruct (Hweb n) as (status & page & Hw & Hok & Hs).
    rewrite (attempt_fatal _ _ _ _ _ _ _ _ Hw Hs Hok). cbn. eauto. }
  pose proof (url_always_end (web env) (schedule env) the_crawler u _ links
                (length links * budget the_crawler) Hend) as Hfin.
  fold final in Hfin.
  split; [|split; [|split]].
  - by apply final_task.
  - intros task τ Hin Hurl. rewrite Forall_forall in Hfin.
    apply (Hfin _ Hin Hurl).
  - rewrite (final_fetches u 1); [lia|].
    eapply Forall_impl; [exact Hfin|].
    intros ft Hft Hurl. by destruct (Hft Hurl).
  - apply collect_none. unfold get_dataset.
    apply (url_no_push (web env) (schedule env) the_crawler (crawler_appends _ _ _)).
    intros n task st items Hurl Ha.
    destruct (Hend n task st Hurl) as (τ & Hτ & status & ->). congruence.
Qed.

End Tasks.

Lemma C4_witness :
  let env := Sample.env false in
  let links := ["A"; "F"; "F"] in
  let final := run (web env) (schedule env) (crawler env None false) links in
  "F" ∈ links ∧
  (∀ n, ∃ status page,
      web env n "F" = Response status page ∧
      (status = 403 ∨ status = 429 ∨ 500 ≤ status < 600)) ∧
  (∀ fuel task,
     task ∈ tasks (run_cycles (web env) (schedule env) (crawler env None false)
                              fuel (initial links)) →
     attempt_count task ≤ 3) ∧
  (∃ task τ, (task, τ) ∈ finished final ∧ url task = "F") ∧
  (∀ task τ, (task, τ) ∈ finished final → url task = "F" →
     attempt_count task = 3 ∧
     ∃ status, τ = RetryExhausted (FetchFailed (Some status))) ∧
  length (filter (.= "F") (fetched final)) = 3 * 2 ∧
  collect (get_dataset final) !! "F" = None.
Proof.
  cbn zeta.
  assert ("F" ∈ ["A"; "F"; "F"]) as H1 by solve_elem.
  assert (∀ n, ∃ status page,
             web (Sample.env false) n "F" = Response status page ∧
             (status = 403 ∨ status = 429 ∨ 500 ≤ status < 600)) as H2.
  { intros n. exists 403, []. split; [reflexivity|]. left. reflexivity. }
  split; [exact H1|]. split; [exact H2|].
  exact (C4_retryable_status_exhausts_the_retries (Sample.env false) None false
           ["A"; "F"; "F"] "F" H1 H2).
Defined.

Lemma C5_witness :
  let env := Sample.env true in
  let links := ["C"; "A"; "C"] in
  let final := run (web env) (schedule env) (crawler env None false) links in
  "C" ∈ links ∧
  (∀ n, ∃ status page,
      web env n "C" = Response status page ∧
      ¬ (200 ≤ status < 300) ∧
      ¬ (status = 403 ∨ status = 429 ∨ 500 ≤ status < 600)) ∧
  (∃ task τ, (task, τ) ∈ finished final ∧ url task = "C") ∧
  (∀ task τ, (task, τ) ∈ finished final → url task = "C" →
     attempt_count task = 1 ∧ ∃ status, τ = DroppedFatal status) ∧
  length (filter (.= "C") (fetched final)) = length (filter (.= "C") links) ∧
  collect (get_dataset final) !! "C" = None.
Proof.
  cbn zeta.
  assert ("C" ∈ ["C"; "A"; "C"]) as H1 by solve_elem.
  assert (∀ n, ∃ status page,
             web (Sample.env true) n "C" = Response status page ∧
             ¬ (200 ≤ status < 300) ∧
             ¬ (status = 403 ∨ status = 429 ∨ 500 ≤ status < 600)) as H2.
  { intros n. exists 404, []. split; [reflexivity|]. lia. }
  split; [exact H1|]. split; [exact H2|].
  exact (C5_fatal_status_drops_after_one_attempt (Sample.env true) None false
           ["C"; "A"; "C"] "C" H1 H2).
Defined.

(** The links read off the feed are the links of its entries, one for
    each entry and in their order. *)
Lemma entry_links_spec entries (links : list string) :
  entry_links entries = Ok links → entries = Some <$> links.
Proof.
  revert links. induction entries as [|[l|] es IH]; intros links H; cbn in H.
  - by injection H as <-.
  - destruct (entry_links es) as [ls|e]; [|done].
    injection H as <-. cbn. by rewrite (IH ls).
  - done.
Qed.

(** C6.  The links handed to the crawler are the links of the feed's
    entries, one per entry, so a URL that occurs in several entries
    occurs as often among the tasks; every task reaches a terminal state
    after at least one fetch of its own, and every fetch of the run is
    an attempt of exactly one task. *)
Theorem C6_every_occurrence_is_a_task_of_its_own
    (env : Env) proxy debug rss (links : list string) :
  entry_links (feed_entries env rss) = Ok links →
  let final := run (web env) (schedule env) (crawler env proxy debug) links in
  feed_entries env rss = Some <$> links ∧
  queue final = [] ∧
  url <$> (finished final).*1 ≡ₚ links ∧
  Forall (λ ft, 1 ≤ attempt_count ft.1) (finished final) ∧
  fetched final ≡ₚ mjoin (fetches_of <$> (finished final).*1).
Proof.
  intros Hl final.
  pose proof (run_tasks (web env) (schedule env) (crawler env proxy debug) links
                (length links * budget (crawler env proxy debug))) as Ht.
  pose proof (run_fetched (web env) (schedule env) (crawler env proxy debug) links
                (length links * budget (crawler env proxy debug))) as Hf.
  pose proof (run_attempts (web env) (schedule env) (crawler env proxy debug) links
                (length links * budget (crawler env proxy debug))) as [_ Ha].
  cbn zeta in Hf, Ha. fold (run (web env) (schedule env) (crawler env proxy debug) links) in Ht, Hf, Ha.
  fold final in Ht, Hf, Ha. subst final.
  rewrite run_tasks_finished in Ht, Hf.
  split; [by apply entry_links_spec|]. split; [apply run_queue|].
  split; [done|]. split; [|done].
  eapply Forall_impl; [exact Ha|]. cbn. lia.
Qed.

Lemma C6_witness :
  let env := Sample.env false in
  let links := ["A"; "B"; "A"] in
  let final := run (web env) (schedule env) (crawler env None false) links in
  entry_links (feed_entries env "ABA") = Ok links ∧
  feed_entries env "ABA" = Some <$> links ∧
  queue final = [] ∧
  url <$> (finished final).*1 ≡ₚ links ∧
  Forall (λ ft, 1 ≤ attempt_count ft.1) (finished final) ∧
  fetched final ≡ₚ mjoin (fetches_of <$> (finished final).*1).
Proof.
  cbn zeta.
  assert (entry_links (feed_entries (Sample.env false) "ABA") = Ok ["A"; "B"; "A"]) as H
    by reflexivity.
  split; [exact H|].
  exact (C6_every_occurrence_is_a_task_of_its_own (Sample.env false) None false
           "ABA" ["A"; "B"; "A"] H).
Defined.

(** C3.  Every fetched page whose flair value differs from the news
    sentinel, whatever string it is, makes the handler return without
    touching the dataset, and the cycle that fetched it ends its task
    with nothing pushed.  A URL is a key of the mapping [scrape]
    returns only if a page served for it with a success status bears
    the news flair; so the URL of a submission whose pages, as served
    with a success status, all bear another flair is not a key,
    whatever else the site answers for it. *)
Theorem C3_other_flair_is_never_mapped
    (env : Env) feed_url debug w rss (url_mapping : gmap string string) w' :
  scrape env feed_url debug w = (Ok (rss, url_mapping), w') →
  (∀ context st f,
      flair_of (parse_qs env) (soup context) = Ok f → f ≠ news_flair →
      ∃ lg, default_handler (parse_qs env) context st
            = (Ok tt, {| log := lg; dataset := dataset st |})) ∧
  (∀ proxy n task st status page f,
      web env n (url task) = Response status page →
      200 ≤ status < 300 →
      flair_of (parse_qs env) page = Ok f → f ≠ news_flair →
      ∃ lg, attempt (web env) (crawler env proxy debug) n task st
            = (End (Handled []), {| log := lg; dataset := dataset st |})) ∧
  (∀ u v, url_mapping !! u = Some v → accepted_page env u v) ∧
  (∀ u,
      (∀ n status page,
          web env n u = Response status page →
          200 ≤ status < 300 →
          ∃ f, flair_of (parse_qs env) page = Ok f ∧ f ≠ news_flair) →
      url_mapping !! u = None).
Proof.
  intros Hs.
  assert (∀ context st f,
            flair_of (parse_qs env) (soup context) = Ok f → f ≠ news_flair →
            ∃ lg, default_handler (parse_qs env) context st
                  = (Ok tt, {| log := lg; dataset := dataset st |})) as Hhandler.
  { intros context st f Hf Hne. rewrite default_handler_eq. cbn. rewrite Hf.
    destruct (String.eqb_spec f news_flair); [done|]. cbn. eauto. }
  assert (∀ u v, url_mapping !! u = Some v → accepted_page env u v) as Hkeys.
  { destruct (scrape_cases env feed_url debug w) as [(e & w0 & He)|H]; [congruence|].
    destruct H as (status & rss' & links & proxy & _ & _ & Hl & Hp & He).
    cbn zeta in He. rewrite He in Hs. injection Hs as <- <- <-.
    intros u v. apply collect_accepted. }
  split; [exact Hhandler|]. split; [|split; [exact Hkeys|]].
  - intros proxy n task st status page f Hw Hstatus Hf Hne.
    rewrite (attempt_success env proxy debug n task st status page Hw Hstatus).
    destruct (Hhandler {| request_url := url task;
                          proxy_info := (λ p, p n) <$> proxy;
                          soup := page |} st f Hf Hne) as (lg & ->).
    exists lg. cbn [dataset]. by rewrite drop_ge.
  - intros u Hflair. destruct (url_mapping !! u) as [v|] eqn:Hu; [|done].
    destruct (Hkeys u v Hu) as (n & status & page & Hw & Hstatus & Hnews & _).
    destruct (Hflair n status page Hw Hstatus) as (f & Hf & Hne). congruence.
Qed.

Lemma C3_witness :
  let env := More.with_web More.flaky_web (Sample.env false) in
  let url_mapping : gmap string string := {["A" := "https://x.example/story"]} in
  scrape env "BA" false Sample.world0 =
  (Ok ("BA", url_mapping), {| files := ∅; requests := ["BA"; "B"; "B"; "A"] |}) ∧
  web env 0 "B" = Response 503 [] ∧
  (∀ n status page,
      web env n "B" = Response status page →
      200 ≤ status < 300 →
      ∃ f, flair_of (parse_qs env) page = Ok f ∧ f ≠ news_flair) ∧
  url_mapping !! "B" = None.
Proof.
  assert (scrape (More.with_web More.flaky_web (Sample.env false)) "BA" false
                 Sample.world0 =
          (Ok ("BA", {["A" := "https://x.example/story"]}),
           {| files := ∅; requests := ["BA"; "B"; "B"; "A"] |})) as H1
    by (vm_compute; reflexivity).
  assert (∀ n status page,
             web (More.with_web More.flaky_web (Sample.env false)) n "B"
               = Response status page →
             200 ≤ status < 300 →
             ∃ f, flair_of (parse_qs (More.with_web More.flaky_web (Sample.env false)))
                           page = Ok f ∧ f ≠ news_flair) as H2.
  { intros [|n] status page [= <- <-] Hs; [lia|].
    eexists. split; [vm_compute; reflexivity|]. discriminate. }
  split; [exact H1|]. split; [reflexivity|]. split; [exact H2|].
  exact (proj2 (proj2 (proj2
           (C3_other_flair_is_never_mapped
              (More.with_web More.flaky_web (Sample.env false)) "BA" false Sample.world0
              "BA" {["A" := "https://x.example/story"]}
              {| files := ∅; requests := ["BA"; "B"; "B"; "A"] |} H1))) "B" H2).
Defined.

(** A page without the flair link, or with the news flair but without
    the article link, makes the handler raise [TypeError]. *)
Lemma flair_of_missing pq page :
  Soup.select_one Soup.flair_selector page = None → flair_of pq page = Raise TypeError.
Proof.
  intros H. unfold flair_of, f_param_value. cbn [soup blank]. by rewrite H.
Qed.

Lemma article_of_missing page :
  Soup.select_one Soup.article_selector page = None → article_of page = Raise TypeError.
Proof. intros H. unfold article_of. by rewrite H. Qed.

Lemma default_handler_missing pq context st :
  Soup.select_one Soup.flair_selector (soup context) = None ∨
  (flair_of pq (soup context) = Ok news_flair ∧
   Soup.select_one Soup.article_selector (soup context) = None) →
  default_handler pq context st =
  (Raise TypeError,
   {| log := log st ++ [Scraping (request_url context) (proxy_info context)];
      dataset := dataset st |}).
Proof.
  intros H. rewrite default_handler_eq. cbn zeta.
  destruct H as [H|[Hf H]].
  - by rewrite (flair_of_missing _ _ H).
  - rewrite Hf, String.eqb_refl. cbn. by rewrite (article_of_missing _ H).
Qed.

(** C2, as stated, fails: a page served with status 200 that has no
    flair link makes the handler raise, and the task is fetched three
    times, not once. *)
Lemma C2_counterexample : ¬ malformed_page_not_retried.
Proof.
  intros H.
  assert (finished (run (web (Sample.env false)) (schedule (Sample.env false))
                        (crawler (Sample.env false) None false) ["E"]) =
          [({| url := "E"; attempt_count := 3 |},
            RetryExhausted (HandlerRaised TypeError))]) as Hfin
    by (vm_compute; reflexivity).
  specialize (H (Sample.env false) None false ["E"] "E").
  assert ("E" ∈ ["E"]) as Hin by solve_elem.
  specialize (H Hin).
  assert (∀ n, ∃ status page,
             web (Sample.env false) n "E" = Response status page ∧
             200 ≤ status < 300 ∧ lacks_expected_element page) as Hweb.
  { intros n. exists 200, Sample.page_E. split; [reflexivity|]. split; [lia|].
    left. reflexivity. }
  specialize (H Hweb {| url := "E"; attempt_count := 3 |}
                (RetryExhausted (HandlerRaised TypeError))).
  rewrite Hfin in H. specialize (H ltac:(solve_elem) eq_refl). discriminate H.
Qed.

Section Malformed.
Variable env : Env.
Variable proxy : option (nat → string).
Variable debug : bool.
Variable links : list string.

Abbreviation the_crawler := (crawler env proxy debug).
Abbreviation final := (run (web env) (schedule env) (crawler env proxy debug) links).

(** C2, amended.  On a page served with a success status that lacks the
    flair link, or that bears the news flair but lacks the article
    link, the handler raises [TypeError] and pushes nothing.  The
    crawler counts the cycle as failed: when every fetch of a task is
    answered so, the task is fetched [max_request_retries] times and
    then dropped with its retries exhausted, and its URL is not in the
    mapping. *)
Theorem C2_missing_element_fails_and_retries u :
  u ∈ links →
  (∀ n, ∃ status page,
      web env n u = Response status page ∧
      200 ≤ status < 300 ∧
      (Soup.select_one Soup.flair_selector page = None ∨
       (flair_of (parse_qs env) page = Ok news_flair ∧
        Soup.select_one Soup.article_selector page = None))) →
  (∀ n status page proxy_info st,
      web env n u = Response status page →
      ∃ lg, default_handler (parse_qs env)
              {| request_url := u; proxy_info := proxy_info; soup := page |} st
            = (Raise TypeError, {| log := lg; dataset := dataset st |})) ∧
  (∃ task τ, (task, τ) ∈ finished final ∧ url task = u) ∧
  (∀ task τ, (task, τ) ∈ finished final → url task = u →
     attempt_count task = max_request_retries env ∧
     τ = RetryExhausted (HandlerRaised TypeError)) ∧
  length (filter (.= u) (fetched final)) =
    max_request_retries env * length (filter (.= u) links) ∧
  collect (get_dataset final) !! u = None.
Proof.
  intros Hu Hweb.
  assert (∀ n status page px st,
            web env n u = Response status page →
            200 ≤ status < 300 ∧
            default_handler (parse_qs env)
              {| request_url := u; proxy_info := px; soup := page |} st =
            (Raise TypeError,
             {| log := log st ++ [Scraping u px]; dataset := dataset st |})) as Hraise.
  { intros n status page px st Hw.
    destruct (Hweb n) as (status' & page' & Hw' & Hs & Hm).
    rewrite Hw in Hw'. injection Hw' as <- <-. split; [done|].
    by rewrite default_handler_missing. }
  assert (∀ n task st, url task = u →
            ∃ why, (attempt (web env) the_crawler n task st).1 = Retry why ∧
                   why = HandlerRaised TypeError) as Hretry.
  { intros n task st <-. destruct (Hweb n) as (status & page & Hw & Hs & _).
    eexists. split; [|reflexivity].
    eapply attempt_handler_raises; [exact Hw|exact Hs|].
    by rewrite (proj2 (Hraise n status page _ st Hw)). }
  pose proof (url_always_retry (web env) (schedule env) the_crawler u _ links
                (length links * budget the_crawler) Hretry) as Hfin.
  fold final in Hfin. rewrite crawler_budget in Hfin.
  split; [|split; [|split; [|split]]].
  - intros n status page px st Hw.
    destruct (Hraise n status page px st Hw) as [_ ->]. eauto.
  - by apply final_task.
  - intros task τ Hin Hurl. rewrite Forall_forall in Hfin.
    destruct (Hfin _ Hin Hurl) as (Hc & why & Hτ & ->). cbn in *. eauto.
  - apply final_fetches. eapply Forall_impl; [exact Hfin|].
    intros ft Hft Hurl. by destruct (Hft Hurl).
  - apply collect_none. unfold get_dataset.
    apply (url_no_push (web env) (schedule env) the_crawler (crawler_appends _ _ _)).
    intros n task st items Hurl Ha.
    destruct (Hretry n task st Hurl) as (why & Hw & _). congruence.
Qed.

End Malformed.

Lemma C2_witness :
  let env := Sample.env false in
  let links := ["D"; "A"] in
  let final := run (web env) (schedule env) (crawler env None false) links in
  "D" ∈ links ∧
  (∀ n, ∃ status page,
      web env n "D" = Response status page ∧
      200 ≤ status < 300 ∧
      (Soup.select_one Soup.flair_selector page = None ∨
       (flair_of (parse_qs env) page = Ok news_flair ∧
        Soup.select_one Soup.article_selector page = None))) ∧
  (∀ n status page proxy_info st,
      web env n "D" = Response status page →
      ∃ lg, default_handler (parse_qs env)
              {| request_url := "D"; proxy_info := proxy_info; soup := page |} st
            = (Raise TypeError, {| log := lg; dataset := dataset st |})) ∧
  (∃ task τ, (task, τ) ∈ finished final ∧ url task = "D") ∧
  (∀ task τ, (task, τ) ∈ finished final → url task = "D" →
     attempt_count task = 3 ∧ τ = RetryExhausted (HandlerRaised TypeError)) ∧
  length (filter (.= "D") (fetched final)) = 3 * 1 ∧
  collect (get_dataset final) !! "D" = None.
Proof.
  cbn zeta.
  assert ("D" ∈ ["D"; "A"]) as H1 by solve_elem.
  assert (∀ n, ∃ status page,
             web (Sample.env false) n "D" = Response status page ∧
             200 ≤ status < 300 ∧
             (Soup.select_one Soup.flair_selector page = None ∨
              (flair_of (parse_qs (Sample.env false)) page = Ok news_flair ∧
               Soup.select_one Soup.article_selector page = None))) as H2.
  { intros n. exists 200, Sample.page_D. split; [reflexivity|]. split; [lia|].
    right. split; vm_compute; reflexivity. }
  split; [exact H1|]. split; [exact H2|].
  exact (C2_missing_element_fails_and_retries (Sample.env false) None false
           ["D"; "A"] "D" H1 H2).
Defined.

Import EtreeFacts.

(** C8, as stated, fails: on a feed with an entry that has no link the
    loop does not remove the entry, it raises [AttributeError], and no
    document comes out. *)
Lemma C8_counterexample : ¬ filter_walks_every_feed.
Proof.
  intros H.
  specialize (H {["A" := "X"]}
                (Sample.feed_of [Sample.entry "A" "kept";
                                 Sample.entry_without_link "text"])
                eq_refl).
  rewrite feed_filter_raises in H by reflexivity. discriminate H.
Qed.

(** C8, amended.  On a feed document whose root is not an entry and
    whose entries all have a link element, the loop of [main] returns
    what the spec's walk gives: entries taken in feed order, an entry
    whose link href is a key of the mapping kept with that href
    rewritten to the mapped URL, every other entry removed; and that is
    the document [main] writes. *)
Theorem C8_filter_rewrites_or_removes_each_entry
    (url_mapping : gmap string string) (doc : Etree.Element) :
  is_entry doc = false →
  entries_have_links doc = true →
  Etree.feed_filter url_mapping doc = Ok (spec_filter url_mapping doc) ∧
  ∀ (env : Env) feed_url output_path debug w rss w',
    scrape env feed_url debug w = (Ok (rss, url_mapping), w') →
    fromstring env rss = Ok doc →
    main env feed_url output_path debug w =
    (Ok tt, {| files := <[output_path := tostring env (spec_filter url_mapping doc)]>
                          (files w');
               requests := requests w' |}).
Proof.
  intros Ht Hl.
  pose proof (feed_filter_spec_filter url_mapping doc Ht Hl) as Hf.
  split; [done|]. intros env feed_url output_path debug w rss w' Hs Hd.
  by rewrite (main_after_scrape _ _ _ _ _ _ _ _ _ Hs Hd), Hf.
Qed.

Lemma C8_witness :
  let m : gmap string string := {["A" := "X"]} in
  let doc := Sample.feed_of [Sample.entry "A" "first"; Sample.entry "B" "second";
                             Sample.entry "A" "third"] in
  is_entry doc = false ∧
  entries_have_links doc = true ∧
  Etree.feed_filter m doc =
    Ok (Sample.feed_of [Sample.entry "X" "first"; Sample.entry "X" "third"]) ∧
  ∀ (env : Env) feed_url output_path debug w rss w',
    scrape env feed_url debug w = (Ok (rss, m), w') →
    fromstring env rss = Ok doc →
    main env feed_url output_path debug w =
    (Ok tt, {| files := <[output_path := tostring env (spec_filter m doc)]> (files w');
               requests := requests w' |}).
Proof.
  cbn zeta. split; [reflexivity|]. split; [reflexivity|].
  exact (C8_filter_rewrites_or_removes_each_entry {["A" := "X"]}
           (Sample.feed_of [Sample.entry "A" "first"; Sample.entry "B" "second";
                            Sample.entry "A" "third"])
           eq_refl eq_refl).
Defined.

(** C10, as stated, fails: an entry that is kept while an entry held
    inside it is removed comes out without that inner entry, so it is
    not the input entry but for its link href. *)
Lemma C10_counterexample : ¬ kept_entries_are_untouched.
Proof.
  intros H.
  pose (inner := Sample.entry "B" "inner").
  pose (outer := Sample.entry_holding "A" inner).
  pose (outer' := Etree.Node (Etree.atom "entry") [] EmptyString
                    [Etree.Node (Etree.atom "link") [("href", "X")]
                                EmptyString [] EmptyString]
                    EmptyString).
  assert (Etree.feed_filter {["A" := "X"]} (Sample.feed_of [outer]) =
          Ok (Sample.feed_of [outer'])) as Hout by (vm_compute; reflexivity).
  destruct (H {["A" := "X"]} (Sample.feed_of [outer]) (Sample.feed_of [outer'])
              eq_refl Hout) as (kept & Hsub & Hframe).
  change (entries_of (Sample.feed_of [outer'])) with [outer'] in Hframe.
  change (entries_of (Sample.feed_of [outer])) with [outer; inner] in Hsub.
  apply Forall2_cons_inv_r in Hframe as (e & kept' & Hsame & Hnil & ->).
  apply Forall2_nil_inv_r in Hnil as ->.
  assert (length (e_children e) = 1) as Hlen.
  { destruct Hsame as (_ & _ & _ & _ & pre & l & l' & post & Hc & Hc' & _).
    rewrite Hc. apply (f_equal length) in Hc'. revert Hc'.
    rewrite !length_app. cbn. lia. }
  assert (e ∈ [outer; inner]) as He.
  { eapply elem_of_sublist; [|exact Hsub]. apply list_elem_of_here. }
  apply elem_of_cons in He as [->|He]; [discriminate Hlen|].
  apply list_elem_of_singleton in He as ->. discriminate Hlen.
Qed.

(** C10, amended.  On a feed document whose root is not an entry and
    in which no entry lies inside another, when the loop of [main]
    returns a document, its entries are, one for one and in the order
    of the input, the input entries whose link href is a key of the
    mapping; each has the tag, attributes, text, tail and children of
    the input entry, the link alone differing, and only in its href. *)
Theorem C10_kept_entries_keep_content_and_order
    (m : gmap string string) (doc out : Etree.Element) :
  is_entry doc = false →
  entries_not_nested doc = true →
  Etree.feed_filter m doc = Ok out →
  let kept := filter (λ e, is_Some (entry_href e ≫= (m !!.))) (entries_of doc) in
  kept `sublist_of` entries_of doc ∧
  Forall2 same_but_link_href kept (entries_of out).
Proof.
  intros Ht Hn Hf kept. split; [apply sublist_filter|].
  rewrite (feed_filter_eq m doc Ht) in Hf.
  destruct (entries_have_links doc); [|done]. injection Hf as <-.
  rewrite (entries_spec_filter m doc Hn Ht). apply kept_entries_framed.
Qed.

Lemma C10_witness :
  let m : gmap string string := {["A" := "X"]} in
  let doc := Sample.feed_of [Sample.entry "A" "first"; Sample.entry "B" "second";
                             Sample.entry "A" "third"] in
  let out := Sample.feed_of [Sample.entry "X" "first"; Sample.entry "X" "third"] in
  is_entry doc = false ∧
  entries_not_nested doc = true ∧
  Etree.feed_filter m doc = Ok out ∧
  let kept := filter (λ e, is_Some (entry_href e ≫= (m !!.))) (entries_of doc) in
  kept `sublist_of` entries_of doc ∧
  Forall2 same_but_link_href kept (entries_of out).
Proof.
  cbn zeta.
  assert (Etree.feed_filter {["A" := "X"]}
            (Sample.feed_of [Sample.entry "A" "first"; Sample.entry "B" "second";
                             Sample.entry "A" "third"]) =
          Ok (Sample.feed_of [Sample.entry "X" "first"; Sample.entry "X" "third"])) as H
    by (vm_compute; reflexivity).
  split; [reflexivity|]. split; [reflexivity|]. split; [exact H|].
  exact (C10_kept_entries_keep_content_and_order {["A" := "X"]}
           (Sample.feed_of [Sample.entry "A" "first"; Sample.entry "B" "second";
                            Sample.entry "A" "third"])
           (Sample.feed_of [Sample.entry "X" "first"; Sample.entry "X" "third"])
           eq_refl eq_refl H).
Defined.

(** * Further properties *)

Import More.

(** ** The handler at its edges *)

(** [split] gives one more part than the string has separators. *)
Lemma split_length sep s : length (split sep s) = S (occurrences sep s).
Proof.
  induction s as [|c s IH]; [done|]. cbn.
  destruct (Ascii.eqb c sep); cbn; [by rewrite IH|].
  by destruct (split sep s).
Qed.

Lemma split_no_sep sep s : occurrences sep s = 0 → split sep s = [s].
Proof.
  induction s as [|c s IH]; [done|]. cbn.
  destruct (Ascii.eqb c sep); [done|]. cbn. intros H. by rewrite IH.
Qed.

Lemma split_at_sep sep p q :
  occurrences sep p = 0 → split sep (p +:+ String sep q) = p :: split sep q.
Proof.
  induction p as [|c p IH].
  - intros _. change ("" +:+ String sep q) with (String sep q).
    cbn -[Ascii.eqb]. by rewrite Ascii.eqb_refl.
  - change (String c p +:+ String sep q) with (String c (p +:+ String sep q)).
    cbn -[Ascii.eqb]. destruct (Ascii.eqb c sep); [done|]. cbn. intros H. by rewrite IH.
Qed.

(** The flair value and the article link, from the tags [select_one]
    finds. *)
Lemma flair_of_link pq page t h :
  Soup.select_one Soup.flair_selector page = Some t →
  Soup.get "href" (Soup.attrs t) = Some h →
  flair_of pq page =
  match split "?" h with
  | [_; query_string] =>
      match pq query_string !! "f" with
      | Some (v :: _) => Ok v
      | Some [] => Raise IndexError
      | None => Raise KeyError
      end
  | _ => Raise ValueError
  end.
Proof.
  intros Ht Hh. unfold flair_of, f_param_value. cbn [soup blank].
  rewrite Ht. unfold Soup.getitem. rewrite Hh. run_monad.
  unfold unpack2. destruct (split "?" h) as [|a [|b [|? ?]]]; run_monad; try done.
  unfold dict_getitem. destruct (pq b !! "f") as [[|v values]|]; by run_monad.
Qed.

Lemma article_of_link page t :
  Soup.select_one Soup.article_selector page = Some t →
  article_of page =
  match Soup.get "href" (Soup.attrs t) with
  | Some v => Ok v
  | None => Raise KeyError
  end.
Proof.
  intros Ht. unfold article_of. rewrite Ht. unfold Soup.getitem.
  by destruct (Soup.get "href" (Soup.attrs t)).
Qed.

(** X1.  The accepted page.  When the first anchor the flair selector
    matches has an href with exactly one question mark, the first value
    of [f] in the query string behind it is the news flair, and the
    first anchor the article selector matches has an href, the handler
    returns normally, having logged two lines and pushed exactly one
    item: the request's URL with that href.  Further values of [f] and
    whatever precedes the question mark play no part. *)
Theorem X1_news_page_pushes_its_article
    (pq : string → gmap string (list string)) (context : Context) (st : Store)
    (flair_link article_link : Soup.Tag) (path query_string article_url : string)
    (others : list string) :
  Soup.select_one Soup.flair_selector (soup context) = Some flair_link →
  Soup.get "href" (Soup.attrs flair_link) = Some (path +:+ "?" +:+ query_string) →
  occurrences "?" path = 0 →
  occurrences "?" query_string = 0 →
  pq query_string !! "f" = Some (news_flair :: others) →
  Soup.select_one Soup.article_selector (soup context) = Some article_link →
  Soup.get "href" (Soup.attrs article_link) = Some article_url →
  let data := {| reddit_url := request_url context; article_url := article_url |} in
  default_handler pq context st =
  (Ok tt,
   {| log := log st ++ [Scraping (request_url context) (proxy_info context); Saving data];
      dataset := dataset st ++ [data] |}).
Proof.
  intros Hf Hh Hp Hq Hv Ha Hu data.
  rewrite default_handler_eq. cbn zeta.
  rewrite (flair_of_link pq _ _ _ Hf Hh).
  change ("?" +:+ query_string) with (String "?" query_string).
  rewrite (split_at_sep _ _ _ Hp), (split_no_sep _ _ Hq), Hv.
  rewrite String.eqb_refl. cbn [negb].
  rewrite (article_of_link _ _ Ha), Hu.
  by rewrite <- app_assoc.
Qed.

Lemma X1_witness :
  let context := {| request_url := "A"; proxy_info := None; soup := Sample.page_A |} in
  let st := {| log := []; dataset := [{| reddit_url := "Z"; article_url := "z" |}] |} in
  let data := {| reddit_url := "A"; article_url := "https://x.example/story" |} in
  Soup.select_one Soup.flair_selector Sample.page_A =
    Some (Sample.flair_a "%3Apost-news%3A+News") ∧
  Sample.parse_qs "f=flair_name%3A%22%3Apost-news%3A+News%22" !! "f" = Some [news_flair] ∧
  default_handler Sample.parse_qs context st =
  (Ok tt, {| log := [Scraping "A" None; Saving data];
             dataset := [{| reddit_url := "Z"; article_url := "z" |}; data] |}).
Proof.
  assert (Sample.parse_qs "f=flair_name%3A%22%3Apost-news%3A+News%22" !! "f"
          = Some [news_flair]) as Hv by (vm_compute; reflexivity).
  split; [reflexivity|]. split; [exact Hv|].
  exact (X1_news_page_pushes_its_article Sample.parse_qs
           {| request_url := "A"; proxy_info := None; soup := Sample.page_A |}
           {| log := []; dataset := [{| reddit_url := "Z"; article_url := "z" |}] |}
           (Sample.flair_a "%3Apost-news%3A+News")
           (Sample.article_a "https://x.example/story")
           "/r/formula1/" "f=flair_name%3A%22%3Apost-news%3A+News%22"
           "https://x.example/story" []
           eq_refl eq_refl eq_refl eq_refl Hv eq_refl eq_refl).
Defined.

(** X2.  Whatever the page, the handler only adds: the items already in
    the dataset stay in place, at most one is appended, and none when
    the handler raises; the log keeps its lines and gains at least the
    line that names the request and its proxy. *)
Theorem X2_handler_only_appends
    (pq : string → gmap string (list string)) (context : Context) (st : Store) :
  let r := default_handler pq context st in
  dataset st `prefix_of` dataset r.2 ∧
  length (dataset r.2) ≤ S (length (dataset st)) ∧
  (∀ e, r.1 = Raise e → dataset r.2 = dataset st) ∧
  ∃ more,
    log r.2 = log st ++ Scraping (request_url context) (proxy_info context) :: more.
Proof.
  cbn zeta. rewrite default_handler_eq. cbn zeta.
  assert (∀ (lg : list LogRecord) more, ∃ more',
            (lg ++ [Scraping (request_url context) (proxy_info context)]) ++ more =
            lg ++ Scraping (request_url context) (proxy_info context) :: more') as Hlog.
  { intros lg more. exists more. by rewrite <- app_assoc. }
  destruct (flair_of pq (soup context)) as [f|e]; cbn.
  2: { split; [done|]. split; [lia|]. split; [done|]. by exists []. }
  destruct (negb (String.eqb f news_flair)); cbn.
  { split; [done|]. split; [lia|]. split; [done|]. apply Hlog. }
  destruct (article_of (soup context)) as [v|e]; cbn.
  - split; [by eexists|]. split; [rewrite length_app; cbn; lia|].
    split; [done|]. apply Hlog.
  - split; [done|]. split; [lia|]. split; [done|]. by exists [].
Qed.

(** X3.  A flair href that does not hold exactly one question mark makes
    the two-name unpacking of [split] fail: the handler raises
    [ValueError] after its first log line and pushes nothing, whatever
    the rest of the page. *)
Theorem X3_second_question_mark_raises_ValueError
    (pq : string → gmap string (list string)) (context : Context) (st : Store)
    (flair_link : Soup.Tag) (href : string) :
  Soup.select_one Soup.flair_selector (soup context) = Some flair_link →
  Soup.get "href" (Soup.attrs flair_link) = Some href →
  occurrences "?" href ≠ 1 →
  default_handler pq context st =
  (Raise ValueError,
   {| log := log st ++ [Scraping (request_url context) (proxy_info context)];
      dataset := dataset st |}).
Proof.
  intros Hf Hh Hn. rewrite default_handler_eq. cbn zeta.
  rewrite (flair_of_link pq _ _ _ Hf Hh).
  pose proof (split_length "?" href) as Hl.
  destruct (split "?" href) as [|a [|b [|? ?]]]; try done.
  cbn in Hl. lia.
Qed.

Lemma X3_witness :
  let context := {| request_url := "G"; proxy_info := None; soup := page_two_marks |} in
  let st := {| log := []; dataset := [] |} in
  occurrences "?" "/r/formula1/?f=flair_name%3A%22%3Apost-news%3A+News%22&q=why?" ≠ 1 ∧
  default_handler Sample.parse_qs context st =
  (Raise ValueError, {| log := [Scraping "G" None]; dataset := [] |}).
Proof.
  assert (occurrences "?" "/r/formula1/?f=flair_name%3A%22%3Apost-news%3A+News%22&q=why?"
          ≠ 1) as Hn by (vm_compute; lia).
  split; [exact Hn|].
  exact (X3_second_question_mark_raises_ValueError Sample.parse_qs
           {| request_url := "G"; proxy_info := None; soup := page_two_marks |}
           {| log := []; dataset := [] |}
           (Sample.a [("href", "/r/formula1/?f=flair_name%3A%22%3Apost-news%3A+News%22&q=why?")])
           "/r/formula1/?f=flair_name%3A%22%3Apost-news%3A+News%22&q=why?"
           eq_refl eq_refl Hn).
Defined.

(** X4.  The article selector does not ask for an href.  On a news page
    whose first matching anchor has none, the subscript raises
    [KeyError]: nothing is pushed, and the only log line is the first
    one. *)
Theorem X4_article_anchor_without_href_raises_KeyError
    (pq : string → gmap string (list string)) (context : Context) (st : Store)
    (article_link : Soup.Tag) :
  flair_of pq (soup context) = Ok news_flair →
  Soup.select_one Soup.article_selector (soup context) = Some article_link →
  Soup.get "href" (Soup.attrs article_link) = None →
  default_handler pq context st =
  (Raise KeyError,
   {| log := log st ++ [Scraping (request_url context) (proxy_info context)];
      dataset := dataset st |}).
Proof.
  intros Hf Ha Hu. rewrite default_handler_eq. cbn zeta.
  rewrite Hf, String.eqb_refl. cbn [negb].
  by rewrite (article_of_link _ _ Ha), Hu.
Qed.

Lemma X4_witness :
  let context := {| request_url := "H"; proxy_info := None; soup := page_bare_anchor |} in
  let st := {| log := []; dataset := [] |} in
  flair_of Sample.parse_qs page_bare_anchor = Ok news_flair ∧
  default_handler Sample.parse_qs context st =
  (Raise KeyError, {| log := [Scraping "H" None]; dataset := [] |}).
Proof.
  assert (flair_of Sample.parse_qs page_bare_anchor = Ok news_flair) as Hf
    by (vm_compute; reflexivity).
  split; [exact Hf|].
  exact (X4_article_anchor_without_href_raises_KeyError Sample.parse_qs
           {| request_url := "H"; proxy_info := None; soup := page_bare_anchor |}
           {| log := []; dataset := [] |}
           (Sample.a [("aria-label", "Read the article"); ("rel", "noopener nofollow ugc");
                      ("target", "_blank")])
           Hf eq_refl eq_refl).
Defined.

(** ** The mapping, the feed and the proxy in [scrape] *)

Lemma foldl_insert_other (m : gmap string string) ds k :
  Forall (λ b, reddit_url b ≠ k) ds →
  foldl (λ m a, <[reddit_url a := article_url a]> m) m ds !! k = m !! k.
Proof.
  revert m. induction ds as [|b ds IH]; intros m Hds; [done|].
  inversion_clear Hds as [|? ? Hb Hds']. cbn.
  rewrite IH by done. by rewrite lookup_insert_ne.
Qed.

Lemma foldl_insert_keys (m : gmap string string) ds k :
  is_Some (foldl (λ m a, <[reddit_url a := article_url a]> m) m ds !! k) ↔
  is_Some (m !! k) ∨ k ∈ reddit_url <$> ds.
Proof.
  revert m. induction ds as [|b ds IH]; intros m; cbn.
  { rewrite elem_of_nil. tauto. }
  rewrite IH, elem_of_cons.
  destruct (decide (reddit_url b = k)) as [<-|Hne].
  - rewrite lookup_insert_eq. split; [tauto|]. intros _. left. by eexists.
  - rewrite lookup_insert_ne by done. split; [tauto|].
    intros [?|[->|?]]; tauto.
Qed.

(** X5.  The mapping is filled by assignment, item after item, so for a
    submission pushed more than once the last item decides: the mapping
    holds, under the URL of an item, its article, when no later item of
    the dataset is filed under the same URL. *)
Theorem X5_last_item_of_a_submission_wins (ds ds' : list Article) (a : Article) :
  Forall (λ b, reddit_url b ≠ reddit_url a) ds' →
  collect (ds ++ a :: ds') !! reddit_url a = Some (article_url a).
Proof.
  intros Hds'. unfold collect. rewrite foldl_app. cbn.
  rewrite foldl_insert_other by done. by rewrite lookup_insert_eq.
Qed.

Lemma X5_witness :
  let first := {| reddit_url := "A"; article_url := "x" |} in
  let other := {| reddit_url := "B"; article_url := "y" |} in
  let last := {| reddit_url := "A"; article_url := "z" |} in
  Forall (λ b, reddit_url b ≠ reddit_url last) [other] ∧
  collect ([first] ++ last :: [other]) !! "A" = Some "z".
Proof.
  assert (Forall (λ b, reddit_url b ≠ "A") [{| reddit_url := "B"; article_url := "y" |}])
    as H by (repeat constructor; done).
  split; [exact H|].
  exact (X5_last_item_of_a_submission_wins
           [{| reddit_url := "A"; article_url := "x" |}]
           [{| reddit_url := "B"; article_url := "y" |}]
           {| reddit_url := "A"; article_url := "z" |} H).
Defined.

(** X6.  The keys of the mapping are exactly the submission URLs of the
    dataset: an item is never lost on the way, and no key is made up. *)
Theorem X6_mapping_keys_are_the_dataset_urls (ds : list Article) (k : string) :
  is_Some (collect ds !! k) ↔ k ∈ reddit_url <$> ds.
Proof.
  unfold collect. rewrite foldl_insert_keys, lookup_empty.
  split; [|tauto]. intros [[? ?]|?]; done.
Qed.

(** [scrape] in normal form. *)
Lemma scrape_eq env feed_url debug w :
  scrape env feed_url debug w =
  let w1 := {| files := files w; requests := requests w ++ [feed_url] |} in
  match feed_response env feed_url with
  | None => (Raise TransportError, w1)
  | Some (status, rss) =>
      if (200 <=? status) && (status <? 300) then
        match entry_links (feed_entries env rss) with
        | Raise e => (Raise e, w1)
        | Ok links =>
            match proxy_configuration env with
            | Raise e => (Raise (if exit_process env then SystemExit 91 else e), w1)
            | Ok proxy =>
                let final := run (web env) (schedule env) (crawler env proxy debug) links in
                let w2 := {| files := files w; requests := requests w1 ++ fetched final |} in
                if exit_process env then (Raise (SystemExit 0), w2)
                else (Ok (rss, collect (get_dataset final)), w2)
            end
        end
      else (Raise (HTTPStatusError status), w1)
  end.
Proof.
  cbn zeta.
  unfold scrape, async_with_Actor, client_get, raise_for_status, crawler_run. run_monad.
  destruct (feed_response env feed_url) as [[status rss]|]; [|done].
  cbn. destruct ((200 <=? status) && (status <? 300)); cbn; [|done].
  destruct (entry_links (feed_entries env rss)) as [links|e]; cbn; [|done].
  by destruct (proxy_configuration env) as [px|e]; cbn; destruct (exit_process env).
Qed.

Lemma status_ok status :
  200 ≤ status < 300 → (200 <=? status) && (status <? 300) = true.
Proof.
  intros [? ?]. apply andb_true_iff. by rewrite Nat.leb_le, Nat.ltb_lt.
Qed.

Lemma entry_links_none entries : None ∈ entries → entry_links entries = Raise AttributeError.
Proof.
  induction entries as [|[l|] es IH]; intros Hin; [by apply elem_of_nil in Hin| |done].
  apply elem_of_cons in Hin as [?|Hin]; [done|]. cbn. by rewrite IH.
Qed.

(** A failure of [scrape] ends [main] with the same exception. *)
Lemma main_scrape_raises env feed_url output_path debug w e w' :
  scrape env feed_url debug w = (Raise e, w') →
  main env feed_url output_path debug w = (Raise e, w').
Proof. intros Hs. unfold main. run_monad. by rewrite Hs. Qed.

(** X7.  A [ValueError] of [Actor.create_proxy_configuration] does not
    end the run: [scrape] and [main] go on exactly as if the call had
    returned no proxy configuration. *)
Theorem X7_proxy_ValueError_means_no_proxy
    (env : Env) (feed_url output_path : string) (debug : bool) (w : World) :
  create_proxy_configuration env = Raise ValueError →
  scrape env feed_url debug w = scrape (with_proxy (Ok None) env) feed_url debug w ∧
  main env feed_url output_path debug w =
  main (with_proxy (Ok None) env) feed_url output_path debug w.
Proof.
  intros Hp.
  assert (scrape env feed_url debug w = scrape (with_proxy (Ok None) env) feed_url debug w)
    as Hs.
  { rewrite !scrape_eq. unfold proxy_configuration. rewrite Hp. reflexivity. }
  split; [done|]. unfold main. run_monad. by rewrite Hs.
Qed.

Lemma X7_witness :
  create_proxy_configuration (Sample.env false) = Raise ValueError ∧
  scrape (Sample.env false) "AB" false Sample.world0 =
    scrape (with_proxy (Ok None) (Sample.env false)) "AB" false Sample.world0 ∧
  main (Sample.env false) "AB" "feed.xml" false Sample.world0 =
    main (with_proxy (Ok None) (Sample.env false)) "AB" "feed.xml" false Sample.world0.
Proof.
  split; [reflexivity|].
  exact (X7_proxy_ValueError_means_no_proxy (Sample.env false) "AB" "feed.xml" false
           Sample.world0 eq_refl).
Defined.

(** X8.  Any other exception of [Actor.create_proxy_configuration]
    crosses the Actor block and ends the run: the feed has been
    requested by then, but no page is fetched and no file is written.
    The Actor fails on the way out: where it ends the process, the run
    ends with exit code 91; where it does not, with the exception
    itself. *)
Theorem X8_other_proxy_errors_end_the_run
    (env : Env) (feed_url output_path : string) (debug : bool) (w : World)
    (status : nat) (rss : string) (links : list string) (e : exn) :
  feed_response env feed_url = Some (status, rss) →
  200 ≤ status < 300 →
  entry_links (feed_entries env rss) = Ok links →
  create_proxy_configuration env = Raise e →
  e ≠ ValueError →
  main env feed_url output_path debug w =
  (Raise (if exit_process env then SystemExit 91 else e),
   {| files := files w; requests := requests w ++ [feed_url] |}).
Proof.
  intros Hf Hs Hl Hp He. apply main_scrape_raises.
  rewrite scrape_eq. cbn zeta. rewrite Hf, (status_ok _ Hs), Hl.
  unfold proxy_configuration. rewrite Hp. by destruct e.
Qed.

Lemma X8_witness :
  let env := with_proxy (Raise TransportError) (Sample.env false) in
  feed_response env "AB" = Some (200, "AB") ∧
  200 ≤ 200 < 300 ∧
  entry_links (feed_entries env "AB") = Ok ["A"; "B"] ∧
  TransportError ≠ ValueError ∧
  main (with_exit_process true env) "AB" "feed.xml" false world1 =
    (Raise (SystemExit 91), {| files := files world1; requests := ["AB"] |}) ∧
  main env "AB" "feed.xml" false world1 =
    (Raise TransportError, {| files := files world1; requests := ["AB"] |}).
Proof.
  assert (200 ≤ 200 < 300) as Hs by lia.
  assert (TransportError ≠ ValueError) as He by discriminate.
  split; [reflexivity|]. split; [exact Hs|]. split; [reflexivity|]. split; [exact He|].
  split.
  - exact (X8_other_proxy_errors_end_the_run
             (with_exit_process true (with_proxy (Raise TransportError) (Sample.env false)))
             "AB" "feed.xml" false world1 200 "AB" ["A"; "B"] TransportError
             eq_refl Hs eq_refl eq_refl He).
  - exact (X8_other_proxy_errors_end_the_run
             (with_proxy (Raise TransportError) (Sample.env false))
             "AB" "feed.xml" false world1 200 "AB" ["A"; "B"] TransportError
             eq_refl Hs eq_refl eq_refl He).
Defined.

(** X9.  A feed entry without a link ends the run with
    [AttributeError] when the links are collected: the feed has been
    requested, but no page is fetched and no file is written, even if
    every other entry has a link. *)
Theorem X9_feed_entry_without_link_ends_the_run
    (env : Env) (feed_url output_path : string) (debug : bool) (w : World)
    (status : nat) (rss : string) :
  feed_response env feed_url = Some (status, rss) →
  200 ≤ status < 300 →
  None ∈ feed_entries env rss →
  main env feed_url output_path debug w =
  (Raise AttributeError, {| files := files w; requests := requests w ++ [feed_url] |}).
Proof.
  intros Hf Hs Hn. apply main_scrape_raises.
  rewrite scrape_eq. cbn zeta.
  by rewrite Hf, (status_ok _ Hs), (entry_links_none _ Hn).
Qed.

Lemma X9_witness :
  let env := with_feed_entries (λ _, [Some "A"; None; Some "B"]) (Sample.env false) in
  feed_response env "AB" = Some (200, "AB") ∧
  200 ≤ 200 < 300 ∧
  None ∈ feed_entries env "AB" ∧
  main env "AB" "feed.xml" false world1 =
  (Raise AttributeError, {| files := files world1; requests := ["AB"] |}).
Proof.
  assert (200 ≤ 200 < 300) as Hs by lia.
  assert (None ∈ [Some "A"; None; Some "B"]) as Hn by solve_elem.
  split; [reflexivity|]. split; [exact Hs|]. split; [exact Hn|].
  exact (X9_feed_entry_without_link_ends_the_run
           (with_feed_entries (λ _, [Some "A"; None; Some "B"]) (Sample.env false))
           "AB" "feed.xml" false world1 200 "AB" eq_refl Hs Hn).
Defined.

(** ** The files of a run *)

Lemma scrape_files env feed_url debug w :
  files (scrape env feed_url debug w).2 = files w.
Proof.
  rewrite scrape_eq. cbn zeta.
  destruct (feed_response env feed_url) as [[status rss]|]; [|done].
  destruct ((200 <=? status) && (status <? 300)); [|done].
  destruct (entry_links (feed_entries env rss)) as [links|e]; [|done].
  by destruct (proxy_configuration env) as [px|e]; destruct (exit_process env).
Qed.

(** [main] raises and leaves the files alone, or returns and has
    written its one file. *)
Lemma main_cases env feed_url output_path debug w :
  (∃ e w', main env feed_url output_path debug w = (Raise e, w') ∧ files w' = files w) ∨
  (∃ data w', main env feed_url output_path debug w = (Ok tt, w') ∧
              files w' = <[output_path := data]> (files w)).
Proof.
  pose proof (scrape_files env feed_url debug w) as Hfiles.
  unfold main, with_local, write_bytes. run_monad.
  destruct (scrape env feed_url debug w) as [[[rss m]|e] w'] eqn:Es; cbn in *.
  2: { left. by eauto. }
  destruct (fromstring env rss) as [doc|e]; cbn.
  2: { left. by eauto. }
  destruct (Etree.filter_entries m (Etree.load doc)) as [[[]|e] xml]; cbn.
  - right. eexists _, _. split; [done|]. cbn. by rewrite Hfiles.
  - left. by eauto.
Qed.

(** X10.  No partial output: whenever [main] raises, whether the feed
    could not be fetched, the crawl could not be set up, the feed did
    not parse as XML or the filter failed, the files are as they were
    before the run; a file already at the output path keeps its old
    content. *)
Theorem X10_a_failed_run_writes_nothing
    (env : Env) (feed_url output_path : string) (debug : bool) (w : World) (e : exn) :
  (main env feed_url output_path debug w).1 = Raise e →
  files (main env feed_url output_path debug w).2 = files w.
Proof.
  intros Hr.
  destruct (main_cases env feed_url output_path debug w)
    as [(e' & w' & Hm & Hf)|(data & w' & Hm & Hf)]; rewrite Hm in *; [done|].
  discriminate Hr.
Qed.

Lemma X10_witness :
  let env := with_fromstring (λ _, Raise XMLSyntaxError) (Sample.env false) in
  (main env "AB" "feed.xml" false world1).1 = Raise XMLSyntaxError ∧
  requests (main env "AB" "feed.xml" false world1).2 = ["AB"; "A"; "B"] ∧
  files (main env "AB" "feed.xml" false world1).2 = files world1.
Proof.
  assert ((main (with_fromstring (λ _, Raise XMLSyntaxError) (Sample.env false))
                "AB" "feed.xml" false world1).1 = Raise XMLSyntaxError) as Hr
    by (vm_compute; reflexivity).
  split; [exact Hr|]. split; [vm_compute; reflexivity|].
  exact (X10_a_failed_run_writes_nothing
           (with_fromstring (λ _, Raise XMLSyntaxError) (Sample.env false))
           "AB" "feed.xml" false world1 XMLSyntaxError Hr).
Defined.

(** X11.  [main] writes to the output path and nowhere else: every
    other file is after the run what it was before, however the run
    ends. *)
Theorem X11_only_the_output_path_is_written
    (env : Env) (feed_url output_path : string) (debug : bool) (w : World)
    (path : string) :
  path ≠ output_path →
  files (main env feed_url output_path debug w).2 !! path = files w !! path.
Proof.
  intros Hp.
  destruct (main_cases env feed_url output_path debug w)
    as [(e' & w' & Hm & Hf)|(data & w' & Hm & Hf)]; rewrite Hm; cbn; rewrite Hf; [done|].
  by rewrite lookup_insert_ne.
Qed.

Lemma X11_witness :
  "notes.txt" ≠ "feed.xml" ∧
  (main (Sample.env false) "AB" "feed.xml" false world1).1 = Ok tt ∧
  files (main (Sample.env false) "AB" "feed.xml" false world1).2 !! "notes.txt" =
  files world1 !! "notes.txt".
Proof.
  assert ("notes.txt" ≠ "feed.xml") as Hp by discriminate.
  split; [exact Hp|]. split; [vm_compute; reflexivity|].
  exact (X11_only_the_output_path_is_written (Sample.env false) "AB" "feed.xml" false
           world1 "notes.txt" Hp).
Defined.

(** ** The feed filter when the root is an entry *)

Lemma loop_gives_after_all m (os : list Etree.Obj) : Forall (loop_gives_after m) os.
Proof.
  apply Forall_forall. intros [cb ct ca cx ccs ctl] _.
  apply (loop_obj m (Etree.MkObj cb ct ca cx ccs ctl)).
Qed.

Lemma loop_raises_all m (os : list Etree.Obj) : Forall (loop_raises m) os.
Proof.
  apply Forall_forall. intros [cb ct ca cx ccs ctl] _.
  apply (loop_obj_raises m (Etree.MkObj cb ct ca cx ccs ctl)).
Qed.

(** The root has no parent to be removed from: the loop on a document
    whose root is an entry rewrites the root's link when it is a key of
    the mapping, and raises when it is not. *)
Lemma feed_filter_root_entry m doc :
  is_entry doc = true →
  Etree.feed_filter m doc =
  if entries_have_links doc then
    match entry_href doc ≫= (m !!.) with
    | Some target => Ok (rewrite_entry target (spec_filter m doc))
    | None => Raise AttributeError
    end
  else Raise AttributeError.
Proof.
  intros Hentry. pose proof (after_load m doc) as Hafter.
  unfold left_as in Hafter. rewrite Hentry in Hafter.
  remember (entry_href doc ≫= (m !!.)) as tgt eqn:Etgt.
  destruct doc as [t a x cs tl]. unfold is_entry in Hentry. cbn [e_tag] in Hentry.
  rewrite entries_have_links_eq, Hentry in *. cbn [negb orb] in *.
  unfold Etree.feed_filter, Etree.filter_entries. run_monad.
  rewrite load_eq in *. rewrite xpath_entries_eq. cbn [Etree.tag Etree.children].
  rewrite Hentry. cbn [app for_each]. unfold bind.
  change (Etree.visit m) with (visit_from false m).
  rewrite visit_from_eq. cbn [Etree.deref]. unfold act. cbn [Etree.children orb].
  rewrite bool_decide_eq_true_2 by done. cbn [negb].
  pose proof (find_child_load 0 cs) as Hf.
  rewrite after_eq, Hentry in Hafter.
  destruct (Etree.find_child (Etree.atom "link") 0 (Etree.load <$> cs)) as [i|] eqn:Ei.
  2: { rewrite Hf. by rewrite bool_decide_eq_false_2 by (by intros [? ?]). }
  destruct Hf as (_ & l & Hl & Hi). rewrite Nat.sub_0_r in Hi.
  assert (((Etree.load <$> cs) !! i ≫= λ l, Soup.get "href" (Etree.attrib l)) ≫= (m !!.)
          = tgt) as Htgt.
  { subst tgt. unfold entry_href, entry_link. cbn [e_children]. rewrite Hl, Hi.
    cbn. by rewrite attrib_load. }
  rewrite Htgt in *. rewrite Hl in *.
  rewrite bool_decide_eq_true_2 in * by (by eexists). cbn [andb] in *.
  destruct tgt as [target|].
  2: { by destruct (all_have_links cs). }
  cbn [Etree.update Etree.with_children].
  rewrite <- (child_entries_alter_set_attrib "href" target i 0 (Etree.load <$> cs)).
  destruct (all_have_links cs) eqn:Hcs.
  - rewrite loop_children_0;
      [|apply loop_gives_after_all
       |by rewrite forallb_linked_alter_set_attrib, forallb_linked_load].
    destruct (Hafter eq_refl) as [_ <-]. do 3 f_equal.
    apply list_fmap_alter, Forall_forall. intros c _. apply after_set_attrib.
  - pose proof (loop_children_raises false m true t a x tl []
                  (alter (Etree.set_attrib "href" target) i (Etree.load <$> cs))
                  (loop_gives_after_all _ _) (loop_raises_all _ _)) as Hr.
    rewrite forallb_linked_alter_set_attrib, forallb_linked_load in Hr.
    specialize (Hr Hcs). cbn [length app] in Hr.
    destruct (for_each _ _ _) as [[[]|e] o]; cbn in Hr; [done|]. congruence.
Qed.

(** X12.  The feed filter can fail in one way only.  A mapping without
    the key of an entry never makes it fail ([KeyError] is caught and
    the entry removed); what escapes is [AttributeError], and exactly
    when some entry, at any depth, has no link child, or the root of
    the document is itself an entry whose link is not a key of the
    mapping. *)
Theorem X12_filter_fails_only_with_AttributeError
    (m : gmap string string) (doc : Etree.Element) :
  (∀ e, Etree.feed_filter m doc = Raise e → e = AttributeError) ∧
  ((∃ out, Etree.feed_filter m doc = Ok out) ↔ filter_succeeds m doc = true).
Proof.
  unfold filter_succeeds. destruct (is_entry doc) eqn:Hentry; cbn [negb orb].
  - rewrite feed_filter_root_entry by done.
    destruct (entries_have_links doc); cbn [andb].
    + destruct (entry_href doc ≫= (m !!.)) as [target|].
      * rewrite bool_decide_eq_true_2 by (by eexists).
        split; [done|]. split; [done|]. by eexists.
      * rewrite bool_decide_eq_false_2 by (by intros [? ?]).
        split; [congruence|]. split; [by intros [? ?]|done].
    + split; [congruence|]. split; [by intros [? ?]|done].
  - rewrite feed_filter_eq by done. rewrite andb_true_r.
    destruct (entries_have_links doc).
    + split; [done|]. split; [done|]. by eexists.
    + split; [congruence|]. split; [by intros [? ?]|done].
Qed.

(** X13.  A document whose root is an entry with a link that is a key
    of the mapping, and whose entries all have links, comes out with
    the root's link rewritten and everything below filtered. *)
Theorem X13_root_entry_is_rewritten
    (m : gmap string string) (doc : Etree.Element) (target : string) :
  is_entry doc = true →
  entries_have_links doc = true →
  entry_href doc ≫= (m !!.) = Some target →
  Etree.feed_filter m doc = Ok (rewrite_entry target (spec_filter m doc)).
Proof.
  intros Hentry Hl Ht. by rewrite feed_filter_root_entry, Hl, Ht.
Qed.

Lemma X13_witness :
  let m : gmap string string := {["A" := "X"]} in
  let doc := Sample.entry_holding "A" (Sample.entry "B" "inner") in
  is_entry doc = true ∧
  entries_have_links doc = true ∧
  entry_href doc ≫= (m !!.) = Some "X" ∧
  Etree.feed_filter m doc =
    Ok (Etree.Node (Etree.atom "entry") [] EmptyString
          [Etree.Node (Etree.atom "link") [("href", "X")] EmptyString [] EmptyString]
          EmptyString).
Proof.
  assert (entry_href (Sample.entry_holding "A" (Sample.entry "B" "inner"))
            ≫= (({["A" := "X"]} : gmap string string) !!.) = Some "X") as Ht
    by (vm_compute; reflexivity).
  split; [reflexivity|]. split; [reflexivity|]. split; [exact Ht|].
  exact (X13_root_entry_is_rewritten {["A" := "X"]}
           (Sample.entry_holding "A" (Sample.entry "B" "inner")) "X"
           eq_refl eq_refl Ht).
Defined.

(** ** What the feed filter keeps, and where kept entries point *)

Lemma no_entry_has_links e : has_entry e = false → entries_have_links e = true.
Proof.
  induction e as [t a x cs tl IH] using Element_ind. cbn [has_entry].
  intros H. apply orb_false_iff in H as [Ht Hcs].
  rewrite entries_have_links_eq, Ht. cbn [negb orb andb].
  induction IH as [|c cs Hc _ IHcs]; [done|].
  cbn [existsb] in Hcs. apply orb_false_iff in Hcs as [Hc' Hcs'].
  change (all_have_links (c :: cs)) with (entries_have_links c && all_have_links cs).
  by rewrite Hc, IHcs.
Qed.

(** X14.  A document without entries passes through the filter
    unchanged, whatever the mapping holds. *)
Theorem X14_document_without_entries_is_unchanged
    (m : gmap string string) (doc : Etree.Element) :
  has_entry doc = false → Etree.feed_filter m doc = Ok doc.
Proof.
  intros H. rewrite feed_filter_eq by by apply has_entry_is_entry.
  rewrite no_entry_has_links by done. by destruct (no_entry doc H m) as [-> _].
Qed.

Lemma X14_witness :
  has_entry (Sample.feed_of []) = false ∧
  Etree.feed_filter {["A" := "X"]} (Sample.feed_of []) = Ok (Sample.feed_of []).
Proof.
  split; [reflexivity|].
  exact (X14_document_without_entries_is_unchanged {["A" := "X"]} (Sample.feed_of [])
           eq_refl).
Defined.

Lemma e_tag_spec_filter m e : e_tag (spec_filter m e) = e_tag e.
Proof. by destruct e. Qed.

Lemma e_tag_rewrite_entry target e : e_tag (rewrite_entry target e) = e_tag e.
Proof. by destruct e. Qed.

Lemma e_tag_with_href target e : e_tag (with_href target e) = e_tag e.
Proof. by destruct e. Qed.

Lemma is_entry_not_link e : is_entry e = true → is_link e = false.
Proof.
  unfold is_entry, is_link. intros H%String.eqb_eq. by rewrite H.
Qed.

Lemma is_link_not_entry e : is_link e = true → is_entry e = false.
Proof.
  unfold is_entry, is_link. intros H%String.eqb_eq. by rewrite H.
Qed.

(** The filter leaves the first link among the children where it is. *)
Lemma find_link_spec_children m cs :
  List.find is_link (spec_children m cs) = spec_filter m <$> List.find is_link cs.
Proof.
  induction cs as [|c cs IH]; [done|]. rewrite spec_children_cons. cbn [List.find].
  destruct (is_entry c) eqn:Ec.
  - rewrite (is_entry_not_link _ Ec).
    destruct (entry_href c ≫= (m !!.)) as [target|]; [|done]. cbn [List.find].
    unfold is_link at 1. rewrite e_tag_rewrite_entry, e_tag_spec_filter.
    fold (is_link c). by rewrite (is_entry_not_link _ Ec).
  - cbn [List.find]. unfold is_link at 1. rewrite e_tag_spec_filter. fold (is_link c).
    by destruct (is_link c).
Qed.

Lemma find_link_rewrite target cs l :
  List.find is_link cs = Some l →
  List.find is_link (rewrite_first_link target cs) = Some (with_href target l).
Proof.
  induction cs as [|c cs IH]; [done|]. cbn [List.find rewrite_first_link].
  destruct (is_link c) eqn:Ec.
  - intros [= ->]. cbn [List.find]. unfold is_link. rewrite e_tag_with_href.
    fold (is_link l). by rewrite Ec.
  - intros H. cbn [List.find]. rewrite Ec. by apply IH.
Qed.

Lemma get_set_attr_eq k v a : Soup.get k (Etree.set_attr k v a) = Some v.
Proof.
  induction a as [|[k' x] a IH]; cbn.
  - by rewrite String.eqb_refl.
  - destruct (String.eqb k' k) eqn:E; cbn; by rewrite E.
Qed.

Lemma entries_of_list_rewrite target cs :
  entries_of_list (rewrite_first_link target cs) = entries_of_list cs.
Proof.
  induction cs as [|c cs IH]; [done|]. cbn [rewrite_first_link].
  destruct (is_link c) eqn:Ec.
  - rewrite !entries_of_list_cons. f_equal.
    apply is_link_not_entry in Ec. destruct c as [t a x ccs tl].
    unfold is_entry in Ec. cbn [e_tag with_href] in *.
    by rewrite !entries_of_eq, Ec.
  - by rewrite !entries_of_list_cons, IH.
Qed.

(** Every entry the walk leaves has its link at a value of the
    mapping. *)
Lemma entries_of_filtered m e :
  Forall (points_into m) (entries_of_list (spec_children m (e_children e))).
Proof.
  induction e as [t a x cs tl IH] using Element_ind. cbn [e_children].
  induction IH as [|c cs Hc _ IHcs]; [done|]. rewrite spec_children_cons.
  destruct c as [ct ca cx ccs ctl]. cbn [e_children] in Hc.
  rewrite spec_filter_eq. cbn [rewrite_entry].
  destruct (is_entry (Etree.Node ct ca cx ccs ctl)) eqn:Ec.
  - destruct (entry_href (Etree.Node ct ca cx ccs ctl) ≫= (m !!.)) as [target|] eqn:Et;
      [|done].
    rewrite entries_of_list_cons, entries_of_eq.
    unfold is_entry in Ec. cbn [e_tag] in Ec. rewrite Ec.
    rewrite entries_of_list_rewrite.
    apply Forall_app. split; [|done]. apply Forall_cons. split; [|done].
    unfold entry_href, entry_link in Et. cbn [e_children] in Et.
    destruct (List.find is_link ccs) as [l|] eqn:El; [|done]. cbn in Et.
    destruct (Soup.get "href" (e_attrib l)) as [h|]; [|done]. cbn in Et.
    exists h, target. split; [done|].
    unfold entry_href, entry_link. cbn [e_children].
    rewrite (find_link_rewrite target _ (spec_filter m l))
      by by rewrite find_link_spec_children, El.
    cbn. destruct l as [lt la lx lcs ltl]. rewrite spec_filter_eq. cbn.
    apply get_set_attr_eq.
  - rewrite entries_of_list_cons, entries_of_eq.
    unfold is_entry in Ec. cbn [e_tag] in Ec. rewrite Ec. cbn [app].
    apply Forall_app. by split.
Qed.

(** X15.  No entry of the output still points at a submission for which
    there is no article: the link of every entry of the output, at any
    depth, has for its href a value of the mapping. *)
Theorem X15_output_entries_point_at_mapped_articles
    (m : gmap string string) (doc out : Etree.Element) :
  is_entry doc = false →
  Etree.feed_filter m doc = Ok out →
  Forall (points_into m) (entries_of out).
Proof.
  intros Hentry. rewrite feed_filter_eq by done.
  destruct (entries_have_links doc); [|done]. intros [= <-].
  pose proof (entries_of_filtered m doc) as H.
  destruct doc as [t a x cs tl]. unfold is_entry in Hentry. cbn [e_tag e_children] in *.
  by rewrite spec_filter_eq, entries_of_eq, Hentry.
Qed.

Lemma X15_witness :
  let m : gmap string string := {["A" := "X"]} in
  let doc := Sample.feed_of [Sample.entry "A" "first"; Sample.entry "B" "second";
                             Sample.entry_holding "A" (Sample.entry "A" "inner")] in
  let out := Sample.feed_of [Sample.entry "X" "first";
                             Sample.entry_holding "X" (Sample.entry "X" "inner")] in
  is_entry doc = false ∧
  Etree.feed_filter m doc = Ok out ∧
  Forall (points_into m) (entries_of out).
Proof.
  assert (Etree.feed_filter {["A" := "X"]}
            (Sample.feed_of [Sample.entry "A" "first"; Sample.entry "B" "second";
                             Sample.entry_holding "A" (Sample.entry "A" "inner")])
          = Ok (Sample.feed_of [Sample.entry "X" "first";
                                Sample.entry_holding "X" (Sample.entry "X" "inner")]))
    as H by (vm_compute; reflexivity).
  split; [reflexivity|]. split; [exact H|].
  exact (X15_output_entries_point_at_mapped_articles {["A" := "X"]}
           (Sample.feed_of [Sample.entry "A" "first"; Sample.entry "B" "second";
                            Sample.entry_holding "A" (Sample.entry "A" "inner")])
           (Sample.feed_of [Sample.entry "X" "first";
                            Sample.entry_holding "X" (Sample.entry "X" "inner")])
           eq_refl H).
Defined.

Lemma nothing_mapped_nothing_left m e :
  Forall (λ c, entry_href c ≫= (m !!.) = None) (entries_of_list (e_children e)) →
  entries_of_list (spec_children m (e_children e)) = [].
Proof.
  induction e as [t a x cs tl IH] using Element_ind. cbn [e_children].
  induction IH as [|c cs Hc _ IHcs]; [done|].
  rewrite entries_of_list_cons, spec_children_cons. intros H.
  apply Forall_app in H as [Hhere Hrest]. specialize (IHcs Hrest).
  destruct c as [ct ca cx ccs ctl]. cbn [e_children] in Hc.
  rewrite entries_of_eq in Hhere. unfold is_entry. cbn [e_tag].
  destruct (String.eqb ct (Etree.atom "entry")) eqn:E; cbn [app] in Hhere.
  - apply Forall_cons in Hhere as [Hh _]. by rewrite Hh.
  - rewrite entries_of_list_cons, spec_filter_eq, entries_of_eq, E. cbn [app].
    by rewrite Hc, IHcs.
Qed.

(** X16.  When no entry of the feed has a link that is a key of the
    mapping (for one, when the crawl resolved nothing and the mapping
    is empty), the output holds no entry at all. *)
Theorem X16_no_mapped_entry_leaves_no_entry
    (m : gmap string string) (doc out : Etree.Element) :
  is_entry doc = false →
  Forall (λ e, entry_href e ≫= (m !!.) = None) (entries_of doc) →
  Etree.feed_filter m doc = Ok out →
  entries_of out = [].
Proof.
  intros Hentry Hnone. rewrite feed_filter_eq by done.
  destruct (entries_have_links doc); [|done]. intros [= <-].
  pose proof (nothing_mapped_nothing_left m doc) as H.
  destruct doc as [t a x cs tl]. unfold is_entry in Hentry. cbn [e_tag e_children] in *.
  rewrite entries_of_eq, Hentry in Hnone.
  by rewrite spec_filter_eq, entries_of_eq, Hentry, (H Hnone).
Qed.

Lemma X16_witness :
  let m : gmap string string := ∅ in
  let doc := Sample.feed_of [Sample.entry "A" "first"; Sample.entry "B" "second"] in
  is_entry doc = false ∧
  Forall (λ e, entry_href e ≫= (m !!.) = None) (entries_of doc) ∧
  Etree.feed_filter m doc = Ok (Sample.feed_of []) ∧
  entries_of (Sample.feed_of []) = [].
Proof.
  assert (Forall (λ e, entry_href e ≫= ((∅ : gmap string string) !!.) = None)
            (entries_of (Sample.feed_of [Sample.entry "A" "first";
                                         Sample.entry "B" "second"]))) as Hn
    by (repeat constructor).
  assert (Etree.feed_filter ∅
            (Sample.feed_of [Sample.entry "A" "first"; Sample.entry "B" "second"])
          = Ok (Sample.feed_of [])) as H by (vm_compute; reflexivity).
  split; [reflexivity|]. split; [exact Hn|]. split; [exact H|].
  exact (X16_no_mapped_entry_leaves_no_entry ∅
           (Sample.feed_of [Sample.entry "A" "first"; Sample.entry "B" "second"])
           (Sample.feed_of []) eq_refl Hn H).
Defined.

Lemma spec_children_keeps_the_rest m cs :
  filter (λ c, has_entry c = false) cs `sublist_of` spec_children m cs.
Proof.
  induction cs as [|c cs IH]; [done|]. rewrite spec_children_cons, filter_cons.
  destruct (decide (has_entry c = false)) as [Hc|Hc].
  - rewrite (has_entry_is_entry _ Hc). destruct (no_entry c Hc m) as [-> _].
    by apply sublist_skip.
  - destruct (is_entry c); [|by apply sublist_cons].
    destruct (entry_href c ≫= (m !!.)); [by apply sublist_cons|done].
Qed.

(** X17.  The filter touches entries only.  The root keeps its tag,
    attributes, text and tail, and every child of the root that neither
    is nor holds an entry (the feed's title, id, links, author and the
    like) is a child of the output, unchanged and in the same order. *)
Theorem X17_feed_metadata_is_kept
    (m : gmap string string) (doc out : Etree.Element) :
  is_entry doc = false →
  Etree.feed_filter m doc = Ok out →
  e_tag out = e_tag doc ∧ e_attrib out = e_attrib doc ∧
  e_text out = e_text doc ∧ e_tail out = e_tail doc ∧
  filter (λ c, has_entry c = false) (e_children doc) `sublist_of` e_children out.
Proof.
  intros Hentry. rewrite feed_filter_eq by done.
  destruct (entries_have_links doc); [|done]. intros [= <-].
  destruct doc as [t a x cs tl]. rewrite spec_filter_eq. cbn.
  repeat split. apply spec_children_keeps_the_rest.
Qed.

Lemma X17_witness :
  let m : gmap string string := {["A" := "X"]} in
  let doc := Sample.feed_of [Sample.entry "A" "first"; Sample.entry "B" "second"] in
  let out := Sample.feed_of [Sample.entry "X" "first"] in
  is_entry doc = false ∧
  Etree.feed_filter m doc = Ok out ∧
  e_tag out = e_tag doc ∧ e_attrib out = e_attrib doc ∧
  e_text out = e_text doc ∧ e_tail out = e_tail doc ∧
  filter (λ c, has_entry c = false) (e_children doc) `sublist_of` e_children out.
Proof.
  assert (Etree.feed_filter {["A" := "X"]}
            (Sample.feed_of [Sample.entry "A" "first"; Sample.entry "B" "second"])
          = Ok (Sample.feed_of [Sample.entry "X" "first"])) as H
    by (vm_compute; reflexivity).
  split; [reflexivity|]. split; [exact H|].
  exact (X17_feed_metadata_is_kept {["A" := "X"]}
           (Sample.feed_of [Sample.entry "A" "first"; Sample.entry "B" "second"])
           (Sample.feed_of [Sample.entry "X" "first"]) eq_refl H).
Defined.

(** ** From the feed to the file *)

(** Whatever the root, every entry the loop leaves has its link at a
    value of the mapping. *)
Lemma filtered_entries_point_into m doc out :
  Etree.feed_filter m doc = Ok out → Forall (points_into m) (entries_of out).
Proof.
  destruct (is_entry doc) eqn:Hentry.
  2: { rewrite feed_filter_eq by done.
       destruct (entries_have_links doc); [|done]. intros [= <-].
       pose proof (entries_of_filtered m doc) as H.
       destruct doc as [t a x cs tl]. unfold is_entry in Hentry.
       cbn [e_tag e_children] in *.
       by rewrite spec_filter_eq, entries_of_eq, Hentry. }
  rewrite feed_filter_root_entry by done.
  destruct (entries_have_links doc); [|done].
  destruct (entry_href doc ≫= (m !!.)) as [target|] eqn:Et; [|done]. intros [= <-].
  pose proof (entries_of_filtered m doc) as Hbelow.
  destruct doc as [t a x cs tl]. unfold is_entry in Hentry. cbn [e_tag e_children] in *.
  rewrite spec_filter_eq. cbn [rewrite_entry]. rewrite entries_of_eq, Hentry.
  rewrite entries_of_list_rewrite. apply Forall_cons. split; [|done].
  unfold entry_href, entry_link in Et. cbn [e_children] in Et.
  destruct (List.find is_link cs) as [l|] eqn:El; [|done]. cbn in Et.
  destruct (Soup.get "href" (e_attrib l)) as [h|]; [|done]. cbn in Et.
  exists h, target. split; [done|].
  unfold entry_href, entry_link. cbn [e_children].
  rewrite (find_link_rewrite target _ (spec_filter m l))
    by by rewrite find_link_spec_children, El.
  cbn. destruct l as [lt la lx lcs ltl]. rewrite spec_filter_eq. cbn.
  apply get_set_attr_eq.
Qed.

(** X18.  From end to end: when [main] returns (the Actor has then left
    the process running), the file at the output path holds the
    serialisation of the parsed feed as the loop leaves it under the
    mapping [scrape] returned, the other files are as before, and in
    that document the link of every entry, at any depth, points at an
    article that the handler took from a page served with a success
    status and bearing the news flair. *)
Theorem X18_written_entries_point_at_news_articles
    (env : Env) (feed_url output_path : string) (debug : bool) (w w' : World)
    (status : nat) (rss : string) (doc : Etree.Element) :
  main env feed_url output_path debug w = (Ok tt, w') →
  feed_response env feed_url = Some (status, rss) →
  fromstring env rss = Ok doc →
  ∃ url_mapping out,
    (scrape env feed_url debug w).1 = Ok (rss, url_mapping) ∧
    Etree.feed_filter url_mapping doc = Ok out ∧
    files w' = <[output_path := tostring env out]> (files w) ∧
    Forall (λ e, ∃ k v, accepted_page env k v ∧ entry_href e = Some v) (entries_of out).
Proof.
  intros Hm Hf Hd.
  destruct (scrape_cases env feed_url debug w) as [(e & w0 & He)|H].
  { rewrite (main_scrape_raises _ _ _ _ _ _ _ He) in Hm. discriminate Hm. }
  destruct H as (status' & rss' & links & proxy & Hf' & _ & _ & _ & Hs).
  cbn zeta in Hs. rewrite Hf in Hf'. injection Hf' as <- <-.
  rewrite (main_after_scrape _ _ _ _ _ _ _ _ _ Hs Hd) in Hm.
  destruct (Etree.feed_filter _ doc) as [out|e] eqn:Hout; [|discriminate Hm].
  injection Hm as <-. eexists _, out. rewrite Hs. cbn [fst files].
  split; [done|]. split; [exact Hout|]. split; [done|].
  eapply Forall_impl; [exact (filtered_entries_point_into _ _ _ Hout)|].
  intros e (k & v & Hk & He). exists k, v. split; [|done]. by eapply collect_accepted.
Qed.

Lemma X18_witness :
  let env := with_tostring render (Sample.env false) in
  let w' := {| files := {["feed.xml" := "https://x.example/story;"; "notes.txt" := "mine"]};
               requests := ["AB"; "A"; "B"] |} in
  main env "AB" "feed.xml" false world1 = (Ok tt, w') ∧
  feed_response env "AB" = Some (200, "AB") ∧
  fromstring env "AB" =
    Ok (Sample.feed_of [Sample.entry "A" "post"; Sample.entry "B" "post"]) ∧
  ∃ url_mapping out,
    (scrape env "AB" false world1).1 = Ok ("AB", url_mapping) ∧
    Etree.feed_filter url_mapping
      (Sample.feed_of [Sample.entry "A" "post"; Sample.entry "B" "post"]) = Ok out ∧
    files w' = <["feed.xml" := tostring env out]> (files world1) ∧
    Forall (λ e, ∃ k v, accepted_page env k v ∧ entry_href e = Some v) (entries_of out).
Proof.
  assert (main (with_tostring render (Sample.env false)) "AB" "feed.xml" false world1 =
          (Ok tt,
           {| files := {["feed.xml" := "https://x.example/story;"; "notes.txt" := "mine"]};
              requests := ["AB"; "A"; "B"] |})) as Hm
    by (vm_compute; reflexivity).
  split; [exact Hm|]. split; [reflexivity|]. split; [reflexivity|].
  exact (X18_written_entries_point_at_news_articles
           (with_tostring render (Sample.env false)) "AB" "feed.xml" false world1
           {| files := {["feed.xml" := "https://x.example/story;"; "notes.txt" := "mine"]};
              requests := ["AB"; "A"; "B"] |}
           200 "AB" (Sample.feed_of [Sample.entry "A" "post"; Sample.entry "B" "post"])
           Hm eq_refl eq_refl).
Defined.

(** X19.  The feed is accepted on a 2xx status only.  Any other status
    of the feed response, a redirect as much as an error, ends the run
    with [HTTPStatusError] before any page is fetched, and nothing is
    written. *)
Theorem X19_feed_status_other_than_2xx_ends_the_run
    (env : Env) (feed_url output_path : string) (debug : bool) (w : World)
    (status : nat) (content : string) :
  feed_response env feed_url = Some (status, content) →
  ¬ (200 ≤ status < 300) →
  main env feed_url output_path debug w =
  (Raise (HTTPStatusError status),
   {| files := files w; requests := requests w ++ [feed_url] |}).
Proof.
  intros Hf Hs. apply main_scrape_raises. rewrite scrape_eq. cbn zeta. rewrite Hf.
  destruct (Nat.leb_spec 200 status), (Nat.ltb_spec status 300); cbn; try done. lia.
Qed.

Lemma X19_witness :
  let env := with_feed_response (λ _, Some (301, "moved")) (Sample.env false) in
  feed_response env "AB" = Some (301, "moved") ∧
  ¬ (200 ≤ 301 < 300) ∧
  main env "AB" "feed.xml" false world1 =
  (Raise (HTTPStatusError 301), {| files := files world1; requests := ["AB"] |}).
Proof.
  assert (¬ (200 ≤ 301 < 300)) as Hs by lia.
  split; [reflexivity|]. split; [exact Hs|].
  exact (X19_feed_status_other_than_2xx_ends_the_run
           (with_feed_response (λ _, Some (301, "moved")) (Sample.env false))
           "AB" "feed.xml" false world1 301 "moved" eq_refl Hs).
Defined.

(** ** The ways the handler can fail *)

Lemma prefix_occurrences c n s :
  String.prefix n s = true → occurrences c n ≤ occurrences c s.
Proof.
  revert s. induction n as [|a n IH]; intros s; [cbn; lia|].
  destruct s as [|b s]; [done|]. cbn.
  destruct (Ascii.ascii_dec a b) as [<-|]; [|done].
  intros H. specialize (IH _ H). lia.
Qed.

Lemma contains_occurrences c n s :
  contains n s = true → occurrences c n ≤ occurrences c s.
Proof.
  induction s as [|b s IH]; cbn [contains]; intros H; apply orb_true_iff in H as [H|H].
  - by apply prefix_occurrences.
  - done.
  - by apply prefix_occurrences.
  - specialize (IH H). cbn. lia.
Qed.

(** The anchor the flair selector finds has an href, with a question
    mark in it. *)
Lemma flair_link_href page t :
  Soup.select_one Soup.flair_selector page = Some t →
  ∃ h, Soup.get "href" (Soup.attrs t) = Some h ∧ 1 ≤ occurrences "?" h.
Proof.
  intros H. apply List.find_some in H as [_ H].
  unfold Soup.flair_selector in H. apply andb_true_iff in H as [_ H].
  unfold Soup.attr_contains in H.
  destruct (Soup.get "href" (Soup.attrs t)) as [h|]; [|done].
  exists h. split; [done|]. by apply (contains_occurrences "?") in H.
Qed.

(** X20.  The handler can fail in four ways only, each with its cause.
    [TypeError]: the page has no flair anchor, or it bears the news
    flair and has no article anchor.  [ValueError]: the flair href
    holds two question marks or more.  [KeyError]: the query string of
    the flair href has no [f], or the article anchor of a news page has
    no href.  [IndexError]: [f] has no value.  The anchor the flair
    selector finds always has an href with a question mark, so the
    subscript on it never fails. *)
Theorem X20_handler_fails_in_four_ways_only
    (pq : string → gmap string (list string)) (context : Context) (st : Store) (e : exn) :
  (default_handler pq context st).1 = Raise e →
  let page := soup context in
  let flair_query query_string :=
    ∃ t h path,
      Soup.select_one Soup.flair_selector page = Some t ∧
      Soup.get "href" (Soup.attrs t) = Some h ∧
      split "?" h = [path; query_string] in
  match e with
  | TypeError =>
      Soup.select_one Soup.flair_selector page = None ∨
      (flair_of pq page = Ok news_flair ∧
       Soup.select_one Soup.article_selector page = None)
  | ValueError =>
      ∃ t h, Soup.select_one Soup.flair_selector page = Some t ∧
             Soup.get "href" (Soup.attrs t) = Some h ∧
             2 ≤ occurrences "?" h
  | KeyError =>
      (∃ query_string, flair_query query_string ∧ pq query_string !! "f" = None) ∨
      (flair_of pq page = Ok news_flair ∧
       ∃ t, Soup.select_one Soup.article_selector page = Some t ∧
            Soup.get "href" (Soup.attrs t) = None)
  | IndexError =>
      ∃ query_string, flair_query query_string ∧ pq query_string !! "f" = Some []
  | _ => False
  end.
Proof.
  intros Hr page flair_query. subst page flair_query.
  rewrite default_handler_eq in Hr. cbn zeta in Hr.
  destruct (flair_of pq (soup context)) as [f|e'] eqn:Efl.
  - destruct (String.eqb_spec f news_flair) as [->|]; [|discriminate Hr].
    cbn [negb] in Hr.
    destruct (article_of (soup context)) as [v|e'] eqn:Ea; [discriminate Hr|].
    injection Hr as ->.
    destruct (Soup.select_one Soup.article_selector (soup context)) as [t|] eqn:Es.
    + rewrite (article_of_link _ _ Es) in Ea.
      destruct (Soup.get "href" (Soup.attrs t)) eqn:Eh; [discriminate Ea|].
      injection Ea as <-. right. split; [done|]. by exists t.
    + rewrite (article_of_missing _ Es) in Ea. injection Ea as <-. by right.
  - injection Hr as ->.
    destruct (Soup.select_one Soup.flair_selector (soup context)) as [t|] eqn:Ef.
    2: { rewrite (flair_of_missing _ _ Ef) in Efl. injection Efl as <-. by left. }
    destruct (flair_link_href _ _ Ef) as (h & Hh & Hocc).
    rewrite (flair_of_link pq _ _ _ Ef Hh) in Efl.
    pose proof (split_length "?" h) as Hlen.
    destruct (split "?" h) as [|p [|q [|r rest]]] eqn:Esplit; cbn in Hlen.
    + lia.
    + lia.
    + destruct (pq q !! "f") as [[|v vs]|] eqn:Epq; [|discriminate Efl|].
      * injection Efl as <-. exists q. split; [|done]. by exists t, h, p.
      * injection Efl as <-. left. exists q. split; [|done]. by exists t, h, p.
    + injection Efl as <-. exists t, h. split; [done|]. split; [done|]. lia.
Qed.

Lemma X20_witness :
  let context := {| request_url := "D"; proxy_info := None; soup := Sample.page_D |} in
  let st := {| log := []; dataset := [] |} in
  (default_handler Sample.parse_qs context st).1 = Raise TypeError ∧
  (Soup.select_one Soup.flair_selector Sample.page_D = None ∨
   (flair_of Sample.parse_qs Sample.page_D = Ok news_flair ∧
    Soup.select_one Soup.article_selector Sample.page_D = None)).
Proof.
  assert ((default_handler Sample.parse_qs
             {| request_url := "D"; proxy_info := None; soup := Sample.page_D |}
             {| log := []; dataset := [] |}).1 = Raise TypeError) as Hr
    by (vm_compute; reflexivity).
  split; [exact Hr|].
  exact (X20_handler_fails_in_four_ways_only Sample.parse_qs
           {| request_url := "D"; proxy_info := None; soup := Sample.page_D |}
           {| log := []; dataset := [] |} TypeError Hr).
Defined.

(** ** Where the Actor ends the process *)

(** X21.  Where leaving the Actor block ends the process, [main] never
    returns and never writes: the mapping is built and the feed filtered
    only after the block, and the run does not get there.  When the
    feed is fetched, its entries have links and the proxy set-up does
    not fail, the run crawls every link and then ends with exit code 0,
    the files being as they were. *)
Theorem X21_where_the_Actor_exits_nothing_is_written
    (env : Env) (feed_url output_path : string) (debug : bool) (w : World) :
  exit_process env = true →
  (∃ e, (main env feed_url output_path debug w).1 = Raise e) ∧
  files (main env feed_url output_path debug w).2 = files w ∧
  ∀ status rss links proxy,
    feed_response env feed_url = Some (status, rss) →
    200 ≤ status < 300 →
    entry_links (feed_entries env rss) = Ok links →
    proxy_configuration env = Ok proxy →
    main env feed_url output_path debug w =
    (Raise (SystemExit 0),
     {| files := files w;
        requests := (requests w ++ [feed_url]) ++
                    fetched (run (web env) (schedule env) (crawler env proxy debug) links) |}).
Proof.
  intros Hexit.
  assert (∃ e w', scrape env feed_url debug w = (Raise e, w')) as (e & w' & He).
  { rewrite scrape_eq. cbn zeta. rewrite Hexit.
    destruct (feed_response env feed_url) as [[status rss]|]; [|by eauto].
    destruct ((200 <=? status) && (status <? 300)); [|by eauto].
    destruct (entry_links (feed_entries env rss)) as [links|e]; [|by eauto].
    destruct (proxy_configuration env) as [px|e]; by eauto. }
  pose proof (scrape_files env feed_url debug w) as Hfiles.
  split; [|split].
  - exists e. by rewrite (main_scrape_raises _ _ output_path _ _ _ _ He).
  - rewrite (main_scrape_raises _ _ output_path _ _ _ _ He). by rewrite He in Hfiles.
  - intros status rss links proxy Hf Hs Hl Hp. apply main_scrape_raises.
    rewrite scrape_eq. cbn zeta. by rewrite Hf, (status_ok _ Hs), Hl, Hp, Hexit.
Qed.

Lemma X21_witness :
  let env := with_exit_process true (Sample.env false) in
  exit_process env = true ∧
  main env "AB" "feed.xml" false world1 =
  (Raise (SystemExit 0), {| files := files world1; requests := ["AB"; "A"; "B"] |}).
Proof.
  split; [reflexivity|].
  assert (200 ≤ 200 < 300) as Hs by lia.
  exact (proj2 (proj2 (X21_where_the_Actor_exits_nothing_is_written
                         (with_exit_process true (Sample.env false))
                         "AB" "feed.xml" false world1 eq_refl))
           200 "AB" ["A"; "B"] None eq_refl Hs eq_refl eq_refl).
Defined.
